(** * wollok-ts-cli: the REPL session engine, its completer and the test-target resolver

    A shallow embedding of
      - [src/commands/repl/autocomplete.ts]  (module [Autocomplete]),
      - the test command that follows the diagram client in
        [src/commands/repl/diagram.ts]: [getTarget], [getBaseNode],
        [getTestFilter] and the default export (module [TestCommand]),
      - [src/commands/repl/repl.ts] with [initializeClient] of
        [src/commands/repl/diagram.ts] (modules [Multiline] and [Repl]),
    followed by the properties of these functions.

    A JavaScript string is modelled as the [string] of the bytes of its
    text in UTF-8, as the string literals of this file are; the
    characters that the sources look for (colon, braces, space, dot,
    double quote, line feed) are one byte each, and [trim] strips the
    white space of ECMAScript, of one, two or three bytes.  The
    operations used by the sources ([startsWith], [endsWith],
    [includes], [replaceAll], [trim], [split], [join], [repeat]) are
    defined in module [JS].  The wollok-ts library and the helpers of
    [utils.ts] are collaborators: they are the fields of the class
    [Wollok] and every definition and theorem is parametric in them.

    Of Node's readline the session keeps the line being edited and its
    cursor, which [repl.prompt()] and [repl.write()] act on; of the
    event loop it keeps the reloads whose environment is being built
    and the diagram clients that a call of [onReloadClient] awaits,
    assigned when the turn of the event loop ends. *)

From Stdlib Require Import String Ascii List Bool ZArith Arith Lia.
Import ListNotations.
Open Scope string_scope.
Open Scope list_scope.

(* ================================================================== *)
(** * JavaScript strings *)
(* ================================================================== *)

Module JS.

(** The character [U+0022] (double quote) and the line terminators. *)
Definition quote : ascii := "034"%char.
Definition LF : ascii := "010"%char.
Definition CR : ascii := "013"%char.

Definition chr (a : ascii) : string := String a EmptyString.

(** Truthiness of a string: every string but the empty one. *)
Definition truthy (s : string) : bool :=
  match s with EmptyString => false | String _ _ => true end.

(** Truthiness of [string | undefined]. *)
Definition truthy_opt (o : option string) : bool :=
  match o with Some s => truthy s | None => false end.

(** [s.startsWith(p)] *)
Definition startsWith (s p : string) : bool := String.prefix p s.

(** [s.endsWith(suf)]: some suffix of [s] is [suf]. *)
Fixpoint endsWith (s suf : string) : bool :=
  String.eqb s suf ||
  match s with
  | EmptyString => false
  | String _ s' => endsWith s' suf
  end.

(** [s.includes(sub)]: [sub] is a prefix of some suffix of [s]. *)
Fixpoint includes (s sub : string) : bool :=
  String.prefix sub s ||
  match s with
  | EmptyString => false
  | String _ s' => includes s' sub
  end.

(** [s.replaceAll(c, '')] for a one-character pattern [c]. *)
Fixpoint removeAll (c : ascii) (s : string) : string :=
  match s with
  | EmptyString => EmptyString
  | String a s' =>
      if Ascii.eqb a c then removeAll c s' else String a (removeAll c s')
  end.

(** The string of the given bytes. *)
Definition utf8 (bytes : list nat) : string :=
  string_of_list_ascii (map ascii_of_nat bytes).

(** The code points that [trim] strips, in UTF-8: [WhiteSpace] and
    [LineTerminator] of ECMAScript, that is TAB, LF, VT, FF, CR, SPACE,
    U+00A0, U+1680, U+2000 to U+200A, U+2028, U+2029, U+202F, U+205F,
    U+3000 and U+FEFF. *)
Definition whiteSpace : list string :=
  Eval cbv in
  [utf8 [9]; utf8 [10]; utf8 [11]; utf8 [12]; utf8 [13]; utf8 [32];
   utf8 [194; 160];
   utf8 [225; 154; 128];
   utf8 [226; 128; 128]; utf8 [226; 128; 129]; utf8 [226; 128; 130];
   utf8 [226; 128; 131]; utf8 [226; 128; 132]; utf8 [226; 128; 133];
   utf8 [226; 128; 134]; utf8 [226; 128; 135]; utf8 [226; 128; 136];
   utf8 [226; 128; 137]; utf8 [226; 128; 138];
   utf8 [226; 128; 168]; utf8 [226; 128; 169];
   utf8 [226; 128; 175];
   utf8 [226; 129; 159];
   utf8 [227; 128; 128];
   utf8 [239; 187; 191]].

(** The bytes [c] are one of these code points. *)
Definition isWhiteSpace (c : string) : bool :=
  existsb (String.eqb c) whiteSpace.

Arguments isWhiteSpace : simpl never.

(** [s.trimStart()]: the code points above are one, two or three bytes
    long. *)
Fixpoint trimStart (s : string) : string :=
  match s with
  | EmptyString => EmptyString
  | String a s1 =>
      if isWhiteSpace (chr a) then trimStart s1
      else
        match s1 with
        | EmptyString => s
        | String b s2 =>
            if isWhiteSpace (String a (chr b)) then trimStart s2
            else
              match s2 with
              | EmptyString => s
              | String c s3 =>
                  if isWhiteSpace (String a (String b (chr c)))
                  then trimStart s3
                  else s
              end
        end
  end.

(** [s.trimEnd()]: what is left of [s] once the white space after it is
    stripped is dropped when it is itself one white space. *)
Fixpoint trimEnd (s : string) : string :=
  match s with
  | EmptyString => EmptyString
  | String a s' =>
      if isWhiteSpace (String a (trimEnd s')) then EmptyString
      else String a (trimEnd s')
  end.

(** The string starts with white space. *)
Definition startsWithWhiteSpace (s : string) : bool :=
  match s with
  | EmptyString => false
  | String a s1 =>
      isWhiteSpace (chr a) ||
      match s1 with
      | EmptyString => false
      | String b s2 =>
          isWhiteSpace (String a (chr b)) ||
          match s2 with
          | EmptyString => false
          | String c _ => isWhiteSpace (String a (String b (chr c)))
          end
      end
  end.

(** [s.trim()] *)
Definition trim (s : string) : string := trimEnd (trimStart s).

(** The number of bytes of the character that the byte [a] starts, [0]
    when no character starts with it. *)
Definition charLength (a : ascii) : nat :=
  let n := nat_of_ascii a in
  if (n <? 128)%nat then 1
  else if (n <? 194)%nat then 0
  else if (n <? 224)%nat then 2
  else if (n <? 240)%nat then 3
  else if (n <? 245)%nat then 4
  else 0.

(** The bytes that follow the first byte of a character. *)
Definition continuation (a : ascii) : bool :=
  let n := nat_of_ascii a in ((128 <=? n)%nat && (n <? 192)%nat)%bool.

(** The bytes are a sequence of complete characters, as the strings that
    the terminal decodes. *)
Fixpoint wellFormed (s : string) : bool :=
  match s with
  | EmptyString => true
  | String a s1 =>
      match charLength a with
      | 1 => wellFormed s1
      | 2 =>
          match s1 with
          | String b s2 => continuation b && wellFormed s2
          | _ => false
          end
      | 3 =>
          match s1 with
          | String b (String c s3) =>
              continuation b && continuation c && wellFormed s3
          | _ => false
          end
      | 4 =>
          match s1 with
          | String b (String c (String d s4)) =>
              continuation b && continuation c && continuation d
              && wellFormed s4
          | _ => false
          end
      | _ => false
      end
  end.

(** Prepends a character to the first piece of a split. *)
Definition consHead (a : ascii) (pieces : list string) : list string :=
  match pieces with
  | [] => [chr a]
  | h :: t => String a h :: t
  end.

(** [s.split(sep)] for a one-character separator. *)
Fixpoint split (sep : ascii) (s : string) : list string :=
  match s with
  | EmptyString => [EmptyString]
  | String a s' =>
      if Ascii.eqb a sep then EmptyString :: split sep s'
      else consHead a (split sep s')
  end.

(** [s.split(/\r\n|\n|\r/)] *)
Fixpoint splitLines (s : string) : list string :=
  match s with
  | EmptyString => [EmptyString]
  | String a s' =>
      if Ascii.eqb a LF then EmptyString :: splitLines s'
      else if Ascii.eqb a CR then
        match s' with
        | String b s'' =>
            if Ascii.eqb b LF then EmptyString :: splitLines s''
            else EmptyString :: splitLines s'
        | EmptyString => EmptyString :: splitLines s'
        end
      else consHead a (splitLines s')
  end.

(** [pieces.join(sep)] *)
Definition join (sep : string) (pieces : list string) : string :=
  String.concat sep pieces.

(** [s.repeat(n)] *)
Fixpoint repeat (s : string) (n : nat) : string :=
  match n with
  | O => EmptyString
  | S n' => (s ++ repeat s n')%string
  end.

(** [xs.length] used as a condition. *)
Definition nonEmpty {A : Type} (xs : list A) : bool :=
  match xs with [] => false | _ :: _ => true end.

End JS.

(* ================================================================== *)
(** * Completions of JavaScript statements *)
(* ================================================================== *)

(** An [Error] object: the class that the sources test with
    [instanceof], and its message. *)
Inductive JsError : Type :=
| TestSearchMissError (message : string)
| Error (message : string).

(** How a call completes: it returns, it throws, or the process is
    terminated by [process.exit(code)] (which does not throw, so no
    [catch] sees it). *)
Inductive Completion (A : Type) : Type :=
| Normal (a : A)
| Throw (e : JsError)
| ProcessExit (code : Z).

Arguments Normal {A} a.
Arguments Throw {A} e.
Arguments ProcessExit {A} code.

(** A computation that writes log records of type [L] and completes. *)
Definition Proc (L A : Type) : Type := (list L * Completion A)%type.

Definition ret {L A : Type} (a : A) : Proc L A := ([], Normal a).

Definition emit {L : Type} (l : L) : Proc L unit := ([l], Normal tt).

Definition lift {L A : Type} (c : Completion A) : Proc L A := ([], c).

Definition bind {L A B : Type} (m : Proc L A) (k : A -> Proc L B) : Proc L B :=
  match m with
  | (l1, Normal a) => let '(l2, c) := k a in (l1 ++ l2, c)
  | (l1, Throw e) => (l1, Throw e)
  | (l1, ProcessExit code) => (l1, ProcessExit code)
  end.

(** [try { m } catch (e) { h e }] *)
Definition tryCatch {L A : Type} (m : Proc L A) (h : JsError -> Proc L A) : Proc L A :=
  match m with
  | (l1, Throw e) => let '(l2, c) := h e in (l1 ++ l2, c)
  | other => other
  end.

Declare Scope proc_scope.
Delimit Scope proc_scope with proc.
Notation "x <- m ;; k" := (bind m (fun x => k))
  (at level 61, m at next level, right associativity) : proc_scope.
Notation "m ;; k" := (bind m (fun _ => k))
  (at level 61, right associativity) : proc_scope.

(* ================================================================== *)
(** * Collaborators *)
(* ================================================================== *)

(** The result of [interprete(interpreter, line)] (wollok-ts). *)
Record ExecutionResult : Type := {
  errored : bool;
  result : string;
  error : option JsError
}.

(** What the sources import from wollok-ts and from [utils.ts].  An
    [Environment] is a [Node]; [node_eqb] is object identity. *)
Class Wollok : Type := {
  Node : Type;
  node_eqb : Node -> Node -> bool;
  descendants : Node -> list Node;
  (** the nodes visited by [environment.forEach], in order *)
  forEachNode : Node -> list Node;
  is_Package : Node -> bool;
  is_Describe : Node -> bool;
  is_Test : Node -> bool;
  is_Entity : Node -> bool;
  name : Node -> string;
  fileName : Node -> option string;
  isOnly : Node -> bool;
  fullyQualifiedName : Node -> string;
  (** [Object.values(KEYWORDS)] *)
  keywords : list string;

  Interpreter : Type;
  (** [environment.getNodeOrUndefinedByFQN(fqn)] *)
  getNodeOrUndefinedByFQN : Node -> string -> option Node;
  (** [environment.scope.register([REPL, entity])] *)
  registerREPL : Node -> Node -> Node;
  (** [link([new Package({ name: REPL })], environment)] *)
  linkREPL : Node -> Node;
  (** [new Interpreter(Evaluation.build(environment, natives))] *)
  newInterpreter : Node -> Interpreter;
  (** [interprete(interpreter, line)]: the interpreter is mutated, so
      its new state is returned with the result *)
  interprete : Interpreter -> string -> Interpreter * ExecutionResult;
  (** [interpreter.evaluation.environment.replNode().name] *)
  replNodeName : Interpreter -> string;
  (** [interpret(environment, natives).fork().exec(test)]: [None] when
      the test passes, the error thrown otherwise *)
  execTest : Node -> Node -> option JsError;

  (** the state of the project directory when the environment is built *)
  World : Type;
  buildEnvironmentForProject : World -> string -> Completion Node;
  validateEnvironment : Node -> bool -> Completion unit;
  getFQN : string -> string -> string;
  successDescription : string -> string;
  failureDescription : string -> option JsError -> string;
  valueDescription : string -> string
}.

(* ================================================================== *)
(** * autocomplete.ts *)
(* ================================================================== *)

Module Autocomplete.

Definition classes : list string := ["new Date()"; "new Dictionary()"].
Definition lambdas : list string := ["{ n => n > 0 }"].
Definition libs : list string := ["console.println"].

(** [[...keywords, ...classes, ...lambdas, ...libs]] *)
Definition completions `{Wollok} : list string :=
  keywords ++ classes ++ lambdas ++ libs.

(** [autocomplete(input)]: the [CompleterResult] pair.  (The record
    written to the file logger does not take part in the result.) *)
Definition autocomplete `{Wollok} (input : string) : list string * string :=
  let hits := filter (fun c => JS.startsWith c input) completions in
  (if JS.nonEmpty hits then hits else completions, input).

End Autocomplete.

(* ================================================================== *)
(** * The test command: selection and execution of tests *)
(* ================================================================== *)

Module TestCommand.

Record Options : Type := {
  file : option string;
  describe : option string;
  test : option string;
  project : string;
  skipValidations : bool
}.

(** What the command writes, one constructor per logging statement. *)
Inductive Log `{Wollok} : Type :=
| LoggerError (message : string)           (* logger.error(chalk.red(chalk.bold(e.message))) *)
| InfoRunningAll                           (* logger.info(runAllTestsDescription) *)
| InfoBuilding                             (* logger.info(`... Building environment ...`) *)
| InfoRunning (targets : nat)              (* logger.info(`Running ${targets.length} tests...`) *)
| InfoTestPassed (tabulation : string) (test : Node)
| InfoTestFailed (tabulation : string) (test : Node)
| InfoEntity (tabulation : string) (entity : Node)
| ConsoleLog                               (* log() *)
| ErrorFailure (test : Node) (e : JsError) (* logger.error(failureDescription(...)) *)
| FileLog (ok failed : nat)                (* fileLogger.info({ ..., result: { ok, failed } }) *)
| InfoSummary (passing : nat) (failing : option nat)
| HandleError (e : JsError).               (* handleError(error) *)

Section Resolver.
Context `{Wollok}.

Definition validateParameters (filter : option string) (options : Options)
  : Completion unit :=
  if JS.truthy_opt filter &&
     (JS.truthy_opt (file options) || JS.truthy_opt (describe options)
      || JS.truthy_opt (test options))
  then Throw (Error "You should either use filter by full name or file/describe/test.")
  else Normal tt.

(** [sanitize]: every double quote of the value is removed *)
Definition sanitize (value : option string) : option string :=
  option_map (JS.removeAll JS.quote) value.

(** The template that wraps [s] in double quotes. *)
Definition quoted (s : string) : string :=
  (JS.chr JS.quote ++ s ++ JS.chr JS.quote)%string.

(** [node => node.is(Package) && node.fileName === file] *)
Definition isPackageOfFile (file : string) (node : Node) : bool :=
  is_Package node &&
  match fileName node with
  | Some f => String.eqb f file
  | None => false
  end.

(** [node => node.is(Describe) && node.name === quoted describe] *)
Definition isDescribeNamed (describe : string) (node : Node) : bool :=
  is_Describe node && String.eqb (name node) (quoted describe).

(** [node => node.is(Test) && node.name === quoted test] *)
Definition isTestNamed (test : string) (node : Node) : bool :=
  is_Test node && String.eqb (name node) (quoted test).

Definition getBaseNode (environment : Node) (filter : option string)
  (options : Options) : Completion Node :=
  if JS.truthy_opt filter then Normal environment
  else
    let inFile :=
      match file options with
      | Some file =>
          if JS.truthy file then
            match find (isPackageOfFile file) (descendants environment) with
            | Some package => Normal package
            | None =>
                Throw (TestSearchMissError
                         ("File '" ++ file ++ "' not found")%string)
            end
          else Normal environment
      | None => Normal environment
      end in
    match inFile with
    | Normal nodeToFilter =>
        match describe options with
        | Some describe =>
            if JS.truthy describe then
              match find (isDescribeNamed describe) (descendants nodeToFilter) with
              | Some group => Normal group
              | None =>
                  Throw (TestSearchMissError
                           ("Describe '" ++ describe ++ "' not found")%string)
              end
            else Normal nodeToFilter
        | None => Normal nodeToFilter
        end
    | miss => miss
    end.

Definition getTestFilter (filter : option string) (options : Options)
  : Node -> bool :=
  match test options with
  | Some test =>
      if JS.truthy_opt filter || negb (JS.truthy test) then is_Test
      else isTestNamed test
  | None => is_Test
  end.

(** [testMatches(filter)(test)] of [getTarget] *)
Definition testMatches (filter : string) (test : Node) : bool :=
  negb (JS.truthy filter) ||
  JS.includes (JS.removeAll JS.quote (fullyQualifiedName test)) filter.

(** [sanitize(filter) ?? ''] *)
Definition filterTest (filter : option string) : string :=
  match sanitize filter with Some f => f | None => EmptyString end.

(** The candidates: [getBaseNode(...).descendants.filter(getTestFilter(...))] *)
Definition possibleTargets (base : Node) (filter : option string)
  (options : Options) : list Node :=
  List.filter (getTestFilter filter options) (descendants base).

Definition getTarget (environment : Node) (filter : option string)
  (options : Options) : Proc Log (list Node) :=
  match getBaseNode environment filter options with
  | Normal base =>
      let possibleTargets := possibleTargets base filter options in
      let onlyTarget := find isOnly possibleTargets in
      ret (match onlyTarget with
           | Some only => [only]
           | None => List.filter (testMatches (filterTest filter)) possibleTargets
           end)
  | Throw (TestSearchMissError message) =>
      (emit (LoggerError message) ;; ret [])%proc
  | Throw e => lift (Throw e)
  | ProcessExit code => lift (ProcessExit code)
  end.

(** [array.includes(node)] *)
Definition contains (nodes : list Node) (node : Node) : bool :=
  existsb (node_eqb node) nodes.

(** [tabulationForNode] *)
Definition tabulationForNode (node : Node) : string :=
  JS.repeat "  " (length (JS.split "."%char (fullyQualifiedName node)) - 1).

(** The state of the [environment.forEach] loop. *)
Record Tally : Type := {
  logged : list Log;
  successes : nat;
  failures : list (Node * JsError)
}.

(** One call of the visitor of [environment.forEach]. *)
Definition visit (environment : Node) (targets : list Node)
  (t : Tally) (node : Node) : Tally :=
  if is_Test node then
    if contains targets node then
      match execTest environment node with
      | None =>
          {| logged := logged t ++ [InfoTestPassed (tabulationForNode node) node];
             successes := S (successes t);
             failures := failures t |}
      | Some e =>
          {| logged := logged t ++ [InfoTestFailed (tabulationForNode node) node];
             successes := successes t;
             failures := failures t ++ [(node, e)] |}
      end
    else t
  else if is_Entity node then
    if existsb (fun target => contains (descendants node) target) targets
    then {| logged := logged t ++ [InfoEntity (tabulationForNode node) node];
            successes := successes t;
            failures := failures t |}
    else t
  else t.

Definition runTargets (environment : Node) (targets : list Node) : Tally :=
  fold_left (visit environment targets) (forEachNode environment)
    {| logged := []; successes := 0; failures := [] |}.

(** The default export: the whole test run (the timers of the debug
    level are left out). *)
Definition run (world : World) (filter : option string) (options : Options)
  : Proc Log unit :=
  tryCatch
    (lift (validateParameters filter options) ;;
     emit InfoRunningAll ;;
     emit InfoBuilding ;;
     environment <- lift (buildEnvironmentForProject world (project options)) ;;
     lift (validateEnvironment environment (skipValidations options)) ;;
     targets <- getTarget environment filter options ;;
     emit (InfoRunning (length targets)) ;;
     let t := runTargets environment targets in
     (logged t, Normal tt) ;;
     emit ConsoleLog ;;
     (flat_map (fun '(test, e) => [ConsoleLog; ErrorFailure test e]) (failures t),
      Normal tt) ;;
     emit (FileLog (successes t) (length (failures t))) ;;
     emit (InfoSummary (successes t)
             (if JS.nonEmpty (failures t) then Some (length (failures t)) else None)) ;;
     if JS.nonEmpty (failures t) then lift (ProcessExit 2) else ret tt)%proc
    (fun e => (emit (HandleError e) ;; lift (ProcessExit 1))%proc).

End Resolver.

End TestCommand.

(* ================================================================== *)
(** * repl.ts: the interactive session *)
(* ================================================================== *)

(** The multiline accumulator: [multilineState] and [multilineHandler]. *)
Module Multiline.

Record State : Type := {
  history : list string;
  brackets : list string
}.

Definition empty : State := {| history := []; brackets := [] |}.

(** [multilineState.finished()] *)
Definition finished (st : State) : bool :=
  match brackets st with [] => true | _ :: _ => false end.

(** [multilineHandler(line)]: the new state, the prompt given to
    [repl.setPrompt] and the array returned. *)
Definition multilineHandler (line : string) (st : State)
  : State * string * list string :=
  let pushed := history st ++ [line] in
  let opened :=
    if JS.endsWith line "{" then brackets st ++ ["{"] else brackets st in
  let closed :=
    if JS.endsWith line "}" then removelast opened else opened in
  let st' := {| history := pushed; brackets := closed |} in
  (st', ("... " ++ JS.repeat "  " (length closed))%string,
   if finished st' then history st' else []).

(** The state that [multilineHandler] leaves. *)
Definition handled (line : string) (st : State) : State :=
  fst (fst (multilineHandler line st)).

(** One line through the accumulator as the ['line'] handler drives it:
    [multilineHandler], and when it returns a non-empty array the unit
    [multiline.join('\n')] is produced and both fields are reset. *)
Definition feed (line : string) (st : State) : State * option string :=
  let '(st', _, multiline) := multilineHandler line st in
  if JS.nonEmpty multiline
  then (empty, Some (JS.join (JS.chr JS.LF) multiline))
  else (st', None).

(** Feeding a sequence of lines: the final state and what each line
    produced. *)
Fixpoint feedAll (lines : list string) (st : State)
  : State * list (option string) :=
  match lines with
  | [] => (st, [])
  | line :: rest =>
      let '(st1, out) := feed line st in
      let '(st2, outs) := feedAll rest st1 in
      (st2, out :: outs)
  end.

(** The tracked depth. *)
Definition depth (st : State) : nat := length (brackets st).

(** Lines none of which produced a unit. *)
Definition nones (lines : list string) : list (option string) :=
  map (fun _ => None) lines.

End Multiline.

Module Repl.

Record Options : Type := {
  project : string;
  skipValidations : bool;
  darkMode : bool;
  host : string;
  port : string;
  skipDiagram : bool
}.

Definition withSkipDiagram (b : bool) (o : Options) : Options :=
  {| project := project o; skipValidations := skipValidations o;
     darkMode := darkMode o; host := host o; port := port o;
     skipDiagram := b |}.

(** [ENTER] of [utils.ts]: the line feed. *)
Definition ENTER : string := JS.chr JS.LF.

(** What the session does to the terminal, the loggers and the diagram
    client, one constructor per statement. *)
Inductive Event `{Wollok} : Type :=
| Prompt                               (* repl.prompt() *)
| SetPrompt (prompt : string)          (* repl.setPrompt(prompt) *)
| Evaluate (interpreter : Interpreter) (unit : string) (printed : string)
    (* console.log(interpreteLine(interpreter, unit)): the state of the
       interpreter the unit is run against and the text printed *)
| DiagramOnReload (interpreter : Interpreter)
    (* dynamicDiagramClient.onReload(interpreter) *)
| DiagramServer (interpreter : Interpreter)
    (* initializeClient with the diagram on: the server is started *)
| LoggerInfo (message : string)
| ConsoleLog (message : string)
| OutputHelp                           (* commandHandler.outputHelp() *)
| HandleError (e : JsError)
| FileLogBuildFailed (e : JsError).

Inductive Command : Type :=
| Quit | Reload | Rerun | Diagram | Help | Root.

(** The line that the terminal is editing: [repl.line], cut in two at
    [repl.cursor]. *)
Record Editor : Type := {
  beforeCursor : string;
  afterCursor : string
}.

Definition emptyLine : Editor :=
  {| beforeCursor := EmptyString; afterCursor := EmptyString |}.

(** [repl.line] *)
Definition editedLine (e : Editor) : string :=
  (beforeCursor e ++ afterCursor e)%string.

(** [repl.cursor = 0] *)
Definition cursorHome (e : Editor) : Editor :=
  {| beforeCursor := EmptyString; afterCursor := editedLine e |}.

(** The text [c] is inserted at the cursor, which moves after it. *)
Definition inserted (c : string) (e : Editor) : Editor :=
  {| beforeCursor := beforeCursor e ++ c; afterCursor := afterCursor e |}.

(** The line of a terminal holds no line terminator. *)
Fixpoint noTerminator (line : string) : bool :=
  match line with
  | EmptyString => true
  | String a rest =>
      negb (Ascii.eqb a JS.LF) && negb (Ascii.eqb a JS.CR) && noTerminator rest
  end.

Section Session.
Context `{Wollok}.

(** The variables that the closures of [replFn] share, and the state of
    the terminal and of the event loop that they depend on. *)
Record Session : Type := mkSession {
  autoImportPath : option string;
  options : Options;
  autoImportName : option string;
  interpreter : Interpreter;
  history : list string;
  multilineState : Multiline.State;
  (** [dynamicDiagramClient.enabled] *)
  diagramEnabled : bool;
  (** [enabled] of every client that [initializeClient] has returned to a
      call of [onReloadClient] that awaits it and has not resumed yet *)
  awaitedClients : list bool;
  (** the [rerun] flag of every reload whose environment is being built *)
  reloading : list bool;
  (** the line that the terminal is editing *)
  editor : Editor;
  (** [Some code] once [process.exit(code)] has been called *)
  exitCode : option Z;
  output : list Event
}.

Definition log (events : list Event) (s : Session) : Session :=
  {| autoImportPath := autoImportPath s; options := options s;
     autoImportName := autoImportName s; interpreter := interpreter s;
     history := history s; multilineState := multilineState s;
     diagramEnabled := diagramEnabled s; awaitedClients := awaitedClients s;
     reloading := reloading s; editor := editor s;
     exitCode := exitCode s; output := output s ++ events |}.

Definition setInterpreter (i : Interpreter) (s : Session) : Session :=
  {| autoImportPath := autoImportPath s; options := options s;
     autoImportName := autoImportName s; interpreter := i;
     history := history s; multilineState := multilineState s;
     diagramEnabled := diagramEnabled s; awaitedClients := awaitedClients s;
     reloading := reloading s; editor := editor s;
     exitCode := exitCode s; output := output s |}.

Definition setHistory (h : list string) (s : Session) : Session :=
  {| autoImportPath := autoImportPath s; options := options s;
     autoImportName := autoImportName s; interpreter := interpreter s;
     history := h; multilineState := multilineState s;
     diagramEnabled := diagramEnabled s; awaitedClients := awaitedClients s;
     reloading := reloading s; editor := editor s;
     exitCode := exitCode s; output := output s |}.

Definition setMultiline (m : Multiline.State) (s : Session) : Session :=
  {| autoImportPath := autoImportPath s; options := options s;
     autoImportName := autoImportName s; interpreter := interpreter s;
     history := history s; multilineState := m;
     diagramEnabled := diagramEnabled s; awaitedClients := awaitedClients s;
     reloading := reloading s; editor := editor s;
     exitCode := exitCode s; output := output s |}.

(** [options.skipDiagram = skip] *)
Definition setSkipDiagram (skip : bool) (s : Session) : Session :=
  {| autoImportPath := autoImportPath s;
     options := withSkipDiagram skip (options s);
     autoImportName := autoImportName s; interpreter := interpreter s;
     history := history s; multilineState := multilineState s;
     diagramEnabled := diagramEnabled s; awaitedClients := awaitedClients s;
     reloading := reloading s; editor := editor s;
     exitCode := exitCode s; output := output s |}.

(** [dynamicDiagramClient = client], of which [enabled] is kept. *)
Definition setClient (enabled : bool) (s : Session) : Session :=
  {| autoImportPath := autoImportPath s; options := options s;
     autoImportName := autoImportName s; interpreter := interpreter s;
     history := history s; multilineState := multilineState s;
     diagramEnabled := enabled; awaitedClients := awaitedClients s;
     reloading := reloading s; editor := editor s;
     exitCode := exitCode s; output := output s |}.

Definition setAwaitedClients (clients : list bool) (s : Session) : Session :=
  {| autoImportPath := autoImportPath s; options := options s;
     autoImportName := autoImportName s; interpreter := interpreter s;
     history := history s; multilineState := multilineState s;
     diagramEnabled := diagramEnabled s; awaitedClients := clients;
     reloading := reloading s; editor := editor s;
     exitCode := exitCode s; output := output s |}.

Definition setReloading (r : list bool) (s : Session) : Session :=
  {| autoImportPath := autoImportPath s; options := options s;
     autoImportName := autoImportName s; interpreter := interpreter s;
     history := history s; multilineState := multilineState s;
     diagramEnabled := diagramEnabled s; awaitedClients := awaitedClients s;
     reloading := r; editor := editor s;
     exitCode := exitCode s; output := output s |}.

Definition setEditor (e : Editor) (s : Session) : Session :=
  {| autoImportPath := autoImportPath s; options := options s;
     autoImportName := autoImportName s; interpreter := interpreter s;
     history := history s; multilineState := multilineState s;
     diagramEnabled := diagramEnabled s; awaitedClients := awaitedClients s;
     reloading := reloading s; editor := e;
     exitCode := exitCode s; output := output s |}.

(** [process.exit(code)] *)
Definition exit (code : Z) (s : Session) : Session :=
  {| autoImportPath := autoImportPath s; options := options s;
     autoImportName := autoImportName s; interpreter := interpreter s;
     history := history s; multilineState := multilineState s;
     diagramEnabled := diagramEnabled s; awaitedClients := awaitedClients s;
     reloading := reloading s; editor := editor s;
     exitCode := Some code; output := output s |}.

(** Nothing runs once [process.exit] has been called. *)
Definition whileRunning (step : Session -> Session) (s : Session) : Session :=
  match exitCode s with
  | Some _ => s
  | None => step s
  end.

(** [repl.prompt()]: the prompt is written and, [preserveCursor] not
    being given, the cursor goes to the start of the line being edited
    (on a terminal that is not a dumb one). *)
Definition prompt (s : Session) : Session :=
  log [Prompt] (setEditor (cursorHome (editor s)) s).

(** The prompt of the session (chalk's [bold] only styles the text). *)
Definition mainPrompt (s : Session) : string :=
  ("wollok" ++
   match autoImportName s with
   | Some n => if JS.truthy n then ":" ++ n else EmptyString
   | None => EmptyString
   end ++ "> ")%string.

(** [interpreteLine(interpreter, line)]: the new state of the
    interpreter and the description returned. *)
Definition interpreteLine (i : Interpreter) (line : string)
  : Interpreter * string :=
  let r := snd (interprete i line) in
  (fst (interprete i line),
   if errored r then failureDescription (result r) (error r)
   else successDescription (result r)).

(** [history.push(unit); console.log(interpreteLine(interpreter, unit));
    dynamicDiagramClient.onReload(interpreter)] *)
Definition evaluate (unit : string) (s : Session) : Session :=
  let s1 := setHistory (history s ++ [unit]) s in
  let done := interpreteLine (interpreter s1) unit in
  log [Evaluate (interpreter s1) unit (snd done); DiagramOnReload (fst done)]
      (setInterpreter (fst done) s1).

(** [initializeClient(options, repl, interpreter)] of diagram.ts: the
    function has no [await], so all that it does is done when it returns
    its promise; the session then, and [enabled] of the client that the
    promise holds. *)
Definition initializeClient (i : Interpreter) (s : Session) : Session * bool :=
  if skipDiagram (options s)
  then (s, false)
  else (log [DiagramServer i] s, true).

(** [onReloadClient(activateDiagram, newInterpreter)], up to its
    [await]: the client that [initializeClient] returns is assigned to
    [dynamicDiagramClient] when the call resumes, at the end of the
    turn of the event loop (see [settle]). *)
Definition onReloadClient (activateDiagram : bool)
  (newInterpreter : option Interpreter) (s : Session) : Session :=
  let selectedInterpreter :=
    match newInterpreter with Some i => i | None => interpreter s end in
  if activateDiagram && negb (diagramEnabled s) then
    let '(s1, client) :=
      initializeClient selectedInterpreter
        (setSkipDiagram (negb activateDiagram) s) in
    setAwaitedClients (awaitedClients s1 ++ [client]) s1
  else
    prompt
      (log [DiagramOnReload selectedInterpreter;
            LoggerInfo (successDescription
              ("Dynamic diagram reloaded at http://" ++ host (options s) ++ ":"
               ++ port (options s))%string)] s).

(** The end of a turn of the event loop: the calls of [onReloadClient]
    that await [initializeClient] resume, the oldest first, and each
    assigns its client to [dynamicDiagramClient]. *)
Definition settle (s : Session) : Session :=
  whileRunning
    (fun s =>
       fold_left (fun s client => setClient client s) (awaitedClients s)
         (setAwaitedClients [] s)) s.

(** The sub-command that the first token names, else the root command. *)
Definition findCommand (token : string) : Command :=
  if existsb (String.eqb token) [":quit"; ":q"; ":exit"] then Quit
  else if existsb (String.eqb token) [":reload"; ":r"] then Reload
  else if existsb (String.eqb token) [":rerun"; ":rr"] then Rerun
  else if existsb (String.eqb token) [":diagram"; ":d"] then Diagram
  else if existsb (String.eqb token) [":help"; ":h"] then Help
  else Root.

(** The synchronous part of [reload(rerun)]: the message is logged and
    the build of the environment is started. *)
Definition reload (rerun : bool) (s : Session) : Session :=
  setReloading (reloading s ++ [rerun])
    (log [LoggerInfo (successDescription "Reloading environment")] s).

(** [commandHandler.parse(args, { from: 'user' })] *)
Definition commandHandlerParse (args : list string) (s : Session) : Session :=
  match findCommand (hd EmptyString args) with
  | Quit => exit 0 s
  | Reload => reload false s
  | Rerun => reload true s
  | Diagram => onReloadClient true None s
  | Help => log [OutputHelp] s
  | Root => log [OutputHelp] s
  end.

(** The listener of the ['line'] event. *)
Definition onLine (line : string) (s : Session) : Session :=
  match exitCode s with
  | Some _ => s
  | None =>
      let line := JS.trim line in
      let isMultiline :=
        negb (Multiline.finished (multilineState s)) || JS.endsWith line "{" in
      let s1 :=
        if JS.truthy line then
          if JS.startsWith line ":" then
            commandHandlerParse (JS.split " "%char line) s
          else if isMultiline then
            let '(st, prompt, multiline) :=
              Multiline.multilineHandler line (multilineState s) in
            let s2 := log [SetPrompt prompt] (setMultiline st s) in
            if JS.nonEmpty multiline then
              let oneLine := JS.join (JS.chr JS.LF) multiline in
              let s3 := log [SetPrompt (mainPrompt s2)] (evaluate oneLine s2) in
              setMultiline Multiline.empty s3
            else s2
          else evaluate line s
        else s in
      match exitCode s1 with
      | Some _ => s1
      | None => prompt s1
      end
  end.

(** [repl._insertString(c)]: text reaches the line being edited. *)
Definition insertString (c : string) (s : Session) : Session :=
  whileRunning (fun s => setEditor (inserted c (editor s)) s) s.

(** [repl._line()]: the line being edited is cleared and handed to the
    listener of the ['line'] event. *)
Definition submit (s : Session) : Session :=
  whileRunning
    (fun s => onLine (editedLine (editor s)) (setEditor emptyLine s)) s.

(** [repl.write(data)], the terminal being in terminal mode: the pieces
    of [data.split(/\r\n|\n|\r/)] are inserted at the cursor one after
    the other, the line being edited being submitted before each piece
    but the first. *)
Definition write (data : string) (s : Session) : Session :=
  match JS.splitLines data with
  | [] => s
  | first :: rest =>
      fold_left (fun s piece => insertString piece (submit s)) rest
        (insertString first s)
  end.

(** [onReloadInterpreter(newInterpreter, rerun)] *)
Definition onReloadInterpreter (newInterpreter : Interpreter) (rerun : bool)
  (s : Session) : Session :=
  let previousCommands := history s in
  let s1 := setHistory [] (setInterpreter newInterpreter s) in
  let s2 :=
    if rerun then
      fold_left
        (fun s command =>
           whileRunning (fun s => write (command ++ ENTER)%string (prompt s)) s)
        previousCommands s1
    else s1 in
  whileRunning prompt s2.

Definition initializeInterpreter (world : World) (autoImportPath : option string)
  (options : Options) : Proc Event Interpreter :=
  tryCatch
    (environment <- lift (buildEnvironmentForProject world (project options)) ;;
     lift (validateEnvironment environment (skipValidations options)) ;;
     match autoImportPath with
     | Some path =>
         if JS.truthy path then
           let fqn := getFQN (project options) path in
           let missing :=
             emit (ConsoleLog (failureDescription
               ("File " ++ valueDescription path
                ++ " doesn't exist or is outside of project "
                ++ project options ++ "!")%string None)) ;;
             lift (ProcessExit 11) in
           match getNodeOrUndefinedByFQN environment fqn with
           | Some entity =>
               if is_Package entity
               then ret (newInterpreter (registerREPL environment entity))
               else missing
           | None => missing
           end
         else ret (newInterpreter (linkREPL environment))
     | None => ret (newInterpreter (linkREPL environment))
     end)%proc
    (fun e =>
       (emit (HandleError e) ;; emit (FileLogBuildFailed e) ;;
        lift (ProcessExit 12))%proc).

(** The rest of the oldest [reload(rerun)] in flight, run when the build
    of its environment settles:
    [setInterpreter(interpreter, rerun); reloadClient(options.skipDiagram, interpreter)].
    The environment is read from the files of the project, so the build
    settles in a later turn of the event loop than the line that asked
    for it: the turns before are over ([settle]), and this one ends once
    the reload has run.  The interpreter given to [reloadClient] is the
    object that [setInterpreter] installed, in the state that the replay
    left it in.  [initializeInterpreter] catches what its body throws,
    so its completion is never [Throw]; an exception that escaped would
    end the process with code 1. *)
Definition completeReload (world : World) (s : Session) : Session :=
  match exitCode s, reloading s with
  | Some _, _ => s
  | None, [] => s
  | None, rerun :: rest =>
      let s1 := setReloading rest (settle s) in
      match initializeInterpreter world (autoImportPath s1) (options s1) with
      | (events, Normal newInterpreter) =>
          let s2 := onReloadInterpreter newInterpreter rerun (log events s1) in
          match exitCode s2 with
          | Some _ => s2
          | None =>
              settle
                (onReloadClient (skipDiagram (options s2))
                   (Some (interpreter s2)) s2)
          end
      | (events, ProcessExit code) => exit code (log events s1)
      | (events, Throw e) => exit 1 (log events s1)
      end
  end.

(** [replFn(autoImportPath, options)]: what is written before the
    terminal is created (the icon of the first message left out), and
    the session that waits for its first line.  [replFn] awaits the
    client before it registers the listeners. *)
Definition replFn (world : World) (autoImportPath : option string)
  (options : Options) : Proc Event Session :=
  (emit (LoggerInfo
           ("Initializing Wollok REPL " ++
            match autoImportPath with
            | Some path =>
                if JS.truthy path
                then "for file " ++ valueDescription path ++ " "
                else EmptyString
            | None => EmptyString
            end ++ "on " ++ valueDescription (project options))%string) ;;
   interpreter <- initializeInterpreter world autoImportPath options ;;
   let '(s, client) := initializeClient interpreter
     {| autoImportPath := autoImportPath; options := options;
        autoImportName :=
          if JS.truthy_opt autoImportPath
          then Some (replNodeName interpreter) else None;
        interpreter := interpreter; history := [];
        multilineState := Multiline.empty;
        diagramEnabled := false; awaitedClients := []; reloading := [];
        editor := emptyLine; exitCode := None;
        output := [] |} in
   ret (prompt (setClient client s)))%proc.

(** The user edits the line: any text takes the place of the line being
    edited, the cursor anywhere in it. *)
Definition edit (e : Editor) (s : Session) : Session :=
  whileRunning (setEditor e) s.

(** Text that a terminal can hold: complete characters and no line
    terminator. *)
Definition typeable (e : Editor) : Prop :=
  JS.wellFormed (beforeCursor e) = true /\
  JS.wellFormed (afterCursor e) = true /\
  noTerminator (editedLine e) = true.

(** The sessions that a run of the REPL goes through: it starts, the
    user edits the line and submits it, a turn of the event loop ends,
    a pending reload completes. *)
Inductive reachable : Session -> Prop :=
| reach_start world path options events s :
    replFn world path options = (events, Normal s) -> reachable s
| reach_edit s e :
    reachable s -> typeable e -> reachable (edit e s)
| reach_enter s :
    reachable s -> reachable (submit s)
| reach_settle s :
    reachable s -> reachable (settle s)
| reach_reload s world :
    reachable s -> reachable (completeReload world s).

(** The unit that a submitted line completes, if any: the line itself
    outside of a block, what the accumulator produces inside of one. *)
Definition completedUnit (raw : string) (s : Session) : option string :=
  let line := JS.trim raw in
  if JS.truthy line && negb (JS.startsWith line ":") then
    if negb (Multiline.finished (multilineState s)) || JS.endsWith line "{"
    then snd (Multiline.feed line (multilineState s))
    else Some line
  else None.

(** The units of the [Evaluate] events of a trace, with the interpreter
    each was run against. *)
Definition evaluations (events : list Event) : list (Interpreter * string) :=
  flat_map (fun e => match e with
                     | Evaluate i unit _ => [(i, unit)]
                     | _ => []
                     end) events.

(** The calls of [dynamicDiagramClient.onReload] of a trace. *)
Definition notifications (events : list Event) : list Interpreter :=
  flat_map (fun e => match e with
                     | DiagramOnReload i => [i]
                     | _ => []
                     end) events.

(** Units run one after the other, each against the interpreter that
    the one before left. *)
Fixpoint evaluatedFrom (i : Interpreter) (units : list string)
  : list (Interpreter * string) :=
  match units with
  | [] => []
  | unit :: rest => (i, unit) :: evaluatedFrom (fst (interprete i unit)) rest
  end.

Definition interpreterAfter (i : Interpreter) (units : list string) : Interpreter :=
  fold_left (fun i unit => fst (interprete i unit)) units i.

(** The interpreter that the diagram client is given after each unit. *)
Fixpoint notifiedFrom (i : Interpreter) (units : list string)
  : list Interpreter :=
  match units with
  | [] => []
  | unit :: rest =>
      fst (interprete i unit) :: notifiedFrom (fst (interprete i unit)) rest
  end.

(** [s'] is [s] after the units were evaluated in turn: they are at the
    end of the history, the interpreter has run them, the trace has grown
    by events that evaluate them and notify the diagram client after
    each, and the rest of the session but the accumulator is as it was. *)
Definition advanced (s : Session) (units : list string) (s' : Session) : Prop :=
  autoImportPath s' = autoImportPath s /\ options s' = options s /\
  autoImportName s' = autoImportName s /\
  diagramEnabled s' = diagramEnabled s /\ reloading s' = reloading s /\
  exitCode s' = exitCode s /\
  history s' = history s ++ units /\
  interpreter s' = interpreterAfter (interpreter s) units /\
  exists new,
    output s' = output s ++ new /\
    evaluations new = evaluatedFrom (interpreter s) units /\
    notifications new = notifiedFrom (interpreter s) units.

End Session.

End Repl.

(* ================================================================== *)
(** * Notions used to state the properties *)
(* ================================================================== *)

Module Blocks.

(** A line opens a block when it ends with an opening brace and closes
    one when it ends with a closing brace. *)
Definition opens (line : string) : bool := JS.endsWith line "{".
Definition closes (line : string) : bool := JS.endsWith line "}".

(** What a line adds to the count of open blocks. *)
Definition delta (line : string) : Z :=
  ((if opens line then 1 else 0) - (if closes line then 1 else 0))%Z.

(** Openers minus closers of a sequence of lines. *)
Fixpoint netDepth (lines : list string) : Z :=
  match lines with
  | [] => 0%Z
  | line :: rest => (delta line + netDepth rest)%Z
  end.

(** The net depth returns to zero at the last line and not before. *)
Definition balancedAtEnd (lines : list string) : Prop :=
  lines <> [] /\
  netDepth lines = 0%Z /\
  forall k, (0 < k < length lines)%nat -> (0 < netDepth (firstn k lines))%Z.

End Blocks.

Module History.
Section Units.
Context `{Wollok}.

(** A line as the accumulator and the history receive it: trimmed, not
    empty, not a command, without line terminator. *)
Definition cleanLine (line : string) : Prop :=
  JS.trim line = line /\ JS.truthy line = true /\
  JS.startsWith line ":" = false /\ Repl.noTerminator line = true.

(** A unit that the ['line'] listener can have pushed to the history:
    one line that opens no block, or the lines of a block that the
    accumulator completes at its last line. *)
Definition recorded (unit : string) : Prop :=
  exists lines,
    unit = JS.join (JS.chr JS.LF) lines /\ Forall cleanLine lines /\
    ((exists line, lines = [line] /\ Blocks.opens line = false) \/
     (Blocks.opens (hd EmptyString lines) = true /\
      Multiline.feedAll lines Multiline.empty
      = (Multiline.empty, Multiline.nones (removelast lines) ++ [Some unit]))).

(** The pending lines are what was fed since the last flush, and the
    first of them opened the block. *)
Definition pendingOk (m : Multiline.State) : Prop :=
  Forall cleanLine (Multiline.history m) /\
  Multiline.feedAll (Multiline.history m) Multiline.empty
  = (m, Multiline.nones (Multiline.history m)) /\
  (Multiline.history m <> [] ->
   Blocks.opens (hd EmptyString (Multiline.history m)) = true).

Definition invariant (s : Repl.Session) : Prop :=
  Forall recorded (Repl.history s) /\ pendingOk (Repl.multilineState s).

(** The text that the session holds is made of complete characters, and
    the line being edited holds no line terminator. *)
Definition text (s : Repl.Session) : Prop :=
  Forall (fun unit => JS.wellFormed unit = true) (Repl.history s) /\
  Forall (fun line => JS.wellFormed line = true)
    (Multiline.history (Repl.multilineState s)) /\
  Repl.typeable (Repl.editor s).

(** What every session of a run satisfies. *)
Definition sound (s : Repl.Session) : Prop := invariant s /\ text s.

End Units.
End History.

Module MissingTarget.
Section Miss.
Context `{Wollok}.

Import TestCommand.

(** The scope that the file of the selection narrows the environment to. *)
Definition narrowedByFile (environment : Node) (options : Options)
  (scope : Node) : Prop :=
  (JS.truthy_opt (file options) = false /\ scope = environment) \/
  (exists f, file options = Some f /\ JS.truthy f = true /\
             find (isPackageOfFile f) (descendants environment) = Some scope).

(** The selection names a file that no package has, or a group that no
    describe of the narrowed scope has; [message] tells which. *)
Inductive selectionMiss (environment : Node) (options : Options)
  : string -> Prop :=
| miss_file f :
    file options = Some f -> JS.truthy f = true ->
    (forall p, In p (descendants environment) -> is_Package p = true ->
               fileName p <> Some f) ->
    selectionMiss environment options ("File '" ++ f ++ "' not found")%string
| miss_describe scope g :
    narrowedByFile environment options scope ->
    describe options = Some g -> JS.truthy g = true ->
    (forall d, In d (descendants scope) -> is_Describe d = true ->
               name d <> quoted g) ->
    selectionMiss environment options ("Describe '" ++ g ++ "' not found")%string.

End Miss.
End MissingTarget.

(* ================================================================== *)
(** * A sample project, to run the definitions on *)
(* ================================================================== *)

Module Sample.

(** Three environments: [Calc] (no test marked only), [Pets] (one test
    marked only) and [Birds] (two tests marked only). *)
Inductive SampleNode : Type :=
| Calc | CalcPackage | Arithmetic | TestSum | TestSub | TestSumNeg
| Pets | PetsPackage | TestA | TestB | TestC
| Birds | BirdsPackage | TestX | TestY | TestZ.

Definition index (n : SampleNode) : nat :=
  match n with
  | Calc => 0 | CalcPackage => 1 | Arithmetic => 2
  | TestSum => 3 | TestSub => 4 | TestSumNeg => 5
  | Pets => 6 | PetsPackage => 7 | TestA => 8 | TestB => 9 | TestC => 10
  | Birds => 11 | BirdsPackage => 12 | TestX => 13 | TestY => 14 | TestZ => 15
  end.

Definition sampleDescendants (n : SampleNode) : list SampleNode :=
  match n with
  | Calc => [CalcPackage; Arithmetic; TestSum; TestSub; TestSumNeg]
  | CalcPackage => [Arithmetic; TestSum; TestSub; TestSumNeg]
  | Arithmetic => [TestSum; TestSub; TestSumNeg]
  | Pets => [PetsPackage; TestA; TestB; TestC]
  | PetsPackage => [TestA; TestB; TestC]
  | Birds => [BirdsPackage; TestX; TestY; TestZ]
  | BirdsPackage => [TestX; TestY; TestZ]
  | _ => []
  end.

Definition sampleIsTest (n : SampleNode) : bool :=
  match n with
  | TestSum | TestSub | TestSumNeg | TestA | TestB | TestC
  | TestX | TestY | TestZ => true
  | _ => false
  end.

Definition sampleIsPackage (n : SampleNode) : bool :=
  match n with
  | CalcPackage | PetsPackage | BirdsPackage => true
  | _ => false
  end.

Definition sampleIsDescribe (n : SampleNode) : bool :=
  match n with
  | Arithmetic => true
  | _ => false
  end.

Definition sampleBareName (n : SampleNode) : string :=
  match n with
  | Calc | Pets | Birds => "root"
  | CalcPackage => "calc" | PetsPackage => "pets" | BirdsPackage => "birds"
  | Arithmetic => "arithmetic"
  | TestSum => "testSum" | TestSub => "testSub" | TestSumNeg => "testSumNeg"
  | TestA => "A runs" | TestB => "B eats fish" | TestC => "C eats meat"
  | TestX => "X walks" | TestY => "Y flies" | TestZ => "Z dives"
  end.

(** Describes and tests carry their quotes in their names. *)
Definition sampleName (n : SampleNode) : string :=
  if sampleIsTest n || sampleIsDescribe n
  then TestCommand.quoted (sampleBareName n)
  else sampleBareName n.

Definition sampleFullyQualifiedName (n : SampleNode) : string :=
  match n with
  | TestSum | TestSub | TestSumNeg =>
      "calc." ++ sampleName Arithmetic ++ "." ++ sampleName n
  | Arithmetic => "calc." ++ sampleName n
  | TestA | TestB | TestC => "pets." ++ sampleName n
  | TestX | TestY | TestZ => "birds." ++ sampleName n
  | _ => sampleName n
  end%string.

Definition sampleFileName (n : SampleNode) : option string :=
  match n with
  | CalcPackage => Some "calc.wtest"
  | PetsPackage => Some "pets.wtest"
  | BirdsPackage => Some "birds.wtest"
  | _ => None
  end.

Definition sampleIsOnly (n : SampleNode) : bool :=
  match n with
  | TestA | TestY | TestZ => true
  | _ => false
  end.

(** The sample interpreter is the list of the units it has run; a unit
    that mentions [boom] fails. *)
Definition sampleInterprete (i : list string) (unit : string)
  : list string * ExecutionResult :=
  (i ++ [unit],
   if JS.includes unit "boom"
   then {| errored := true; result := unit; error := Some (Error "boom") |}
   else {| errored := false; result := unit; error := None |}).

(** The sources of the sample projects parse when the world is [true]. *)
Definition sampleBuild (world : bool) (project : string) : Completion SampleNode :=
  if world then
    if String.eqb project "calc" then Normal Calc
    else if String.eqb project "pets" then Normal Pets
    else if String.eqb project "birds" then Normal Birds
    else Throw (Error "no such project")
  else Throw (Error "the sources do not parse").

Definition sampleNodeByFQN (environment : SampleNode) (fqn : string)
  : option SampleNode :=
  if String.eqb fqn "calc" then Some CalcPackage
  else if String.eqb fqn "calc.arithmetic" then Some Arithmetic
  else None.

Definition wollok : Wollok := {|
  Node := SampleNode;
  node_eqb := fun a b => Nat.eqb (index a) (index b);
  descendants := sampleDescendants;
  forEachNode := fun n => n :: sampleDescendants n;
  is_Package := sampleIsPackage;
  is_Describe := sampleIsDescribe;
  is_Test := sampleIsTest;
  is_Entity := fun n => sampleIsPackage n || sampleIsDescribe n || sampleIsTest n;
  name := sampleName;
  fileName := sampleFileName;
  isOnly := sampleIsOnly;
  fullyQualifiedName := sampleFullyQualifiedName;
  keywords := ["if"; "else"; "new"; "null"; "return"; "self"];
  Interpreter := list string;
  getNodeOrUndefinedByFQN := sampleNodeByFQN;
  registerREPL := fun environment _ => environment;
  linkREPL := fun environment => environment;
  newInterpreter := fun _ => [];
  interprete := sampleInterprete;
  replNodeName := fun _ => "calc";
  execTest := fun _ test =>
    match test with
    | TestSub => Some (Error "assertion failed")
    | _ => None
    end;
  World := bool;
  buildEnvironmentForProject := sampleBuild;
  validateEnvironment := fun _ _ => Normal tt;
  getFQN := fun _ path => path;
  successDescription := fun text => ("OK " ++ text)%string;
  failureDescription := fun text _ => ("FAIL " ++ text)%string;
  valueDescription := fun text => text
|}.

Definition testOptions (project : string) (file describe test : option string)
  : TestCommand.Options :=
  {| TestCommand.file := file; TestCommand.describe := describe;
     TestCommand.test := test; TestCommand.project := project;
     TestCommand.skipValidations := false |}.

Definition replOptions : Repl.Options :=
  {| Repl.project := "calc"; Repl.skipValidations := false;
     Repl.darkMode := false; Repl.host := "localhost"; Repl.port := "3000";
     Repl.skipDiagram := true |}.

(** The sample session when it waits for its first line. *)
Definition start : Repl.Session (H := wollok) :=
  Repl.mkSession (H := wollok) None replOptions None [] [] Multiline.empty
    false [] [] Repl.emptyLine None [Repl.Prompt].

Definition noSelection (project : string) : TestCommand.Options :=
  testOptions project None None None.

(** Lines typed into the sample session, the first one first. *)
Definition typed (lines : list string) : Repl.Session (H := wollok) :=
  fold_left (fun s line => Repl.onLine line s) lines start.

End Sample.

(* ================================================================== *)
(** * diagram.ts: the client of the dynamic diagram *)
(* ================================================================== *)

Module Diagram.
Section Client.
Context `{Wollok}.

(** A listener of the ['connection'] event of the socket server. *)
Inductive Listener : Type :=
| LogConnection
    (* the listener that logs the connection and the disconnection *)
| ConnectionListener (id : nat) (interpreter : Interpreter).
    (* connectionListener(interpreter); [id] tells the closures apart *)

(** What a socket is sent. *)
Inductive Message : Type :=
| InitDiagram (options : Repl.Options)      (* 'initDiagram', options *)
| UpdateDiagram (interpreter : Interpreter).
    (* 'updateDiagram', getDynamicDiagram(interpreter) *)

(** The client that [initializeClient] returns, with the variables its
    [onReload] closes over: the listeners that [io.on] has registered, in
    order, and [currentConnectionListener]. *)
Record Client : Type := {
  enabled : bool;
  options : Repl.Options;
  listeners : list Listener;
  currentConnectionListener : nat
}.

(** [initializeClient(options, repl, interpreter)] (the HTTP server, its
    static files and its ['listening'] message are left out). *)
Definition initializeClient (options : Repl.Options) (interpreter : Interpreter)
  : Client :=
  if Repl.skipDiagram options
  then {| enabled := false; options := options; listeners := [];
          currentConnectionListener := 0 |}
  else {| enabled := true; options := options;
          listeners := [LogConnection; ConnectionListener 0 interpreter];
          currentConnectionListener := 0 |}.

Definition isListener (id : nat) (l : Listener) : bool :=
  match l with
  | LogConnection => false
  | ConnectionListener id' _ => Nat.eqb id id'
  end.

(** Removes the first listener that is the closure [id]. *)
Fixpoint removeFirst (id : nat) (ls : list Listener) : list Listener :=
  match ls with
  | [] => []
  | l :: rest => if isListener id l then rest else l :: removeFirst id rest
  end.

(** [io.off('connection', listener)]: the instance added last is removed. *)
Definition off (id : nat) (ls : list Listener) : list Listener :=
  rev (removeFirst id (rev ls)).

(** [client.onReload(interpreter)]: the client then, and what [io.emit]
    sends to every connected socket. *)
Definition onReload (interpreter : Interpreter) (c : Client)
  : Client * list Message :=
  if enabled c then
    let id := S (currentConnectionListener c) in
    ({| enabled := true; options := options c;
        listeners := off (currentConnectionListener c) (listeners c)
                     ++ [ConnectionListener id interpreter];
        currentConnectionListener := id |},
     [UpdateDiagram interpreter])
  else (c, []).

(** The calls of [onReload] of a session, one per interpreter given. *)
Fixpoint reloads (interpreters : list Interpreter) (c : Client)
  : Client * list Message :=
  match interpreters with
  | [] => (c, [])
  | i :: rest =>
      let '(c1, sent) := onReload i c in
      let '(c2, sent') := reloads rest c1 in
      (c2, sent ++ sent')
  end.

(** What a socket that connects is sent by the listeners, in the order
    of their registration. *)
Definition connect (c : Client) : list Message :=
  flat_map (fun l => match l with
                     | LogConnection => []
                     | ConnectionListener _ i =>
                         [InitDiagram (options c); UpdateDiagram i]
                     end) (listeners c).

End Client.
End Diagram.

(* ================================================================== *)
(** * More of the test command and notions for more properties *)
(* ================================================================== *)

Module Description.
Section Describe.
Context `{Wollok}.
Import TestCommand.

(** [stringifiedOrWildcard] of [matchingTestDescription] *)
Definition stringifiedOrWildcard (value : option string) : string :=
  match value with
  | Some v => if JS.truthy v then ("'" ++ v ++ "'")%string else "*"
  | None => "*"
  end.

(** [matchingTestDescription(filter, options)] *)
Definition matchingTestDescription (filter : option string) (options : Options)
  : string :=
  let bySelection :=
    if JS.truthy_opt (file options) || JS.truthy_opt (describe options)
       || JS.truthy_opt (test options)
    then ("matching " ++
          valueDescription
            (JS.join "."
               (map stringifiedOrWildcard
                  [file options; describe options; test options])))%string
    else EmptyString in
  match filter with
  | Some f =>
      if JS.truthy f then ("matching " ++ valueDescription f)%string
      else bySelection
  | None => bySelection
  end.

End Describe.
End Description.

Module Counting.
Section Count.
Context `{Wollok}.
Import TestCommand.

(** The number of occurrences of a character. *)
Fixpoint occurrences (c : ascii) (s : string) : nat :=
  match s with
  | EmptyString => 0
  | String a rest => (if Ascii.eqb a c then 1 else 0) + occurrences c rest
  end.

(** A visited node is an executed test: a test among the targets. *)
Definition executed (targets : list Node) (node : Node) : bool :=
  is_Test node && contains targets node.

Definition passes (environment node : Node) : bool :=
  match execTest environment node with None => true | Some _ => false end.

(** The failure that the run records for a failing test. *)
Definition failureOf (environment node : Node) : list (Node * JsError) :=
  match execTest environment node with
  | None => []
  | Some e => [(node, e)]
  end.

End Count.
End Counting.

Module Tracking.
Section Track.
Context `{Wollok}.
Import Repl.

(** [s'] is [s] after more units were evaluated, whatever else happened:
    the units are at the end of the history, the interpreter has run
    them, and the trace has grown by events that evaluate exactly them. *)
Definition extended (s : Session) (units : list string) (s' : Session) : Prop :=
  history s' = history s ++ units /\
  interpreter s' = interpreterAfter (interpreter s) units /\
  exists new,
    output s' = output s ++ new /\
    evaluations new = evaluatedFrom (interpreter s) units.

(** Lines submitted one after the other. *)
Definition onLines (lines : list string) (s : Session) : Session :=
  fold_left (fun s line => onLine line s) lines s.

(** The diagram is on or is being turned on: the client is enabled, or
    a call of [onReloadClient] awaits a client. *)
Definition diagramOn (s : Session) : bool :=
  diagramEnabled s || JS.nonEmpty (awaitedClients s).

(** The options skip the diagram exactly when it is neither on nor being
    turned on, and every client that is awaited is enabled. *)
Definition diagramConsistent (s : Session) : Prop :=
  skipDiagram (options s) = negb (diagramOn s) /\
  Forall (fun client => client = true) (awaitedClients s).

(** From [s] to [s'] the diagram stays consistent, and a client that is
    on stays on. *)
Definition diagramKept (s s' : Session) : Prop :=
  diagramConsistent s ->
  diagramConsistent s' /\
  (diagramEnabled s = true -> diagramEnabled s' = true).

(** The session holds no text that the user has typed and not
    submitted. *)
Definition idleLine (s : Session) : Prop :=
  exitCode s = None -> editor s = emptyLine.

End Track.
End Tracking.

Module SampleClient.

(** The options of the sample with the diagram on. *)
Definition withDiagram : Repl.Options := Repl.withSkipDiagram false Sample.replOptions.

(** Two interpreters of the sample. *)
Definition first : list string := ["1"].
Definition second : list string := ["1"; "2"].

End SampleClient.

(* ================================================================== *)
(** * Properties of the JavaScript string operations *)
(* ================================================================== *)

Section StringFacts.

Lemma includes_empty (s : string) : JS.includes s EmptyString = true.
Proof. destruct s; reflexivity. Qed.

Lemma startsWith_truthy (s p : string) :
  JS.truthy p = true -> JS.startsWith s p = true -> JS.truthy s = true.
Proof.
  destruct p as [|a p]; [discriminate|]. intros _.
  destruct s; [discriminate | reflexivity].
Qed.

Lemma find_none_of_all_false {A : Type} (f : A -> bool) (l : list A) :
  (forall x, In x l -> f x = false) -> find f l = None.
Proof.
  induction l as [|x l IH]; intros Hall; [reflexivity|].
  simpl. rewrite (Hall x (or_introl eq_refl)).
  apply IH. intros y Hy. apply Hall. right. exact Hy.
Qed.

Lemma find_first {A : Type} (f : A -> bool) (pre : list A) (x : A) (rest : list A) :
  Forall (fun y => f y = false) pre -> f x = true ->
  find f (pre ++ x :: rest) = Some x.
Proof.
  induction 1 as [|y pre Hy _ IH]; intros Hx; simpl.
  - now rewrite Hx.
  - rewrite Hy. now apply IH.
Qed.

End StringFacts.

(* ================================================================== *)
(** * The completer *)
(* ================================================================== *)

Section AutocompleteFacts.
Context `{Wollok}.

Lemma completions_not_empty : Autocomplete.completions <> [].
Proof.
  unfold Autocomplete.completions. intros Heq.
  apply app_eq_nil in Heq. destruct Heq as [_ Heq]. discriminate Heq.
Qed.

(** C10.  The completer returns the input unchanged as second component;
    the first component is the list of the candidates that start with
    the input, in the order of the candidate list, and when no candidate
    starts with the input it is the whole candidate list, which is never
    empty. *)
Theorem autocomplete_hits_or_all_completions (input : string) :
  let candidates := Autocomplete.completions in
  let hits := filter (fun c => JS.startsWith c input) candidates in
  let answer := Autocomplete.autocomplete input in
  snd answer = input /\
  (((exists c, In c candidates /\ JS.startsWith c input = true) /\
    fst answer = hits) \/
   ((forall c, In c candidates -> JS.startsWith c input = false) /\
    fst answer = candidates)) /\
  (forall c, In c (fst answer) ->
     In c candidates /\
     (JS.startsWith c input = true \/ hits = [])) /\
  fst answer <> [].
Proof.
  intros candidates hits answer.
  assert (Hmem : forall c, In c hits <->
                   In c candidates /\ JS.startsWith c input = true)
    by (intros c; exact (filter_In (fun c => JS.startsWith c input) c candidates)).
  unfold answer, Autocomplete.autocomplete. fold candidates. fold hits.
  cbn [fst snd]. split; [reflexivity|].
  destruct hits as [|h hs]; cbn [JS.nonEmpty].
  - assert (Hnone : forall c, In c candidates -> JS.startsWith c input = false).
    { intros c Hc. destruct (JS.startsWith c input) eqn:Hs; [|reflexivity].
      destruct (proj2 (Hmem c) (conj Hc Hs)). }
    split; [right; split; [exact Hnone | reflexivity]|].
    split; [|apply completions_not_empty].
    intros c Hc. split; [exact Hc | right; reflexivity].
  - split.
    + left. split; [|reflexivity]. exists h. apply Hmem. left. reflexivity.
    + split; [|discriminate].
      intros c Hc. apply Hmem in Hc. destruct Hc as [Hc Hs].
      split; [exact Hc | left; exact Hs].
Qed.

End AutocompleteFacts.

(* ================================================================== *)
(** * The test-target resolver *)
(* ================================================================== *)

Section ResolverFacts.
Context `{Wollok}.
Import TestCommand.

Lemma testMatches_includes (f : string) (t : Node) :
  testMatches f t
  = JS.includes (JS.removeAll JS.quote (fullyQualifiedName t)) f.
Proof.
  unfold testMatches. destruct f as [|a f]; simpl.
  - now rewrite includes_empty.
  - reflexivity.
Qed.

Lemma getTarget_of_base environment filter options base :
  getBaseNode environment filter options = Normal base ->
  getTarget environment filter options
  = ([], Normal
       match find isOnly (possibleTargets base filter options) with
       | Some only => [only]
       | None => List.filter (testMatches (filterTest filter))
                   (possibleTargets base filter options)
       end).
Proof. intros Hbase. unfold getTarget. now rewrite Hbase. Qed.

(** C1.  When the base scope resolves and some candidate is marked only,
    the resolver returns one test alone, a candidate marked only (the
    first of them), writes nothing, and does so whatever the free-text
    filter matches; when [only] is the one candidate that is marked, the
    result is [[only]]. *)
Theorem only_test_overrides_every_filter
  environment filter options base only :
  getBaseNode environment filter options = Normal base ->
  In only (possibleTargets base filter options) ->
  isOnly only = true ->
  exists first,
    find isOnly (possibleTargets base filter options) = Some first /\
    getTarget environment filter options = ([], Normal [first]) /\
    In first (possibleTargets base filter options) /\
    isOnly first = true /\
    ((forall t, In t (possibleTargets base filter options) ->
                isOnly t = true -> t = only) -> first = only).
Proof.
  intros Hbase Hin Honly.
  destruct (find isOnly (possibleTargets base filter options)) as [first|] eqn:Hfind.
  - exists first. apply find_some in Hfind as Hfirst. destruct Hfirst as [Hf1 Hf2].
    split; [reflexivity|]. split.
    + rewrite (getTarget_of_base _ _ _ _ Hbase), Hfind. reflexivity.
    + repeat split; try assumption. intros Huniq. now apply Huniq.
  - pose proof (find_none _ _ Hfind only Hin) as Hcontra.
    rewrite Honly in Hcontra. discriminate.
Qed.

(** C9.  When two or more candidates are marked only, the resolver
    returns exactly one test, the first marked candidate in the order of
    the descendants, and reports nothing about the others. *)
Theorem first_only_test_wins
  environment filter options base before first after other :
  getBaseNode environment filter options = Normal base ->
  possibleTargets base filter options = before ++ first :: after ->
  Forall (fun t => isOnly t = false) before ->
  isOnly first = true ->
  In other after -> isOnly other = true ->
  getTarget environment filter options = ([], Normal [first]).
Proof.
  intros Hbase Hsplit Hbefore Hfirst _ _.
  rewrite (getTarget_of_base _ _ _ _ Hbase), Hsplit.
  now rewrite (find_first isOnly before first after Hbefore Hfirst).
Qed.

(** C7 (amended).  When the base scope resolves and no candidate is
    marked only, the resolver returns, in the order of the descendants
    and without writing anything, the candidates whose fully-qualified
    name, double quotes removed, contains the free-text filter, double
    quotes removed, as a substring; the comparison is exact, letter case
    included.  With a free-text filter the base scope is the environment
    and the candidates are all its tests. *)
Theorem free_text_filter_keeps_matching_tests environment filter options base :
  getBaseNode environment filter options = Normal base ->
  (forall t, In t (possibleTargets base filter options) -> isOnly t = false) ->
  getTarget environment filter options
  = ([], Normal
       (List.filter
          (fun t => JS.includes
                      (JS.removeAll JS.quote (fullyQualifiedName t))
                      (filterTest filter))
          (possibleTargets base filter options))) /\
  (JS.truthy_opt filter = true ->
   base = environment /\
   possibleTargets base filter options
   = List.filter is_Test (descendants environment)).
Proof.
  intros Hbase Hnone. split.
  - rewrite (getTarget_of_base _ _ _ _ Hbase).
    rewrite (find_none_of_all_false _ _ Hnone).
    do 2 f_equal. apply filter_ext. intros t. apply testMatches_includes.
  - intros Hfilter. unfold getBaseNode in Hbase. rewrite Hfilter in Hbase.
    injection Hbase as <-. split; [reflexivity|].
    unfold possibleTargets, getTestFilter. rewrite Hfilter.
    now destruct (test options).
Qed.

End ResolverFacts.

(* ================================================================== *)
(** * The test run *)
(* ================================================================== *)

Section RunFacts.
Context `{Wollok}.
Import TestCommand.

Lemma isPackageOfFile_no_package environment f :
  (forall p, In p (descendants environment) -> is_Package p = true ->
             fileName p <> Some f) ->
  find (isPackageOfFile f) (descendants environment) = None.
Proof.
  intros Hno. apply find_none_of_all_false. intros p Hp.
  unfold isPackageOfFile.
  destruct (is_Package p) eqn:Hpkg; [simpl|reflexivity].
  destruct (fileName p) as [f0|] eqn:Hfile; [|reflexivity].
  apply String.eqb_neq. intros ->. now apply (Hno p Hp Hpkg).
Qed.

Lemma isDescribeNamed_no_describe scope g :
  (forall d, In d (descendants scope) -> is_Describe d = true ->
             name d <> quoted g) ->
  find (isDescribeNamed g) (descendants scope) = None.
Proof.
  intros Hno. apply find_none_of_all_false. intros d Hd.
  unfold isDescribeNamed.
  destruct (is_Describe d) eqn:Hdesc; [simpl|reflexivity].
  apply String.eqb_neq. now apply Hno.
Qed.

(** A selection that misses makes [getBaseNode] throw the search miss. *)
Lemma getBaseNode_miss environment filter options message :
  JS.truthy_opt filter = false ->
  MissingTarget.selectionMiss environment options message ->
  getBaseNode environment filter options = Throw (TestSearchMissError message).
Proof.
  intros Hfilter Hmiss. unfold getBaseNode. rewrite Hfilter.
  destruct Hmiss as [f Hfile Hf Hno | scope g Hscope Hdesc Hg Hno].
  - rewrite Hfile, Hf. now rewrite isPackageOfFile_no_package.
  - assert (Hfind := isDescribeNamed_no_describe scope g Hno).
    destruct Hscope as [[Hnofile ->] | (f & Hfile & Hf & Hpkg)].
    + destruct (file options) as [f|]; simpl in Hnofile;
        [rewrite Hnofile|]; now rewrite Hdesc, Hg, Hfind.
    + now rewrite Hfile, Hf, Hpkg, Hdesc, Hg, Hfind.
Qed.

Lemma visit_no_target environment t node :
  visit environment [] t node = t.
Proof.
  unfold visit. simpl.
  destruct (is_Test node); [reflexivity|].
  now destruct (is_Entity node).
Qed.

Lemma runTargets_no_target environment :
  runTargets environment []
  = {| logged := []; successes := 0; failures := [] |}.
Proof.
  unfold runTargets.
  induction (forEachNode environment) as [|node nodes IH]; [reflexivity|].
  simpl. now rewrite visit_no_target.
Qed.

(** C4.  When the selection (without free-text filter) names a file that
    no package has, or a group that no describe of the narrowed scope
    has, the resolver writes the miss with [logger.error] and returns no
    test instead of throwing; the run built on that environment goes on,
    executes no test, reports 0 passing and 0 failed, and returns
    without calling [process.exit]. *)
Theorem selection_miss_is_reported_and_runs_nothing
  world environment filter options message :
  JS.truthy_opt filter = false ->
  MissingTarget.selectionMiss environment options message ->
  buildEnvironmentForProject world (project options) = Normal environment ->
  validateEnvironment environment (skipValidations options) = Normal tt ->
  getTarget environment filter options = ([LoggerError message], Normal []) /\
  run world filter options
  = ([InfoRunningAll; InfoBuilding; LoggerError message; InfoRunning 0;
      ConsoleLog; FileLog 0 0; InfoSummary 0 None], Normal tt).
Proof.
  intros Hfilter Hmiss Hbuild Hvalid.
  assert (Htarget : getTarget environment filter options
                    = ([LoggerError message], Normal [])).
  { unfold getTarget. now rewrite (getBaseNode_miss _ _ _ _ Hfilter Hmiss). }
  split; [exact Htarget|].
  unfold run, validateParameters. rewrite Hfilter. cbn [andb lift bind emit].
  rewrite Hbuild. cbn [bind]. rewrite Hvalid. cbn [bind].
  rewrite Htarget. cbn [bind length emit].
  rewrite runTargets_no_target. reflexivity.
Qed.

Lemma visit_failures_grow environment targets t node :
  length (failures t) <= length (failures (visit environment targets t node)).
Proof.
  unfold visit.
  destruct (is_Test node).
  - destruct (contains targets node); [|lia].
    destruct (execTest environment node); simpl; [|lia].
    rewrite length_app. simpl. lia.
  - destruct (is_Entity node); [|lia].
    destruct (existsb _ targets); simpl; lia.
Qed.

Lemma fold_visit_failures_grow environment targets nodes t :
  length (failures t)
  <= length (failures (fold_left (visit environment targets) nodes t)).
Proof.
  revert t. induction nodes as [|node nodes IH]; intros t; simpl; [lia|].
  pose proof (visit_failures_grow environment targets t node).
  pose proof (IH (visit environment targets t node)). lia.
Qed.

(** A selected test that throws is among the failures of the run. *)
Lemma failing_target_is_counted environment targets failed e :
  In failed (forEachNode environment) -> is_Test failed = true ->
  contains targets failed = true -> execTest environment failed = Some e ->
  JS.nonEmpty (failures (runTargets environment targets)) = true.
Proof.
  intros Hin Htest Hsel Hexec.
  assert (Hpos : 0 < length (failures (runTargets environment targets))).
  { unfold runTargets.
    generalize {| logged := []; successes := 0; failures := [] |}.
    induction (forEachNode environment) as [|node nodes IH]; intros t;
      [destruct Hin|].
    simpl. destruct Hin as [-> | Hin].
    - pose proof (fold_visit_failures_grow environment targets nodes
                    (visit environment targets t failed)) as Hgrow.
      unfold visit in Hgrow at 1. rewrite Htest, Hsel, Hexec in Hgrow.
      simpl in Hgrow. rewrite length_app in Hgrow. simpl in Hgrow. lia.
    - now apply IH. }
  destruct (failures (runTargets environment targets)); [simpl in Hpos; lia|].
  reflexivity.
Qed.

(** The run exits with 2 when a selected test fails. *)
Lemma run_exits_2_on_failure world filter options environment written targets failed e :
  validateParameters filter options = Normal tt ->
  buildEnvironmentForProject world (project options) = Normal environment ->
  validateEnvironment environment (skipValidations options) = Normal tt ->
  getTarget environment filter options = (written, Normal targets) ->
  In failed (forEachNode environment) -> is_Test failed = true ->
  contains targets failed = true -> execTest environment failed = Some e ->
  snd (run world filter options) = ProcessExit 2.
Proof.
  intros Hparams Hbuild Hvalid Htarget Hin Htest Hsel Hexec.
  pose proof (failing_target_is_counted _ _ _ _ Hin Htest Hsel Hexec) as Hfail.
  unfold run. rewrite Hparams. cbn [lift bind emit].
  rewrite Hbuild. cbn [bind]. rewrite Hvalid. cbn [bind].
  rewrite Htarget. cbn [bind emit]. rewrite Hfail. reflexivity.
Qed.

End RunFacts.

(* ================================================================== *)
(** * The multiline accumulator *)
(* ================================================================== *)

Section MultilineFacts.
Import Multiline.

Lemma handled_history line st : history (handled line st) = history st ++ [line].
Proof. reflexivity. Qed.

Lemma length_removelast {A : Type} (l : list A) :
  length (removelast l) = length l - 1.
Proof.
  induction l as [|x l IH]; [reflexivity|].
  destruct l as [|y l]; [reflexivity|].
  change (removelast (x :: y :: l)) with (x :: removelast (y :: l)).
  simpl length in *. rewrite IH. lia.
Qed.

(** The depth follows the openers and closers, floored at zero. *)
Lemma handled_depth line st :
  Z.of_nat (depth (handled line st))
  = Z.max 0 (Z.of_nat (depth st) + Blocks.delta line).
Proof.
  unfold handled, multilineHandler, depth, Blocks.delta, Blocks.opens,
    Blocks.closes. cbn [fst brackets].
  destruct (JS.endsWith line "{"), (JS.endsWith line "}");
    rewrite ?length_removelast, ?length_app; simpl length; lia.
Qed.

Lemma finished_depth st : finished st = true <-> depth st = 0.
Proof.
  unfold finished, depth. destruct (brackets st); simpl; split;
    intros; (reflexivity || discriminate).
Qed.

(** A line produces a unit exactly when the handler leaves no bracket
    open, and the unit is every pending line and this one. *)
Lemma feed_unfold line st :
  feed line st
  = if finished (handled line st)
    then (empty, Some (JS.join (JS.chr JS.LF) (history st ++ [line])))
    else (handled line st, None).
Proof.
  unfold feed, handled, multilineHandler. cbn [fst history].
  match goal with |- context [finished ?s] => destruct (finished s) end.
  - destruct (history st); reflexivity.
  - reflexivity.
Qed.

Lemma feed_depth line st :
  Z.of_nat (depth (fst (feed line st)))
  = Z.max 0 (Z.of_nat (depth st) + Blocks.delta line).
Proof.
  rewrite feed_unfold. pose proof (handled_depth line st) as Hd.
  destruct (finished (handled line st)) eqn:Hfin; cbn [fst].
  - apply finished_depth in Hfin. rewrite Hfin in Hd. exact Hd.
  - exact Hd.
Qed.

Lemma feed_none_iff line st :
  snd (feed line st) = None <-> 0 < depth (fst (feed line st)).
Proof.
  rewrite feed_unfold.
  destruct (finished (handled line st)) eqn:Hfin; cbn [fst snd].
  - split; [discriminate | cbn; lia].
  - split; [|reflexivity]. intros _.
    destruct (depth (handled line st)) eqn:Hd; [|lia].
    apply finished_depth in Hd. congruence.
Qed.

Lemma feedAll_cons line rest st :
  feedAll (line :: rest) st
  = (fst (feedAll rest (fst (feed line st))),
     snd (feed line st) :: snd (feedAll rest (fst (feed line st)))).
Proof.
  simpl. destruct (feed line st) as [st1 out]. cbn [fst snd].
  now destruct (feedAll rest st1).
Qed.

Lemma feedAll_app lines more st :
  feedAll (lines ++ more) st
  = (fst (feedAll more (fst (feedAll lines st))),
     snd (feedAll lines st) ++ snd (feedAll more (fst (feedAll lines st)))).
Proof.
  revert st. induction lines as [|line lines IH]; intros st.
  - simpl. now destruct (feedAll more st).
  - rewrite <- app_comm_cons, !feedAll_cons, IH. reflexivity.
Qed.

(** The depth is never less than the net count of the lines fed. *)
Lemma feedAll_depth_lower_bound lines st :
  (Z.of_nat (depth st) + Blocks.netDepth lines
   <= Z.of_nat (depth (fst (feedAll lines st))))%Z.
Proof.
  revert st. induction lines as [|line lines IH]; intros st.
  - simpl. lia.
  - rewrite feedAll_cons. cbn [fst Blocks.netDepth].
    pose proof (IH (fst (feed line st))) as Hrest.
    pose proof (feed_depth line st) as Hd. lia.
Qed.

(** Lines that close nothing keep an open block open and produce nothing. *)
Lemma feedAll_without_closer more st :
  Forall (fun line => Blocks.closes line = false) more ->
  0 < depth st ->
  snd (feedAll more st) = nones more /\
  depth st <= depth (fst (feedAll more st)).
Proof.
  intros Hmore. revert st.
  induction Hmore as [|line more Hline _ IH]; intros st Hpos.
  - simpl. split; [reflexivity | lia].
  - rewrite feedAll_cons. cbn [fst snd nones map].
    pose proof (feed_depth line st) as Hd.
    assert (Hdelta : (0 <= Blocks.delta line)%Z).
    { unfold Blocks.delta. rewrite Hline. destruct (Blocks.opens line); lia. }
    assert (Hnext : depth st <= depth (fst (feed line st))) by lia.
    destruct (IH (fst (feed line st))) as [Houts Hle]; [lia|].
    split; [|lia].
    f_equal; [|exact Houts]. apply feed_none_iff. lia.
Qed.

(** From any state: the lines bring the depth to zero at the last line
    and not before. *)
Lemma feedAll_until_balanced lines st :
  lines <> [] ->
  (Z.of_nat (depth st) + Blocks.netDepth lines = 0)%Z ->
  (forall k, 0 < k < length lines ->
             (0 < Z.of_nat (depth st) + Blocks.netDepth (firstn k lines))%Z) ->
  feedAll lines st
  = (empty,
     nones (removelast lines)
     ++ [Some (JS.join (JS.chr JS.LF) (history st ++ lines))]).
Proof.
  revert st. induction lines as [|line lines IH]; intros st Hne Hzero Hpos;
    [congruence|].
  rewrite feedAll_cons, feed_unfold.
  pose proof (handled_depth line st) as Hd.
  destruct lines as [|line2 rest].
  - cbn [Blocks.netDepth] in Hzero.
    assert (Hfin : finished (handled line st) = true)
      by (apply finished_depth; lia).
    rewrite Hfin. reflexivity.
  - assert (Hopen : (0 < Z.of_nat (depth st) + Blocks.delta line)%Z).
    { specialize (Hpos 1). cbn [firstn Blocks.netDepth] in Hpos.
      simpl length in Hpos. lia. }
    assert (Hfin : finished (handled line st) = false).
    { destruct (finished (handled line st)) eqn:Hf; [|reflexivity].
      apply finished_depth in Hf. lia. }
    rewrite Hfin. cbn [fst snd].
    rewrite (IH (handled line st)).
    + rewrite handled_history, <- app_assoc. reflexivity.
    + discriminate.
    + cbn [Blocks.netDepth] in Hzero |- *. lia.
    + intros k Hk. specialize (Hpos (S k)).
      cbn [firstn Blocks.netDepth] in Hpos. simpl length in Hpos, Hk. lia.
Qed.

(** C2.  When the block markers of N lines are balanced at line N and
    not before, feeding the lines to the idle accumulator produces
    nothing for the first N-1 lines and, at line N, one unit, the N
    lines joined by line feeds; the accumulator is then empty again (no
    pending line, depth 0). *)
Theorem balanced_lines_emit_one_unit (lines : list string) :
  Blocks.balancedAtEnd lines ->
  feedAll lines empty
  = (empty,
     nones (removelast lines) ++ [Some (JS.join (JS.chr JS.LF) lines)]).
Proof.
  intros (Hne & Hzero & Hpos).
  now apply (feedAll_until_balanced lines empty).
Qed.

(** C6.  Once more openers than closers have been fed, the depth is
    positive, and lines that close nothing produce no unit and keep it
    positive, however many they are; a line produces a unit exactly when
    it brings the depth to zero; the depth is the former depth plus the
    line's opener minus its closer, floored at zero, so a closer fed at
    depth zero leaves it at zero. *)
Theorem open_block_emits_nothing (st : State) (fed more : list string) :
  (0 < Blocks.netDepth fed)%Z ->
  Forall (fun line => Blocks.closes line = false) more ->
  let st1 := fst (feedAll fed st) in
  0 < depth st1 /\
  snd (feedAll more st1) = nones more /\
  0 < depth (fst (feedAll more st1)) /\
  (forall st' line,
     (snd (feed line st') = None <-> 0 < depth (fst (feed line st'))) /\
     Z.of_nat (depth (fst (feed line st')))
     = Z.max 0 (Z.of_nat (depth st') + Blocks.delta line)) /\
  (forall st' line,
     depth st' = 0 -> Blocks.closes line = true -> Blocks.opens line = false ->
     depth (fst (feed line st')) = 0).
Proof.
  intros Hnet Hmore st1.
  assert (Hpos : 0 < depth st1).
  { pose proof (feedAll_depth_lower_bound fed st) as Hlow. fold st1 in Hlow. lia. }
  destruct (feedAll_without_closer more st1 Hmore Hpos) as [Houts Hle].
  split; [exact Hpos|]. split; [exact Houts|]. split; [lia|]. split.
  - intros st' line. split; [apply feed_none_iff | apply feed_depth].
  - intros st' line Hzero Hcloses Hopens.
    pose proof (feed_depth line st') as Hd. unfold Blocks.delta in Hd.
    rewrite Hcloses, Hopens, Hzero in Hd. lia.
Qed.

End MultilineFacts.

(* ================================================================== *)
(** * Trimming, splitting and joining lines *)
(* ================================================================== *)

Section LineFacts.

Lemma append_assoc (a b c : string) : ((a ++ b) ++ c = a ++ (b ++ c))%string.
Proof. induction a as [|x a IH]; simpl; [reflexivity | now rewrite IH]. Qed.

(** Induction on strings for functions that look three bytes ahead. *)
Lemma string_ind3 (P : string -> Prop) :
  P EmptyString ->
  (forall a s1,
     P s1 ->
     (forall b s2, s1 = String b s2 -> P s2) ->
     (forall b c s3, s1 = String b (String c s3) -> P s3) ->
     P (String a s1)) ->
  forall s, P s.
Proof.
  intros Hempty Hstep.
  assert (Hall : forall s, P s /\
                   (forall b s2, s = String b s2 -> P s2) /\
                   (forall b c s3, s = String b (String c s3) -> P s3)).
  { induction s as [|a s (IH1 & IH2 & IH3)].
    - split; [exact Hempty|]. split; intros; discriminate.
    - split; [now apply Hstep|]. split.
      + intros b s2 Heq. injection Heq as _ <-. exact IH1.
      + intros b c s3 Heq. injection Heq as _ Heq. exact (IH2 _ _ Heq). }
  intros s. apply Hall.
Qed.

Lemma trimStart_clean (s : string) :
  JS.startsWithWhiteSpace (JS.trimStart s) = false.
Proof.
  induction s as [|a s1 IH1 IH2 IH3] using string_ind3; [reflexivity|].
  cbn [JS.trimStart].
  destruct (JS.isWhiteSpace (JS.chr a)) eqn:H1; [exact IH1|].
  destruct s1 as [|b s2].
  { cbn [JS.startsWithWhiteSpace]. now rewrite H1. }
  destruct (JS.isWhiteSpace (String a (JS.chr b))) eqn:H2;
    [exact (IH2 _ _ eq_refl)|].
  destruct s2 as [|c s3].
  { cbn [JS.startsWithWhiteSpace]. now rewrite H1, H2. }
  destruct (JS.isWhiteSpace (String a (String b (JS.chr c)))) eqn:H3;
    [exact (IH3 _ _ _ eq_refl)|].
  cbn [JS.startsWithWhiteSpace]. now rewrite H1, H2, H3.
Qed.

(** Case analysis on every test for white space in the goal. *)
Ltac white_space_cases :=
  repeat match goal with
         | |- context [JS.isWhiteSpace ?c] =>
             destruct (JS.isWhiteSpace c) eqn:?
         end.

Lemma trimStart_of_clean (s : string) :
  JS.startsWithWhiteSpace s = false -> JS.trimStart s = s.
Proof.
  destruct s as [|a [|b [|c s3]]]; cbn [JS.startsWithWhiteSpace JS.trimStart];
    white_space_cases; intros Hws; (reflexivity || discriminate Hws).
Qed.

Lemma trimEnd_clean (s : string) :
  JS.startsWithWhiteSpace s = false ->
  JS.startsWithWhiteSpace (JS.trimEnd s) = false.
Proof.
  destruct s as [|a [|b [|c s3]]];
    cbn [JS.startsWithWhiteSpace JS.trimEnd JS.chr];
    white_space_cases; intros Hws; try discriminate Hws;
    cbn [JS.startsWithWhiteSpace JS.chr];
    repeat match goal with
           | E : JS.isWhiteSpace ?c = _ |- context [JS.isWhiteSpace ?c] =>
               rewrite E
           end;
    try reflexivity; try congruence.
Qed.

Lemma trimEnd_idempotent (s : string) : JS.trimEnd (JS.trimEnd s) = JS.trimEnd s.
Proof.
  induction s as [|a s IH]; [reflexivity|].
  cbn [JS.trimEnd].
  destruct (JS.isWhiteSpace (String a (JS.trimEnd s))) eqn:Hws; [reflexivity|].
  cbn [JS.trimEnd]. now rewrite IH, Hws.
Qed.

Lemma trim_idempotent (s : string) : JS.trim (JS.trim s) = JS.trim s.
Proof.
  unfold JS.trim.
  rewrite (trimStart_of_clean (JS.trimEnd (JS.trimStart s))).
  - apply trimEnd_idempotent.
  - apply trimEnd_clean, trimStart_clean.
Qed.

Lemma trimStart_noTerminator (s : string) :
  Repl.noTerminator s = true -> Repl.noTerminator (JS.trimStart s) = true.
Proof.
  induction s as [|a s1 IH1 IH2 IH3] using string_ind3; [reflexivity|].
  intros Hs. cbn [JS.trimStart].
  assert (Hs1 : Repl.noTerminator s1 = true)
    by (cbn [Repl.noTerminator] in Hs; now apply andb_prop in Hs).
  destruct (JS.isWhiteSpace (JS.chr a)); [now apply IH1|].
  destruct s1 as [|b s2]; [exact Hs|].
  assert (Hs2 : Repl.noTerminator s2 = true)
    by (cbn [Repl.noTerminator] in Hs1; now apply andb_prop in Hs1).
  destruct (JS.isWhiteSpace (String a (JS.chr b))); [now apply (IH2 b)|].
  destruct s2 as [|c s3]; [exact Hs|].
  assert (Hs3 : Repl.noTerminator s3 = true)
    by (cbn [Repl.noTerminator] in Hs2; now apply andb_prop in Hs2).
  destruct (JS.isWhiteSpace (String a (String b (JS.chr c))));
    [now apply (IH3 b c) | exact Hs].
Qed.

Lemma trimEnd_noTerminator (s : string) :
  Repl.noTerminator s = true -> Repl.noTerminator (JS.trimEnd s) = true.
Proof.
  induction s as [|a s IH]; [reflexivity|].
  intros Hs. cbn [Repl.noTerminator] in Hs. apply andb_prop in Hs.
  destruct Hs as [Ha Hs]. cbn [JS.trimEnd].
  destruct (JS.isWhiteSpace (String a (JS.trimEnd s))); [reflexivity|].
  cbn [Repl.noTerminator]. now rewrite Ha, IH.
Qed.

Lemma trim_noTerminator (s : string) :
  Repl.noTerminator s = true -> Repl.noTerminator (JS.trim s) = true.
Proof. intros Hs. now apply trimEnd_noTerminator, trimStart_noTerminator. Qed.

(** White space at the start of a string is stripped. *)
Lemma trimStart_whiteSpace (w s : string) :
  In w JS.whiteSpace -> JS.trimStart (w ++ s) = JS.trimStart s.
Proof.
  intros Hin. unfold JS.whiteSpace in Hin.
  repeat (destruct Hin as [<- | Hin]; [reflexivity|]). destruct Hin.
Qed.

(** A string of white space only is trimmed to the empty string. *)
Lemma trim_blank (ws : list string) :
  Forall (fun w => In w JS.whiteSpace) ws ->
  JS.trim (JS.join EmptyString ws) = EmptyString.
Proof.
  intros Hws. unfold JS.trim.
  assert (Hstart : forall s,
            JS.trimStart (JS.join EmptyString ws ++ s) = JS.trimStart s).
  { induction Hws as [|w ws Hw Hws IH]; intros s; [reflexivity|].
    destruct ws as [|w2 rest].
    - cbn [JS.join String.concat]. now apply trimStart_whiteSpace.
    - change (JS.join EmptyString (w :: w2 :: rest))
        with (w ++ JS.join EmptyString (w2 :: rest))%string.
      rewrite append_assoc, trimStart_whiteSpace by exact Hw. apply IH. }
  assert (Hnil : forall s : string, (s ++ EmptyString)%string = s)
    by (induction s as [|a s IH]; [reflexivity | cbn; now rewrite IH]).
  specialize (Hstart EmptyString). rewrite Hnil in Hstart.
  now rewrite Hstart.
Qed.

(** A line without terminator, followed by a line feed, is the first
    piece of the split. *)
Lemma splitLines_line (line rest : string) :
  Repl.noTerminator line = true ->
  JS.splitLines (line ++ String JS.LF rest) = line :: JS.splitLines rest.
Proof.
  induction line as [|a line IH]; intros Hline.
  - reflexivity.
  - simpl in Hline. apply andb_prop in Hline. destruct Hline as [Ha Hline].
    apply andb_prop in Ha. destruct Ha as [Hlf Hcr].
    apply negb_true_iff in Hlf, Hcr.
    change (String a line ++ String JS.LF rest)%string
      with (String a (line ++ String JS.LF rest)).
    cbn [JS.splitLines]. rewrite Hlf, Hcr, (IH Hline). reflexivity.
Qed.

(** Writing a joined unit and [ENTER] submits the lines of the unit. *)
Lemma splitLines_join (lines : list string) :
  lines <> [] ->
  Forall (fun line => Repl.noTerminator line = true) lines ->
  JS.splitLines (JS.join (JS.chr JS.LF) lines ++ Repl.ENTER)
  = lines ++ [EmptyString].
Proof.
  intros Hne Hall. induction Hall as [|line lines Hline Hall IH]; [congruence|].
  destruct lines as [|line2 rest].
  - cbn [JS.join String.concat]. unfold Repl.ENTER, JS.chr.
    now rewrite splitLines_line.
  - change (JS.join (JS.chr JS.LF) (line :: line2 :: rest))
      with (line ++ JS.chr JS.LF ++ JS.join (JS.chr JS.LF) (line2 :: rest))%string.
    rewrite append_assoc.
    change ((JS.chr JS.LF ++ JS.join (JS.chr JS.LF) (line2 :: rest)) ++ Repl.ENTER)%string
      with (String JS.LF (JS.join (JS.chr JS.LF) (line2 :: rest) ++ Repl.ENTER)).
    rewrite (splitLines_line _ _ Hline), IH by discriminate. reflexivity.
Qed.

Lemma consHead_noTerminator a pieces :
  Ascii.eqb a JS.LF = false -> Ascii.eqb a JS.CR = false ->
  Forall (fun piece => Repl.noTerminator piece = true) pieces ->
  Forall (fun piece => Repl.noTerminator piece = true) (JS.consHead a pieces).
Proof.
  intros Hlf Hcr Hall. destruct Hall as [|piece pieces Hpiece Hall]; simpl.
  - constructor; [|constructor]. simpl. now rewrite Hlf, Hcr.
  - constructor; [|exact Hall]. simpl. now rewrite Hlf, Hcr, Hpiece.
Qed.

(** No piece of a split holds a line terminator. *)
Lemma splitLines_noTerminator (s : string) :
  Forall (fun piece => Repl.noTerminator piece = true) (JS.splitLines s).
Proof.
  assert (Hlen : forall n s, String.length s <= n ->
            Forall (fun piece => Repl.noTerminator piece = true) (JS.splitLines s)).
  { clear s. induction n as [|n IH]; intros s Hs.
    - destruct s; [|simpl in Hs; lia]. repeat constructor.
    - destruct s as [|a s]; [repeat constructor|].
      simpl in Hs. cbn [JS.splitLines].
      destruct (Ascii.eqb a JS.LF) eqn:Hlf.
      + constructor; [reflexivity | apply IH; lia].
      + destruct (Ascii.eqb a JS.CR) eqn:Hcr.
        * destruct s as [|b s].
          -- constructor; [reflexivity | apply IH; simpl; lia].
          -- destruct (Ascii.eqb b JS.LF);
               (constructor; [reflexivity | apply IH; simpl in *; lia]).
        * apply consHead_noTerminator; try assumption. apply IH. lia. }
  apply (Hlen (String.length s)). lia.
Qed.

Lemma Forall_removelast {A : Type} (P : A -> Prop) (l : list A) :
  Forall P l -> Forall P (removelast l).
Proof.
  induction 1 as [|x l Hx Hl IH]; [constructor|].
  destruct l as [|y l]; [constructor|].
  change (removelast (x :: y :: l)) with (x :: removelast (y :: l)).
  now constructor.
Qed.

Lemma append_nil_r (s : string) : (s ++ EmptyString)%string = s.
Proof. induction s as [|a s IH]; [reflexivity | cbn; now rewrite IH]. Qed.

(** A byte that continues a character starts none. *)
Lemma continuation_charLength (b : ascii) :
  JS.continuation b = true -> JS.charLength b = 0.
Proof.
  destruct b as [[] [] [] [] [] [] [] []]; intros Hb;
    (reflexivity || discriminate Hb).
Qed.

(** A white space is as long as its first byte tells. *)
Lemma whiteSpace_charLength (a : ascii) (t : string) :
  JS.isWhiteSpace (String a t) = true ->
  JS.charLength a = String.length (String a t).
Proof.
  unfold JS.isWhiteSpace. intros Hws.
  apply existsb_exists in Hws. destruct Hws as (w & Hin & Heq).
  apply String.eqb_eq in Heq. subst w. unfold JS.whiteSpace in Hin.
  repeat (destruct Hin as [Heq | Hin]; [injection Heq as <- <-; reflexivity|]).
  destruct Hin.
Qed.

Lemma wellFormed_app (a b : string) :
  JS.wellFormed a = true -> JS.wellFormed b = true ->
  JS.wellFormed (a ++ b) = true.
Proof.
  intros Ha Hb. revert Ha.
  induction a as [a IH] using (induction_ltof1 _ String.length).
  unfold ltof in IH.
  destruct a as [|x a1]; [intros _; exact Hb|].
  cbn [append JS.wellFormed].
  destruct (JS.charLength x) as [|[|[|[|[|k]]]]]; try discriminate.
  - apply IH. cbn. lia.
  - destruct a1 as [|y a2]; [discriminate|]. cbn [append].
    destruct (JS.continuation y); [|discriminate]. cbn [andb].
    apply IH. cbn. lia.
  - destruct a1 as [|y [|z a3]]; try discriminate. cbn [append].
    destruct (JS.continuation y), (JS.continuation z); try discriminate.
    cbn [andb]. apply IH. cbn. lia.
  - destruct a1 as [|y [|z [|u a4]]]; try discriminate. cbn [append].
    destruct (JS.continuation y), (JS.continuation z), (JS.continuation u);
      try discriminate.
    cbn [andb]. apply IH. cbn. lia.
Qed.

Lemma wellFormed_trimStart (s : string) :
  JS.wellFormed s = true -> JS.wellFormed (JS.trimStart s) = true.
Proof.
  induction s as [s IH] using (induction_ltof1 _ String.length).
  unfold ltof in IH.
  destruct s as [|a s1]; [reflexivity|]. intros Hs.
  cbn [JS.trimStart].
  destruct (JS.isWhiteSpace (JS.chr a)) eqn:H1.
  { apply whiteSpace_charLength in H1. cbn [JS.wellFormed] in Hs.
    rewrite H1 in Hs. cbn [String.length] in Hs.
    apply IH; [cbn; lia | exact Hs]. }
  destruct s1 as [|b s2]; [exact Hs|].
  destruct (JS.isWhiteSpace (String a (JS.chr b))) eqn:H2.
  { apply whiteSpace_charLength in H2. cbn [JS.wellFormed] in Hs.
    rewrite H2 in Hs. cbn [String.length JS.chr] in Hs.
    apply andb_prop in Hs. apply IH; [cbn; lia | apply Hs]. }
  destruct s2 as [|c s3]; [exact Hs|].
  destruct (JS.isWhiteSpace (String a (String b (JS.chr c)))) eqn:H3;
    [|exact Hs].
  apply whiteSpace_charLength in H3. cbn [JS.wellFormed] in Hs.
  rewrite H3 in Hs. cbn [String.length JS.chr] in Hs.
  apply andb_prop in Hs. apply IH; [cbn; lia | apply Hs].
Qed.

(** No white space starts with a byte that continues a character. *)
Lemma continuation_no_whiteSpace (b : ascii) (t : string) :
  JS.continuation b = true -> JS.isWhiteSpace (String b t) = false.
Proof.
  intros Hb. destruct (JS.isWhiteSpace (String b t)) eqn:Hws; [|reflexivity].
  apply whiteSpace_charLength in Hws.
  rewrite (continuation_charLength b Hb) in Hws. discriminate Hws.
Qed.

Lemma wellFormed_trimEnd (s : string) :
  JS.wellFormed s = true -> JS.wellFormed (JS.trimEnd s) = true.
Proof.
  induction s as [s IH] using (induction_ltof1 _ String.length).
  unfold ltof in IH.
  destruct s as [|a s1]; [reflexivity|]. intros Hs.
  cbn [JS.wellFormed] in Hs.
  destruct (JS.charLength a) as [|[|[|[|[|k]]]]] eqn:Hk; try discriminate.
  - cbn [JS.trimEnd].
    destruct (JS.isWhiteSpace (String a (JS.trimEnd s1))); [reflexivity|].
    cbn [JS.wellFormed]. rewrite Hk. apply IH; [cbn; lia | exact Hs].
  - destruct s1 as [|b s2]; [discriminate|].
    apply andb_prop in Hs. destruct Hs as [Hb Hs].
    cbn [JS.trimEnd].
    rewrite (continuation_no_whiteSpace b _ Hb).
    destruct (JS.isWhiteSpace (String a (String b (JS.trimEnd s2))));
      [reflexivity|].
    cbn [JS.wellFormed]. rewrite Hk, Hb. apply IH; [cbn; lia | exact Hs].
  - destruct s1 as [|b [|c s3]]; try discriminate.
    apply andb_prop in Hs. destruct Hs as [Hb Hs].
    apply andb_prop in Hb. destruct Hb as [Hb Hc].
    cbn [JS.trimEnd].
    rewrite (continuation_no_whiteSpace c _ Hc).
    rewrite (continuation_no_whiteSpace b _ Hb).
    destruct (JS.isWhiteSpace
                (String a (String b (String c (JS.trimEnd s3)))));
      [reflexivity|].
    cbn [JS.wellFormed]. rewrite Hk, Hb, Hc. apply IH; [cbn; lia | exact Hs].
  - destruct s1 as [|b [|c [|d s4]]]; try discriminate.
    apply andb_prop in Hs. destruct Hs as [Hb Hs].
    apply andb_prop in Hb. destruct Hb as [Hb Hd].
    apply andb_prop in Hb. destruct Hb as [Hb Hc].
    cbn [JS.trimEnd].
    rewrite (continuation_no_whiteSpace d _ Hd).
    rewrite (continuation_no_whiteSpace c _ Hc).
    rewrite (continuation_no_whiteSpace b _ Hb).
    destruct (JS.isWhiteSpace
                (String a (String b (String c (String d (JS.trimEnd s4))))));
      [reflexivity|].
    cbn [JS.wellFormed]. rewrite Hk, Hb, Hc, Hd.
    apply IH; [cbn; lia | exact Hs].
Qed.

Lemma wellFormed_trim (s : string) :
  JS.wellFormed s = true -> JS.wellFormed (JS.trim s) = true.
Proof. intros Hs. now apply wellFormed_trimEnd, wellFormed_trimStart. Qed.

Lemma terminator_charLength (a : ascii) :
  JS.charLength a <> 1 ->
  Ascii.eqb a JS.LF = false /\ Ascii.eqb a JS.CR = false.
Proof.
  intros Hk. split.
  - destruct (Ascii.eqb_spec a JS.LF) as [-> |]; [now elim Hk | reflexivity].
  - destruct (Ascii.eqb_spec a JS.CR) as [-> |]; [now elim Hk | reflexivity].
Qed.

Lemma splitLines_cons (a : ascii) (s : string) :
  JS.charLength a <> 1 ->
  JS.splitLines (String a s) = JS.consHead a (JS.splitLines s).
Proof.
  intros Hk. destruct (terminator_charLength a Hk) as [Hlf Hcr].
  cbn [JS.splitLines]. now rewrite Hlf, Hcr.
Qed.

Lemma consHead_wellFormed (a : ascii) (pieces : list string) :
  JS.charLength a = 1 ->
  Forall (fun piece => JS.wellFormed piece = true) pieces ->
  Forall (fun piece => JS.wellFormed piece = true) (JS.consHead a pieces).
Proof.
  intros Hk Hall. destruct Hall as [|piece pieces Hpiece Hall]; cbn [JS.consHead].
  - constructor; [|constructor]. cbn [JS.chr JS.wellFormed]. now rewrite Hk.
  - constructor; [|exact Hall]. cbn [JS.wellFormed]. now rewrite Hk.
Qed.

(** The pieces of well-formed text are well-formed: a line terminator is
    a character of its own. *)
Lemma wellFormed_splitLines (s : string) :
  JS.wellFormed s = true ->
  Forall (fun piece => JS.wellFormed piece = true) (JS.splitLines s).
Proof.
  induction s as [s IH] using (induction_ltof1 _ String.length).
  unfold ltof in IH.
  destruct s as [|a s1]; [intros _; repeat constructor|]. intros Hs.
  cbn [JS.wellFormed] in Hs.
  destruct (JS.charLength a) as [|[|[|[|[|k]]]]] eqn:Hk; try discriminate.
  - cbn [JS.splitLines].
    destruct (Ascii.eqb a JS.LF).
    { constructor; [reflexivity | apply IH; [cbn; lia | exact Hs]]. }
    destruct (Ascii.eqb a JS.CR).
    { destruct s1 as [|b s2].
      - constructor; [reflexivity | apply IH; [cbn; lia | exact Hs]].
      - destruct (Ascii.eqb b JS.LF) eqn:Hb.
        + constructor; [reflexivity|]. apply IH; [cbn; lia|].
          apply Ascii.eqb_eq in Hb. subst b. exact Hs.
        + constructor; [reflexivity | apply IH; [cbn; lia | exact Hs]]. }
    apply consHead_wellFormed; [exact Hk|]. apply IH; [cbn; lia | exact Hs].
  - destruct s1 as [|b s2]; [discriminate|].
    apply andb_prop in Hs. destruct Hs as [Hb Hs].
    rewrite splitLines_cons by (rewrite Hk; discriminate).
    rewrite splitLines_cons
      by (rewrite (continuation_charLength b Hb); discriminate).
    assert (Hrest := IH s2 ltac:(cbn; lia) Hs).
    destruct (JS.splitLines s2) as [|piece pieces]; cbn [JS.consHead JS.chr].
    + constructor; [|constructor]. unfold JS.chr. cbn [JS.wellFormed]. rewrite Hk.
      now rewrite Hb.
    + inversion Hrest as [|? ? Hpiece Hrest2]; subst.
      constructor; [|exact Hrest2]. unfold JS.chr. cbn [JS.wellFormed]. rewrite Hk.
      now rewrite Hb, Hpiece.
  - destruct s1 as [|b [|c s3]]; try discriminate.
    apply andb_prop in Hs. destruct Hs as [Hb Hs].
    apply andb_prop in Hb. destruct Hb as [Hb Hc].
    rewrite splitLines_cons by (rewrite Hk; discriminate).
    rewrite splitLines_cons
      by (rewrite (continuation_charLength b Hb); discriminate).
    rewrite splitLines_cons
      by (rewrite (continuation_charLength c Hc); discriminate).
    assert (Hrest := IH s3 ltac:(cbn; lia) Hs).
    destruct (JS.splitLines s3) as [|piece pieces]; cbn [JS.consHead JS.chr].
    + constructor; [|constructor]. unfold JS.chr. cbn [JS.wellFormed]. rewrite Hk.
      now rewrite Hb, Hc.
    + inversion Hrest as [|? ? Hpiece Hrest2]; subst.
      constructor; [|exact Hrest2]. unfold JS.chr. cbn [JS.wellFormed]. rewrite Hk.
      now rewrite Hb, Hc, Hpiece.
  - destruct s1 as [|b [|c [|d s4]]]; try discriminate.
    apply andb_prop in Hs. destruct Hs as [Hb Hs].
    apply andb_prop in Hb. destruct Hb as [Hb Hd].
    apply andb_prop in Hb. destruct Hb as [Hb Hc].
    rewrite splitLines_cons by (rewrite Hk; discriminate).
    rewrite splitLines_cons
      by (rewrite (continuation_charLength b Hb); discriminate).
    rewrite splitLines_cons
      by (rewrite (continuation_charLength c Hc); discriminate).
    rewrite splitLines_cons
      by (rewrite (continuation_charLength d Hd); discriminate).
    assert (Hrest := IH s4 ltac:(cbn; lia) Hs).
    destruct (JS.splitLines s4) as [|piece pieces]; cbn [JS.consHead JS.chr].
    + constructor; [|constructor]. unfold JS.chr. cbn [JS.wellFormed]. rewrite Hk.
      now rewrite Hb, Hc, Hd.
    + inversion Hrest as [|? ? Hpiece Hrest2]; subst.
      constructor; [|exact Hrest2]. unfold JS.chr. cbn [JS.wellFormed]. rewrite Hk.
      now rewrite Hb, Hc, Hd, Hpiece.
Qed.

Lemma wellFormed_join (lines : list string) :
  Forall (fun line => JS.wellFormed line = true) lines ->
  JS.wellFormed (JS.join (JS.chr JS.LF) lines) = true.
Proof.
  induction 1 as [|line lines Hline Hlines IH]; [reflexivity|].
  destruct lines as [|line2 rest]; [exact Hline|].
  change (JS.join (JS.chr JS.LF) (line :: line2 :: rest))
    with (line ++ JS.chr JS.LF ++ JS.join (JS.chr JS.LF) (line2 :: rest))%string.
  apply wellFormed_app; [exact Hline|]. apply wellFormed_app; [reflexivity | exact IH].
Qed.

Lemma startsWith_first_character a rest rest' p :
  JS.startsWith (String a rest) (JS.chr p)
  = JS.startsWith (String a rest') (JS.chr p).
Proof.
  unfold JS.startsWith, JS.chr. cbn [prefix].
  destruct (ascii_dec p a); [|reflexivity].
  now destruct rest, rest'.
Qed.

(** Text after a trimmed line of complete characters makes no white
    space with its first bytes. *)
Lemma startsWithWhiteSpace_app (l t : string) :
  JS.wellFormed l = true -> JS.truthy l = true ->
  JS.startsWithWhiteSpace l = false ->
  JS.startsWithWhiteSpace (l ++ t) = false.
Proof.
  intros Hwf Htruthy Hclean.
  destruct l as [|a l1]; [discriminate|].
  cbn [append JS.startsWithWhiteSpace] in *.
  destruct (JS.isWhiteSpace (JS.chr a)) eqn:H1; [discriminate|].
  cbn [orb] in *.
  destruct (l1 ++ t)%string as [|b' r2] eqn:Hr1; [reflexivity|].
  destruct (JS.isWhiteSpace (String a (JS.chr b'))) eqn:H2.
  { exfalso. apply whiteSpace_charLength in H2 as Hk.
    cbn [String.length JS.chr] in Hk. cbn [JS.wellFormed] in Hwf.
    rewrite Hk in Hwf. destruct l1 as [|b l2]; [discriminate|].
    cbn [append] in Hr1. injection Hr1 as <- _.
    rewrite H2 in Hclean. discriminate Hclean. }
  cbn [orb].
  destruct r2 as [|c' r3]; [reflexivity|].
  destruct (JS.isWhiteSpace (String a (String b' (JS.chr c')))) eqn:H3;
    [|reflexivity].
  exfalso. apply whiteSpace_charLength in H3 as Hk.
  cbn [String.length JS.chr] in Hk. cbn [JS.wellFormed] in Hwf.
  rewrite Hk in Hwf. destruct l1 as [|b [|c l3]]; try discriminate.
  cbn [append] in Hr1. injection Hr1 as <- <- _.
  destruct (JS.isWhiteSpace (String a (JS.chr b))); [discriminate Hclean|].
  cbn [orb] in Hclean. congruence.
Qed.

End LineFacts.

(* ================================================================== *)
(** * One line of the session *)
(* ================================================================== *)

Section LineHandlerFacts.
Context `{Wollok}.
Import Repl.

(** The prompt that [multilineHandler] sets. *)
Lemma multilineHandler_unfold line st :
  Multiline.multilineHandler line st
  = (Multiline.handled line st,
     ("... " ++ JS.repeat "  " (Multiline.depth (Multiline.handled line st)))%string,
     if Multiline.finished (Multiline.handled line st)
     then Multiline.history st ++ [line] else []).
Proof. reflexivity. Qed.

(** A line inside of a block, or one that opens a block. *)
Lemma onLine_block s raw :
  exitCode s = None ->
  JS.truthy (JS.trim raw) = true ->
  JS.startsWith (JS.trim raw) ":" = false ->
  negb (Multiline.finished (multilineState s)) || JS.endsWith (JS.trim raw) "{"
  = true ->
  let line := JS.trim raw in
  let st := Multiline.handled line (multilineState s) in
  let dots := ("... " ++ JS.repeat "  " (Multiline.depth st))%string in
  let s2 := log [SetPrompt dots] (setMultiline st s) in
  onLine raw s
  = if Multiline.finished st
    then prompt
           (setMultiline Multiline.empty
              (log [SetPrompt (mainPrompt s)]
                 (evaluate
                    (JS.join (JS.chr JS.LF)
                       (Multiline.history (multilineState s) ++ [line])) s2)))
    else prompt s2.
Proof.
  intros Hexit Htruthy Hcommand Hmode line st dots s2.
  unfold onLine. rewrite Hexit. fold line.
  fold line in Htruthy, Hcommand, Hmode. rewrite Htruthy, Hcommand, Hmode.
  rewrite multilineHandler_unfold. fold st. fold dots. fold s2.
  destruct (Multiline.finished st) eqn:Hfin.
  - assert (Hne : JS.nonEmpty (Multiline.history (multilineState s) ++ [line]) = true)
      by (destruct (Multiline.history (multilineState s)); reflexivity).
    rewrite Hne.
    cbn [exitCode setMultiline log evaluate setInterpreter setHistory].
    change (exitCode s2) with (exitCode s).
    change (mainPrompt s2) with (mainPrompt s).
    rewrite Hexit. reflexivity.
  - cbn [JS.nonEmpty]. change (exitCode s2) with (exitCode s).
    rewrite Hexit. reflexivity.
Qed.

(** A line outside of a block that opens none. *)
Lemma onLine_direct s raw :
  exitCode s = None ->
  JS.truthy (JS.trim raw) = true ->
  JS.startsWith (JS.trim raw) ":" = false ->
  negb (Multiline.finished (multilineState s)) || JS.endsWith (JS.trim raw) "{"
  = false ->
  onLine raw s = prompt (evaluate (JS.trim raw) s).
Proof.
  intros Hexit Htruthy Hcommand Hmode.
  unfold onLine. rewrite Hexit, Htruthy, Hcommand, Hmode.
  cbn [exitCode log evaluate setInterpreter setHistory].
  rewrite Hexit. reflexivity.
Qed.

(** C5.  When a submitted line completes a unit (the line itself outside
    of a block, the joined pending lines when it closes the block), the
    unit is appended to the history, it is run against the current
    interpreter, and the trace grows by events among which there is one
    evaluation, that of the unit, followed by the one call of the
    diagram client's [onReload], given the interpreter the evaluation
    left.  This holds whatever the evaluation returns: [printed] is the
    failure description when the result is errored, the success
    description otherwise. *)
Theorem completed_unit_is_recorded_and_notified (s : Session) (raw unit : string) :
  exitCode s = None ->
  completedUnit raw s = Some unit ->
  let s' := onLine raw s in
  let outcome := snd (interprete (interpreter s) unit) in
  let printed :=
    if errored outcome
    then failureDescription (result outcome) (error outcome)
    else successDescription (result outcome) in
  history s' = history s ++ [unit] /\
  interpreter s' = fst (interprete (interpreter s) unit) /\
  exists before after,
    output s'
    = output s ++ before
      ++ [Evaluate (interpreter s) unit printed;
          DiagramOnReload (fst (interprete (interpreter s) unit))]
      ++ after /\
    evaluations (before ++ after) = [] /\
    notifications (before ++ after) = [].
Proof.
  intros Hexit Hunit s' outcome printed. subst s'.
  unfold completedUnit in Hunit.
  destruct (JS.truthy (JS.trim raw)) eqn:Htruthy; [|discriminate].
  destruct (JS.startsWith (JS.trim raw) ":") eqn:Hcommand; [discriminate|].
  cbn [andb negb] in Hunit.
  destruct (negb (Multiline.finished (multilineState s))
            || JS.endsWith (JS.trim raw) "{") eqn:Hmode.
  - rewrite (onLine_block s raw Hexit Htruthy Hcommand Hmode).
    rewrite feed_unfold in Hunit.
    destruct (Multiline.finished
                (Multiline.handled (JS.trim raw) (multilineState s)));
      [|discriminate].
    cbn [snd] in Hunit. injection Hunit as Hunit. rewrite Hunit.
    cbn. split; [reflexivity|]. split; [reflexivity|].
    eexists [_], [_; _]. split.
    + rewrite <- !app_assoc. reflexivity.
    + split; reflexivity.
  - injection Hunit as Hunit.
    rewrite (onLine_direct s raw Hexit Htruthy Hcommand Hmode), Hunit.
    cbn. split; [reflexivity|]. split; [reflexivity|].
    exists [], [Prompt]. split.
    + rewrite <- !app_assoc. reflexivity.
    + split; reflexivity.
Qed.

End LineHandlerFacts.

(* ================================================================== *)
(** * The end of a turn of the event loop *)
(* ================================================================== *)

Section TurnFacts.
Context `{Wollok}.
Import Repl.

Lemma setEditor_same s : setEditor (editor s) s = s.
Proof. now destruct s. Qed.

(** A turn that ends changes the diagram client and nothing else. *)
Lemma settle_spec s :
  exists enabled clients,
    settle s = setClient enabled (setAwaitedClients clients s).
Proof.
  unfold settle, whileRunning. destruct (exitCode s).
  { exists (diagramEnabled s), (awaitedClients s). now destruct s. }
  assert (Hfold : forall clients s0,
            exists enabled,
              fold_left (fun s client => setClient client s) clients
                (setClient (diagramEnabled s0) (setAwaitedClients [] s0))
              = setClient enabled (setAwaitedClients [] s0)).
  { induction clients as [|client clients IH]; intros s0.
    - now exists (diagramEnabled s0).
    - cbn [fold_left]. destruct (IH (setClient client s0)) as [enabled Heq].
      exists enabled. exact Heq. }
  destruct (Hfold (awaitedClients s) s) as [enabled Heq].
  assert (Heta : setClient (diagramEnabled s) (setAwaitedClients [] s)
                 = setAwaitedClients [] s) by now destruct s.
  rewrite Heta in Heq. now exists enabled, [].
Qed.

Lemma settle_exitCode s : exitCode (settle s) = exitCode s.
Proof. destruct (settle_spec s) as (e & c & ->). reflexivity. Qed.


Lemma settle_options s : options (settle s) = options s.
Proof. destruct (settle_spec s) as (e & c & ->). reflexivity. Qed.

Lemma settle_autoImportPath s : autoImportPath (settle s) = autoImportPath s.
Proof. destruct (settle_spec s) as (e & c & ->). reflexivity. Qed.

Lemma settle_history s : history (settle s) = history s.
Proof. destruct (settle_spec s) as (e & c & ->). reflexivity. Qed.

Lemma settle_multilineState s : multilineState (settle s) = multilineState s.
Proof. destruct (settle_spec s) as (e & c & ->). reflexivity. Qed.


Lemma settle_editor s : editor (settle s) = editor s.
Proof. destruct (settle_spec s) as (e & c & ->). reflexivity. Qed.


Lemma last_cons {A : Type} (x : A) (l : list A) (d : A) :
  last (x :: l) d = last l x.
Proof.
  revert x d. induction l as [|y l IH]; intros x d; [reflexivity|].
  change (last (x :: y :: l) d) with (last (y :: l) d).
  now rewrite !IH.
Qed.

Lemma fold_setClient clients s :
  awaitedClients (fold_left (fun s client => setClient client s) clients s)
  = awaitedClients s /\
  diagramEnabled (fold_left (fun s client => setClient client s) clients s)
  = last clients (diagramEnabled s).
Proof.
  revert s. induction clients as [|client clients IH]; intros s;
    [split; reflexivity|].
  cbn [fold_left]. destruct (IH (setClient client s)) as [Hawaited Henabled].
  split; [exact Hawaited|]. rewrite Henabled, last_cons. reflexivity.
Qed.

(** When a turn ends no client is awaited any more, and the client is
    the one that was returned last. *)
Lemma settle_clients s :
  exitCode s = None ->
  awaitedClients (settle s) = [] /\
  diagramEnabled (settle s) = last (awaitedClients s) (diagramEnabled s).
Proof.
  intros Hexit. unfold settle, whileRunning. rewrite Hexit.
  exact (fold_setClient (awaitedClients s) (setAwaitedClients [] s)).
Qed.

End TurnFacts.

(* ================================================================== *)
(** * Exit codes *)
(* ================================================================== *)

Section ExitFacts.
Context `{Wollok}.
Import Repl.

(** A line whose first token names the quit command ends the process
    with code 0. *)
Lemma quit_exits_0 s raw :
  exitCode s = None ->
  JS.startsWith (JS.trim raw) ":" = true ->
  findCommand (hd EmptyString (JS.split " "%char (JS.trim raw))) = Quit ->
  exitCode (onLine raw s) = Some 0%Z.
Proof.
  intros Hexit Hcommand Hquit. unfold onLine. rewrite Hexit.
  rewrite (startsWith_truthy _ ":" eq_refl Hcommand), Hcommand.
  unfold commandHandlerParse. rewrite Hquit. reflexivity.
Qed.

(** The auto-imported file is not a package of the environment. *)
Lemma invalid_auto_import_exits_11 world path options environment :
  JS.truthy path = true ->
  buildEnvironmentForProject world (project options) = Normal environment ->
  validateEnvironment environment (skipValidations options) = Normal tt ->
  (forall entity,
     getNodeOrUndefinedByFQN environment (getFQN (project options) path)
     = Some entity -> is_Package entity = false) ->
  snd (initializeInterpreter world (Some path) options) = ProcessExit 11.
Proof.
  intros Hpath Hbuild Hvalid Hentity. unfold initializeInterpreter.
  rewrite Hbuild. cbn [lift bind]. rewrite Hvalid, Hpath. cbn [bind].
  destruct (getNodeOrUndefinedByFQN environment (getFQN (project options) path))
    as [entity|] eqn:Hfind.
  - now rewrite (Hentity entity eq_refl).
  - reflexivity.
Qed.

(** The environment cannot be built. *)
Lemma build_failure_exits_12 world path options e :
  buildEnvironmentForProject world (project options) = Throw e ->
  snd (initializeInterpreter world path options) = ProcessExit 12.
Proof.
  intros Hbuild. unfold initializeInterpreter. now rewrite Hbuild.
Qed.

(** The process ends with the code that [initializeInterpreter] exits with
    when a reload completes. *)
Lemma reload_exits_with_code world s rerun rest code :
  exitCode s = None -> reloading s = rerun :: rest ->
  snd (initializeInterpreter world (autoImportPath s) (options s))
  = ProcessExit code ->
  exitCode (completeReload world s) = Some code.
Proof.
  intros Hexit Hreload Hinit. unfold completeReload.
  rewrite Hexit, Hreload.
  cbn [autoImportPath options setReloading].
  rewrite settle_autoImportPath, settle_options.
  destruct (initializeInterpreter world (autoImportPath s) (options s))
    as [events [i|e|c]]; cbn [snd] in Hinit; try discriminate.
  injection Hinit as ->. reflexivity.
Qed.

(** The session does not start when [initializeInterpreter] exits. *)
Lemma replFn_exits_with_code world path options code :
  snd (initializeInterpreter world path options) = ProcessExit code ->
  snd (replFn world path options) = ProcessExit code.
Proof.
  intros Hinit. unfold replFn. cbn [emit bind].
  destruct (initializeInterpreter world path options) as [events [i|e|c]];
    cbn [snd] in Hinit; try discriminate.
  injection Hinit as ->. reflexivity.
Qed.

(** C8.  The process exits with 0 on the quit command, with 11 when the
    auto-imported file is not a package of the environment, with 12 when
    the environment cannot be built, at the start of the session and
    when a reload completes, and with 2 when a selected test of a test
    run fails; the three failure codes are not zero and differ from one
    another. *)
Theorem exit_codes_are_distinct
  (s : Session) (quitLine : string)
  (world : World) (path : string) (options : Options) (environment : Node)
  (world' : World) (reloaded : Session) (rerun : bool) (rest : list bool)
  (e : JsError)
  (testWorld : World) (filter : option string) (testOptions : TestCommand.Options)
  (testEnvironment : Node) (written : list TestCommand.Log)
  (targets : list Node) (failed : Node) (failure : JsError) :
  exitCode s = None ->
  JS.startsWith (JS.trim quitLine) ":" = true ->
  findCommand (hd EmptyString (JS.split " "%char (JS.trim quitLine))) = Quit ->
  JS.truthy path = true ->
  buildEnvironmentForProject world (project options) = Normal environment ->
  validateEnvironment environment (skipValidations options) = Normal tt ->
  (forall entity,
     getNodeOrUndefinedByFQN environment (getFQN (project options) path)
     = Some entity -> is_Package entity = false) ->
  exitCode reloaded = None -> reloading reloaded = rerun :: rest ->
  buildEnvironmentForProject world' (project (Repl.options reloaded)) = Throw e ->
  TestCommand.validateParameters filter testOptions = Normal tt ->
  buildEnvironmentForProject testWorld (TestCommand.project testOptions)
  = Normal testEnvironment ->
  validateEnvironment testEnvironment (TestCommand.skipValidations testOptions)
  = Normal tt ->
  TestCommand.getTarget testEnvironment filter testOptions
  = (written, Normal targets) ->
  In failed (forEachNode testEnvironment) -> is_Test failed = true ->
  TestCommand.contains targets failed = true ->
  execTest testEnvironment failed = Some failure ->
  exitCode (onLine quitLine s) = Some 0%Z /\
  snd (replFn world (Some path) options) = ProcessExit 11 /\
  snd (replFn world' (autoImportPath reloaded) (Repl.options reloaded))
  = ProcessExit 12 /\
  exitCode (completeReload world' reloaded) = Some 12%Z /\
  snd (TestCommand.run testWorld filter testOptions) = ProcessExit 2 /\
  NoDup [0%Z; 11%Z; 12%Z; 2%Z].
Proof.
  intros Hexit Hcommand Hquit Hpath Hbuild Hvalid Hentity
    Hexit' Hreload Hfail Hparams Hbuild' Hvalid' Htarget Hin Htest Hsel Hexec.
  pose proof (build_failure_exits_12 world' (autoImportPath reloaded)
                (Repl.options reloaded) e Hfail) as H12.
  split; [now apply quit_exits_0|].
  split; [now apply replFn_exits_with_code,
            (invalid_auto_import_exits_11 _ _ _ environment)|].
  split; [now apply replFn_exits_with_code|].
  split; [now apply (reload_exits_with_code _ _ rerun rest)|].
  split; [now apply (run_exits_2_on_failure _ _ _ testEnvironment written
                       targets failed failure)|].
  repeat constructor; simpl; intuition discriminate.
Qed.

End ExitFacts.

(* ================================================================== *)
(** * The history and its replay *)
(* ================================================================== *)

Section ReplayFacts.
Context `{Wollok}.
Import Repl.

Lemma evaluations_app (a b : list Event) :
  evaluations (a ++ b) = evaluations a ++ evaluations b.
Proof. apply flat_map_app. Qed.

Lemma notifications_app (a b : list Event) :
  notifications (a ++ b) = notifications a ++ notifications b.
Proof. apply flat_map_app. Qed.

Lemma interpreterAfter_app i a b :
  interpreterAfter i (a ++ b) = interpreterAfter (interpreterAfter i a) b.
Proof. apply fold_left_app. Qed.

Lemma evaluatedFrom_app i a b :
  evaluatedFrom i (a ++ b)
  = evaluatedFrom i a ++ evaluatedFrom (interpreterAfter i a) b.
Proof.
  revert i. induction a as [|unit a IH]; intros i; [reflexivity|].
  simpl. now rewrite IH.
Qed.

Lemma notifiedFrom_app i a b :
  notifiedFrom i (a ++ b)
  = notifiedFrom i a ++ notifiedFrom (interpreterAfter i a) b.
Proof.
  revert i. induction a as [|unit a IH]; intros i; [reflexivity|].
  simpl. now rewrite IH.
Qed.


Lemma advanced_trans s a s1 b s2 :
  advanced s a s1 -> advanced s1 b s2 -> advanced s (a ++ b) s2.
Proof.
  intros (Hp & Ho & Hn & Hd & Hr & He & Hh & Hi & new & Hout & Hev & Hno)
         (Hp' & Ho' & Hn' & Hd' & Hr' & He' & Hh' & Hi' & new' & Hout' & Hev' & Hno').
  unfold advanced.
  rewrite Hp', Ho', Hn', Hd', Hr', He', Hh', Hi', Hh, Hi.
  rewrite interpreterAfter_app, app_assoc.
  repeat (apply conj; [assumption || reflexivity|]).
  exists (new ++ new'). rewrite Hout', Hout, app_assoc.
  split; [reflexivity|].
  rewrite evaluations_app, notifications_app, evaluatedFrom_app,
    notifiedFrom_app, Hev, Hno, Hev', Hno', Hi.
  split; reflexivity.
Qed.

(** Events that evaluate nothing leave the session where it was. *)
Lemma advanced_log s events :
  evaluations events = [] -> notifications events = [] ->
  advanced s [] (log events s).
Proof.
  intros Hev Hno. unfold advanced. cbn. rewrite app_nil_r.
  repeat (apply conj; [reflexivity|]). exists events. now rewrite Hev, Hno.
Qed.

(** The prompt evaluates nothing. *)
Lemma advanced_prompt s : advanced s [] (prompt s).
Proof.
  unfold advanced. cbn. rewrite app_nil_r.
  repeat (apply conj; [reflexivity|]). exists [Prompt].
  repeat split; reflexivity.
Qed.

(** What a clean line does to the session, in terms of the accumulator. *)
Lemma onLine_clean_in_block s line :
  exitCode s = None -> History.cleanLine line ->
  Multiline.finished (multilineState s) = false \/ Blocks.opens line = true ->
  multilineState (onLine line s) = fst (Multiline.feed line (multilineState s)) /\
  advanced s
    match snd (Multiline.feed line (multilineState s)) with
    | Some unit => [unit]
    | None => []
    end (onLine line s).
Proof.
  intros Hexit (Htrim & Htruthy & Hcommand & _) Hmode.
  assert (Hmode' : negb (Multiline.finished (multilineState s))
                   || JS.endsWith (JS.trim line) "{" = true).
  { rewrite Htrim. destruct Hmode as [-> | Hopen]; [reflexivity|].
    unfold Blocks.opens in Hopen. rewrite Hopen. apply orb_true_r. }
  rewrite <- Htrim in Htruthy, Hcommand.
  rewrite (onLine_block s line Hexit Htruthy Hcommand Hmode').
  rewrite Htrim, feed_unfold.
  destruct (Multiline.finished (Multiline.handled line (multilineState s)));
    (split; [reflexivity|]); unfold advanced; cbn;
    repeat (apply conj; [reflexivity|]); rewrite ?app_nil_r;
    repeat (apply conj; [reflexivity|]).
  - eexists. rewrite <- !app_assoc. split; [reflexivity|]. split; reflexivity.
  - eexists. rewrite <- !app_assoc. split; [reflexivity|]. split; reflexivity.
Qed.

Lemma onLine_clean_direct s line :
  exitCode s = None -> History.cleanLine line ->
  Multiline.finished (multilineState s) = true -> Blocks.opens line = false ->
  multilineState (onLine line s) = multilineState s /\
  advanced s [line] (onLine line s).
Proof.
  intros Hexit (Htrim & Htruthy & Hcommand & _) Hfin Hopen.
  assert (Hmode : negb (Multiline.finished (multilineState s))
                  || JS.endsWith (JS.trim line) "{" = false).
  { rewrite Htrim, Hfin. exact Hopen. }
  rewrite <- Htrim in Htruthy, Hcommand.
  rewrite (onLine_direct s line Hexit Htruthy Hcommand Hmode), Htrim.
  split; [reflexivity|]. unfold advanced. cbn.
  repeat (apply conj; [reflexivity|]).
  eexists. rewrite <- !app_assoc. split; [reflexivity|]. split; reflexivity.
Qed.

End ReplayFacts.

Section RerunFacts.
Context `{Wollok}.
Import Repl.

Lemma cleanLine_noTerminator lines :
  Forall History.cleanLine lines ->
  Forall (fun line => noTerminator line = true) lines.
Proof. apply Forall_impl. now intros line (_ & _ & _ & Hline). Qed.

Lemma advanced_refl s : advanced s [] s.
Proof.
  unfold advanced. cbn. rewrite app_nil_r.
  repeat (apply conj; [reflexivity|]). exists []. now rewrite app_nil_r.
Qed.

Lemma feedAll_one line st :
  Multiline.feedAll [line] st
  = (fst (Multiline.feed line st), [snd (Multiline.feed line st)]).
Proof. now rewrite feedAll_cons. Qed.

Lemma finished_after_none line st :
  snd (Multiline.feed line st) = None ->
  Multiline.finished (fst (Multiline.feed line st)) = false.
Proof.
  intros Hnone. apply feed_none_iff in Hnone.
  destruct (Multiline.finished (fst (Multiline.feed line st))) eqn:Hfin;
    [|reflexivity].
  apply finished_depth in Hfin. lia.
Qed.

(** Lines of a block that do not complete it only fill the accumulator. *)
Lemma onLines_pending lines s :
  exitCode s = None -> Forall History.cleanLine lines ->
  snd (Multiline.feedAll lines (multilineState s)) = Multiline.nones lines ->
  (lines <> [] ->
   Multiline.finished (multilineState s) = false \/
   Blocks.opens (hd EmptyString lines) = true) ->
  let s' := fold_left (fun s line => onLine line s) lines s in
  advanced s [] s' /\
  multilineState s' = fst (Multiline.feedAll lines (multilineState s)) /\
  (lines <> [] -> Multiline.finished (multilineState s') = false).
Proof.
  intros Hexit Hclean. revert s Hexit.
  induction Hclean as [|line lines Hline Hclean IH]; intros s Hexit Hnones Hmode.
  - cbn. split; [apply advanced_refl | split; [reflexivity | congruence]].
  - rewrite feedAll_cons in Hnones. cbn [snd Multiline.nones map] in Hnones.
    injection Hnones as Hnone Hnones.
    assert (Hmode' := Hmode ltac:(discriminate)). cbn [hd] in Hmode'.
    destruct (onLine_clean_in_block s line Hexit Hline Hmode') as [Hstate Hadv].
    rewrite Hnone in Hadv.
    pose proof (finished_after_none _ _ Hnone) as Hfin.
    assert (Hexit' : exitCode (onLine line s) = None).
    { destruct Hadv as (_ & _ & _ & _ & _ & He & _). now rewrite He. }
    rewrite <- Hstate in Hnones, Hfin.
    destruct (IH (onLine line s) Hexit' Hnones (fun _ => or_introl Hfin))
      as (Hadv' & Hstate' & Hfin').
    cbn [fold_left]. split; [|split].
    + change (@nil string) with (@nil string ++ []).
      eapply advanced_trans; eassumption.
    + rewrite Hstate', feedAll_cons, Hstate. reflexivity.
    + intros _. destruct lines as [|line2 rest]; [exact Hfin|].
      apply Hfin'. discriminate.
Qed.

(** A recorded unit whose lines are submitted one after the other is
    evaluated once. *)
Lemma lines_recorded s lines :
  exitCode s = None -> multilineState s = Multiline.empty ->
  Forall History.cleanLine lines ->
  ((exists line, lines = [line] /\ Blocks.opens line = false) \/
   (Blocks.opens (hd EmptyString lines) = true /\
    Multiline.feedAll lines Multiline.empty
    = (Multiline.empty,
       Multiline.nones (removelast lines)
       ++ [Some (JS.join (JS.chr JS.LF) lines)]))) ->
  let s' := fold_left (fun s line => onLine line s) lines s in
  advanced s [JS.join (JS.chr JS.LF) lines] s' /\
  multilineState s' = Multiline.empty.
Proof.
  intros Hexit Hidle Hclean Hshape.
  assert (Hne : lines <> []).
  { destruct Hshape as [(line & -> & _) | (Hopen & _)]; [discriminate|].
    intros ->. discriminate Hopen. }
  destruct Hshape as [(line & -> & Hopen) | (Hopen & Hfeed)].
  - cbn [fold_left JS.join String.concat].
    inversion Hclean as [|? ? Hline _]; subst.
    destruct (onLine_clean_direct s line Hexit Hline) as [Hstate Hadv];
      [now rewrite Hidle | exact Hopen|].
    split; [exact Hadv | now rewrite Hstate].
  - destruct (exists_last Hne) as (pre & last & ->).
    rewrite removelast_last, feedAll_app, feedAll_one in Hfeed.
    cbn [fst snd] in Hfeed. injection Hfeed as Hstate Houts.
    apply app_inj_tail in Houts. destruct Houts as [Hnones Hsome].
    apply Forall_app in Hclean. destruct Hclean as [Hpre Hlast].
    inversion Hlast as [|? ? Hlast' _]; subst.
    rewrite <- Hidle in Hnones, Hstate, Hsome.
    assert (Hmode : pre <> [] ->
                    Multiline.finished (multilineState s) = false \/
                    Blocks.opens (hd EmptyString pre) = true).
    { intros Hpre'. right. destruct pre; [congruence | exact Hopen]. }
    destruct (onLines_pending pre s Hexit Hpre Hnones Hmode)
      as (Hadv & Hstate' & Hfin).
    cbn zeta. rewrite fold_left_app. cbn [fold_left].
    set (s1 := fold_left (fun s line => onLine line s) pre s) in *.
    assert (Hexit1 : exitCode s1 = None).
    { destruct Hadv as (_ & _ & _ & _ & _ & He & _). now rewrite He. }
    assert (Hmode1 : Multiline.finished (multilineState s1) = false \/
                     Blocks.opens last = true).
    { destruct pre as [|line pre]; [right; exact Hopen|].
      left. apply Hfin. discriminate. }
    destruct (onLine_clean_in_block s1 last Hexit1 Hlast' Hmode1)
      as [Hstate1 Hadv1].
    rewrite Hstate' in Hstate1, Hadv1. rewrite Hsome in Hadv1.
    split.
    + change [?u] with ([] ++ [u]). eapply advanced_trans; eassumption.
    + rewrite Hstate1, Hstate. exact Hidle.
Qed.

(** A command moves the cursor of the line being edited at most. *)
Lemma onReloadClient_editor activate i s :
  editor (onReloadClient activate i s) = editor s \/
  editor (onReloadClient activate i s) = cursorHome (editor s).
Proof.
  unfold onReloadClient, initializeClient.
  destruct (activate && negb (diagramEnabled s)).
  - left. cbn [options setSkipDiagram withSkipDiagram skipDiagram].
    destruct (negb activate); reflexivity.
  - right. reflexivity.
Qed.

(** The listener of a line moves the cursor of the line being edited at
    most. *)
Lemma onLine_editor raw s :
  editor (onLine raw s) = editor s \/
  editor (onLine raw s) = cursorHome (editor s).
Proof.
  destruct (exitCode s) as [code|] eqn:Hexit.
  { left. unfold onLine. now rewrite Hexit. }
  destruct (JS.truthy (JS.trim raw)) eqn:Htruthy.
  2:{ right. unfold onLine. rewrite Hexit, Htruthy, Hexit. reflexivity. }
  destruct (JS.startsWith (JS.trim raw) ":") eqn:Hcommand.
  { unfold onLine. rewrite Hexit, Htruthy, Hcommand.
    assert (Hc : editor (commandHandlerParse (JS.split " "%char (JS.trim raw)) s)
                 = editor s \/
                 editor (commandHandlerParse (JS.split " "%char (JS.trim raw)) s)
                 = cursorHome (editor s)).
    { unfold commandHandlerParse.
      destruct (findCommand _); try (left; reflexivity).
      apply onReloadClient_editor. }
    destruct (exitCode (commandHandlerParse _ s)); [exact Hc|].
    right. cbn [editor prompt log setEditor].
    destruct Hc as [-> | ->]; reflexivity. }
  right.
  destruct (negb (Multiline.finished (multilineState s))
            || JS.endsWith (JS.trim raw) "{") eqn:Hmode.
  - rewrite (onLine_block s raw Hexit Htruthy Hcommand Hmode).
    destruct (Multiline.finished
                (Multiline.handled (JS.trim raw) (multilineState s)));
      reflexivity.
  - rewrite (onLine_direct s raw Hexit Htruthy Hcommand Hmode). reflexivity.
Qed.

Lemma onLine_editor_empty raw s :
  editor s = emptyLine -> editor (onLine raw s) = emptyLine.
Proof.
  intros Hempty. destruct (onLine_editor raw s) as [-> | ->];
    rewrite Hempty; reflexivity.
Qed.


Lemma onLine_idle raw s : Tracking.idleLine s -> Tracking.idleLine (onLine raw s).
Proof.
  unfold Tracking.idleLine. intros Hs Hexit'.
  destruct (exitCode s) as [code|] eqn:Hexit.
  - unfold onLine in Hexit'. rewrite Hexit in Hexit'. congruence.
  - now apply onLine_editor_empty, Hs.
Qed.

Lemma onLines_idle lines s :
  Tracking.idleLine s ->
  Tracking.idleLine (fold_left (fun s line => onLine line s) lines s).
Proof.
  revert s. induction lines as [|line lines IH]; intros s Hs; [exact Hs|].
  cbn [fold_left]. now apply IH, onLine_idle.
Qed.

(** What [repl._line()] leaves on the line being edited. *)
Lemma submit_idle s : Tracking.idleLine (submit s).
Proof.
  unfold submit, whileRunning. destruct (exitCode s) as [code|] eqn:Hexit.
  - unfold Tracking.idleLine. congruence.
  - apply onLine_idle. now intros _.
Qed.

(** A line written to a terminal whose line is empty is submitted as it
    is. *)
Lemma submit_insertString line s :
  Tracking.idleLine s -> submit (insertString line s) = onLine line s.
Proof.
  intros Hidle. unfold submit, insertString, whileRunning.
  destruct (exitCode s) as [code|] eqn:Hexit.
  { rewrite Hexit. unfold onLine. now rewrite Hexit. }
  pose proof (Hidle Hexit) as Hempty.
  cbn [exitCode setEditor]. rewrite Hexit. cbn [editor setEditor].
  change (setEditor emptyLine (setEditor (inserted line (editor s)) s))
    with (setEditor emptyLine s).
  assert (Hline : editedLine (inserted line (editor s)) = line).
  { rewrite Hempty. unfold editedLine, inserted, emptyLine.
    cbn [beforeCursor afterCursor append]. apply append_nil_r. }
  assert (Hs : setEditor emptyLine s = s)
    by (rewrite <- Hempty; apply setEditor_same).
  now rewrite Hline, Hs.
Qed.

Lemma insertString_empty s :
  Tracking.idleLine s -> insertString EmptyString s = s.
Proof.
  intros Hidle. unfold insertString, whileRunning.
  destruct (exitCode s) eqn:Hexit; [reflexivity|].
  assert (Hsame : inserted EmptyString (editor s) = editor s)
    by (rewrite (Hidle Hexit); reflexivity).
  rewrite Hsame. apply setEditor_same.
Qed.

(** Pieces written after a line, the terminal holding no other text:
    the line and the pieces but the last, which is empty, are submitted
    one after the other. *)
Lemma inserted_lines lines line s :
  Tracking.idleLine s ->
  fold_left (fun s piece => insertString piece (submit s))
    (lines ++ [EmptyString]) (insertString line s)
  = fold_left (fun s line => onLine line s) (line :: lines) s.
Proof.
  revert line s. induction lines as [|line2 lines IH];
    intros line s Hidle; cbn [app fold_left].
  - rewrite (submit_insertString line s Hidle).
    apply insertString_empty, onLine_idle, Hidle.
  - rewrite (submit_insertString line s Hidle).
    apply IH, onLine_idle, Hidle.
Qed.

(** The same, whatever the terminal holds: the first line is submitted
    with the text that the terminal holds, the others as they are. *)
Lemma written_lines lines line s :
  fold_left (fun s piece => insertString piece (submit s))
    (lines ++ [EmptyString]) (insertString line s)
  = fold_left (fun s line => onLine line s) lines
      (submit (insertString line s)).
Proof.
  destruct lines as [|line2 lines]; cbn [app fold_left].
  - apply insertString_empty, submit_idle.
  - apply (inserted_lines lines line2), submit_idle.
Qed.




(** A line ends with one character: it cannot open and close. *)
Lemma opens_not_closes line :
  Blocks.opens line = true -> Blocks.closes line = false.
Proof.
  unfold Blocks.opens, Blocks.closes.
  induction line as [|a line IH]; [discriminate|].
  destruct line as [|b line].
  - cbn [JS.endsWith]. rewrite !orb_false_r.
    destruct (String.eqb_spec (String a EmptyString) "{") as [Heq | Hne];
      [|discriminate].
    intros _. injection Heq as ->. reflexivity.
  - change (JS.endsWith (String a (String b line)) "{")
      with ((String a (String b line) =? "{")%string
            || JS.endsWith (String b line) "{").
    change (JS.endsWith (String a (String b line)) "}")
      with ((String a (String b line) =? "}")%string
            || JS.endsWith (String b line) "}").
    assert (H1 : (String a (String b line) =? "{")%string = false)
      by (apply String.eqb_neq; discriminate).
    assert (H2 : (String a (String b line) =? "}")%string = false)
      by (apply String.eqb_neq; discriminate).
    rewrite H1, H2. exact IH.
Qed.

(** The same block seen from the terminal: clean lines that are balanced
    at the last line and not before, submitted to an idle session, are
    evaluated as one unit, the lines joined by line feeds, and leave the
    accumulator empty. *)
Lemma balanced_lines_through_listener s lines :
  exitCode s = None -> multilineState s = Multiline.empty ->
  Forall History.cleanLine lines -> Blocks.balancedAtEnd lines ->
  let s' := fold_left (fun s line => onLine line s) lines s in
  advanced s [JS.join (JS.chr JS.LF) lines] s' /\
  multilineState s' = Multiline.empty.
Proof.
  intros Hexit Hidle Hclean (Hne & Hzero & Hpos) s'.
  apply (lines_recorded s lines Hexit Hidle Hclean).
  destruct lines as [|line [|line2 rest]]; [congruence| |].
  - left. exists line. split; [reflexivity|].
    cbn in Hzero. unfold Blocks.delta in Hzero.
    destruct (Blocks.opens line) eqn:Hopen; [|reflexivity].
    rewrite (opens_not_closes line Hopen) in Hzero. lia.
  - right. split.
    + specialize (Hpos 1). cbn in Hpos. unfold Blocks.delta in Hpos.
      cbn [hd]. destruct (Blocks.opens line); [reflexivity|].
      destruct (Blocks.closes line); lia.
    + now apply (feedAll_until_balanced _ Multiline.empty).
Qed.
End RerunFacts.

(* ================================================================== *)
(** * What a session records can be replayed *)
(* ================================================================== *)

Section InvariantFacts.
Context `{Wollok}.
Import Repl.

Lemma invariant_same s s' :
  history s' = history s -> multilineState s' = multilineState s ->
  History.invariant s -> History.invariant s'.
Proof. unfold History.invariant. now intros -> ->. Qed.

Lemma pendingOk_empty : History.pendingOk Multiline.empty.
Proof.
  split; [constructor|]. split; [reflexivity|]. intros Hne. now elim Hne.
Qed.

(** An accumulator with no bracket open has no pending line. *)
Lemma pendingOk_idle m :
  History.pendingOk m -> Multiline.finished m = true -> m = Multiline.empty.
Proof.
  intros (_ & Hfeed & _) Hfin.
  destruct (Multiline.history m) as [|line lines] eqn:Hlines.
  - cbn in Hfeed. now injection Hfeed.
  - assert (Hne : line :: lines <> []) by discriminate.
    destruct (exists_last Hne) as (pre & last & Heq). rewrite Heq in Hfeed.
    rewrite feedAll_app, feedAll_one in Hfeed. cbn [fst snd] in Hfeed.
    unfold Multiline.nones in Hfeed. rewrite map_app in Hfeed.
    injection Hfeed as Hstate Houts.
    apply app_inj_tail in Houts. destruct Houts as [_ Hnone].
    apply finished_after_none in Hnone. congruence.
Qed.

(** One more line keeps the pending lines in order, or completes a
    recorded unit. *)
Lemma feed_pendingOk m line :
  History.pendingOk m -> History.cleanLine line ->
  Multiline.finished m = false \/ Blocks.opens line = true ->
  match snd (Multiline.feed line m) with
  | None => History.pendingOk (fst (Multiline.feed line m))
  | Some unit =>
      fst (Multiline.feed line m) = Multiline.empty /\ History.recorded unit
  end.
Proof.
  intros Hpending Hline Hmode.
  pose proof Hpending as (Hclean & Hfeed & Hhead).
  assert (Hclean' : Forall History.cleanLine (Multiline.history m ++ [line]))
    by (apply Forall_app; split; [exact Hclean | now constructor]).
  assert (Hhead' : Blocks.opens (hd EmptyString (Multiline.history m ++ [line]))
                   = true).
  { destruct (Multiline.history m) as [|first rest] eqn:Hlines.
    - cbn. destruct Hmode as [Hfin | Hopen]; [|exact Hopen].
      cbn in Hfeed. injection Hfeed as Hm. rewrite <- Hm in Hfin. discriminate.
    - apply Hhead. discriminate. }
  assert (Hall : Multiline.feedAll (Multiline.history m ++ [line]) Multiline.empty
                 = (fst (Multiline.feed line m),
                    Multiline.nones (Multiline.history m)
                    ++ [snd (Multiline.feed line m)])).
  { rewrite feedAll_app, feedAll_one, Hfeed. reflexivity. }
  rewrite feed_unfold in Hall |- *.
  destruct (Multiline.finished (Multiline.handled line m)); cbn [fst snd] in *.
  - split; [reflexivity|].
    exists (Multiline.history m ++ [line]).
    split; [reflexivity|]. split; [exact Hclean'|]. right.
    split; [exact Hhead'|]. now rewrite removelast_last.
  - split; [exact Hclean'|]. rewrite handled_history. split.
    + rewrite Hall. unfold Multiline.nones. now rewrite map_app.
    + intros _. exact Hhead'.
Qed.

Lemma onReloadClient_keeps activate i s :
  history (onReloadClient activate i s) = history s /\
  multilineState (onReloadClient activate i s) = multilineState s /\
  interpreter (onReloadClient activate i s) = interpreter s /\
  exitCode (onReloadClient activate i s) = exitCode s /\
  reloading (onReloadClient activate i s) = reloading s /\
  exists rest,
    output (onReloadClient activate i s) = output s ++ rest /\
    evaluations rest = [].
Proof.
  unfold onReloadClient, initializeClient.
  destruct (activate && negb (diagramEnabled s)).
  - cbn [options setSkipDiagram withSkipDiagram skipDiagram].
    destruct (negb activate); cbn; repeat (apply conj; [reflexivity|]).
    + exists []. now rewrite app_nil_r.
    + eexists. split; reflexivity.
  - cbn. repeat (apply conj; [reflexivity|]). eexists.
    rewrite <- app_assoc. split; reflexivity.
Qed.

Lemma commandHandlerParse_keeps args s :
  history (commandHandlerParse args s) = history s /\
  multilineState (commandHandlerParse args s) = multilineState s.
Proof.
  unfold commandHandlerParse.
  destruct (findCommand (hd EmptyString args)); try (split; reflexivity).
  destruct (onReloadClient_keeps true None s) as (Hh & Hm & _). now split.
Qed.

Lemma onLine_invariant s raw :
  noTerminator raw = true -> History.invariant s ->
  History.invariant (onLine raw s).
Proof.
  intros Hraw Hinv.
  destruct (exitCode s) as [code|] eqn:Hexit.
  { unfold onLine. now rewrite Hexit. }
  destruct (JS.truthy (JS.trim raw)) eqn:Htruthy.
  2:{ unfold onLine. rewrite Hexit, Htruthy, Hexit. exact Hinv. }
  destruct (JS.startsWith (JS.trim raw) ":") eqn:Hcommand.
  { unfold onLine. rewrite Hexit, Htruthy, Hcommand.
    destruct (commandHandlerParse_keeps (JS.split " "%char (JS.trim raw)) s)
      as [Hh Hm].
    destruct (exitCode (commandHandlerParse _ s));
      now apply (invariant_same s). }
  assert (Hline : History.cleanLine (JS.trim raw)).
  { split; [apply trim_idempotent|]. split; [exact Htruthy|].
    split; [exact Hcommand | now apply trim_noTerminator]. }
  assert (Heq : onLine raw s = onLine (JS.trim raw) s).
  { unfold onLine. now rewrite trim_idempotent. }
  rewrite Heq. destruct Hinv as [Hrec Hpending].
  destruct (Multiline.finished (multilineState s)) eqn:Hfin;
    [destruct (Blocks.opens (JS.trim raw)) eqn:Hopen|].
  - destruct (onLine_clean_in_block s _ Hexit Hline (or_intror Hopen))
      as [Hstate Hadv].
    pose proof (feed_pendingOk _ _ Hpending Hline (or_intror Hopen)) as Hfeed.
    destruct Hadv as (_ & _ & _ & _ & _ & _ & Hh & _).
    unfold History.invariant. rewrite Hh, Hstate.
    destruct (snd (Multiline.feed (JS.trim raw) (multilineState s))).
    + destruct Hfeed as [-> Hunit]. split.
      * apply Forall_app. split; [exact Hrec | now constructor].
      * apply pendingOk_empty.
    + rewrite app_nil_r. now split.
  - destruct (onLine_clean_direct s _ Hexit Hline Hfin Hopen) as [Hstate Hadv].
    destruct Hadv as (_ & _ & _ & _ & _ & _ & Hh & _).
    unfold History.invariant. rewrite Hh, Hstate. split; [|exact Hpending].
    apply Forall_app. split; [exact Hrec|]. constructor; [|constructor].
    exists [JS.trim raw]. split; [reflexivity|].
    split; [now constructor|]. left. now exists (JS.trim raw).
  - destruct (onLine_clean_in_block s _ Hexit Hline (or_introl Hfin))
      as [Hstate Hadv].
    pose proof (feed_pendingOk _ _ Hpending Hline (or_introl Hfin)) as Hfeed.
    destruct Hadv as (_ & _ & _ & _ & _ & _ & Hh & _).
    unfold History.invariant. rewrite Hh, Hstate.
    destruct (snd (Multiline.feed (JS.trim raw) (multilineState s))).
    + destruct Hfeed as [-> Hunit]. split.
      * apply Forall_app. split; [exact Hrec | now constructor].
      * apply pendingOk_empty.
    + rewrite app_nil_r. now split.
Qed.

Lemma noTerminator_app (a b : string) :
  noTerminator (a ++ b) = noTerminator a && noTerminator b.
Proof.
  induction a as [|x a IH]; [reflexivity|].
  cbn [append noTerminator]. rewrite IH. now rewrite andb_assoc.
Qed.

Lemma typeable_empty : typeable emptyLine.
Proof. repeat split. Qed.

Lemma typeable_cursorHome e : typeable e -> typeable (cursorHome e).
Proof.
  intros (Hbefore & Hafter & Hline). unfold typeable, cursorHome.
  cbn [beforeCursor afterCursor]. split; [reflexivity|].
  split; [now apply wellFormed_app | exact Hline].
Qed.

Lemma typeable_inserted c e :
  JS.wellFormed c = true -> noTerminator c = true ->
  typeable e -> typeable (inserted c e).
Proof.
  intros Hc Hc' (Hbefore & Hafter & Hline). unfold typeable, inserted, editedLine in *.
  cbn [beforeCursor afterCursor].
  rewrite noTerminator_app in Hline. apply andb_prop in Hline.
  destruct Hline as [Hb Ha].
  split; [now apply wellFormed_app|]. split; [exact Hafter|].
  now rewrite !noTerminator_app, Hb, Hc', Ha.
Qed.

Lemma typeable_line e :
  typeable e ->
  JS.wellFormed (editedLine e) = true /\ noTerminator (editedLine e) = true.
Proof.
  intros (Hbefore & Hafter & Hline).
  split; [now apply wellFormed_app | exact Hline].
Qed.

(** The text is kept when the history and the pending lines are, the
    cursor moving at most. *)
Lemma text_same s s' :
  history s' = history s -> multilineState s' = multilineState s ->
  editor s' = editor s \/ editor s' = cursorHome (editor s) ->
  History.text s -> History.text s'.
Proof.
  intros Hh Hm He (Hhistory & Hpending & Hedit). unfold History.text.
  rewrite Hh, Hm. split; [exact Hhistory|]. split; [exact Hpending|].
  destruct He as [-> | ->]; [exact Hedit | now apply typeable_cursorHome].
Qed.

Lemma onLine_text raw s :
  JS.wellFormed raw = true -> History.text s -> History.text (onLine raw s).
Proof.
  intros Hraw Htext.
  assert (Hedit : typeable (editor (onLine raw s))).
  { destruct Htext as (_ & _ & Hedit).
    destruct (onLine_editor raw s) as [-> | ->];
      [exact Hedit | now apply typeable_cursorHome]. }
  destruct (exitCode s) as [code|] eqn:Hexit.
  { unfold onLine. now rewrite Hexit. }
  destruct (JS.truthy (JS.trim raw)) eqn:Htruthy.
  2:{ apply (text_same s); try exact Htext;
        unfold onLine; rewrite Hexit, Htruthy, Hexit;
        [reflexivity | reflexivity | right; reflexivity]. }
  destruct (JS.startsWith (JS.trim raw) ":") eqn:Hcommand.
  { destruct Htext as (Hhistory & Hpending & _). unfold History.text.
    split; [|split; [|exact Hedit]]; unfold onLine;
      rewrite Hexit, Htruthy, Hcommand;
      destruct (commandHandlerParse_keeps (JS.split " "%char (JS.trim raw)) s)
        as [Hh Hm];
      destruct (exitCode (commandHandlerParse _ s));
      cbn [history multilineState prompt log setEditor];
      rewrite ?Hh, ?Hm; assumption. }
  pose proof (wellFormed_trim raw Hraw) as Hline.
  destruct Htext as (Hhistory & Hpending & _). unfold History.text.
  split; [|split; [|exact Hedit]];
    destruct (negb (Multiline.finished (multilineState s))
              || JS.endsWith (JS.trim raw) "{") eqn:Hmode.
  - rewrite (onLine_block s raw Hexit Htruthy Hcommand Hmode).
    destruct (Multiline.finished
                (Multiline.handled (JS.trim raw) (multilineState s)));
      cbn; [|exact Hhistory].
    apply Forall_app. split; [exact Hhistory|]. constructor; [|constructor].
    apply wellFormed_join, Forall_app. split; [exact Hpending|].
    now constructor.
  - rewrite (onLine_direct s raw Hexit Htruthy Hcommand Hmode). cbn.
    apply Forall_app. split; [exact Hhistory | now constructor].
  - rewrite (onLine_block s raw Hexit Htruthy Hcommand Hmode).
    destruct (Multiline.finished
                (Multiline.handled (JS.trim raw) (multilineState s)));
      cbn; [constructor|].
    apply Forall_app. split; [exact Hpending | now constructor].
  - rewrite (onLine_direct s raw Hexit Htruthy Hcommand Hmode). cbn.
    exact Hpending.
Qed.

Lemma onLine_sound raw s :
  JS.wellFormed raw = true -> noTerminator raw = true ->
  History.sound s -> History.sound (onLine raw s).
Proof.
  intros Hwf Hraw [Hinv Htext].
  split; [now apply onLine_invariant | now apply onLine_text].
Qed.

Lemma sound_setEditor e s :
  typeable e -> History.sound s -> History.sound (setEditor e s).
Proof.
  intros He [Hinv (Hhistory & Hpending & _)].
  split; [exact Hinv|]. repeat split; try assumption; apply He.
Qed.

Lemma submit_sound s : History.sound s -> History.sound (submit s).
Proof.
  intros Hs. unfold submit, whileRunning.
  destruct (exitCode s); [exact Hs|].
  destruct Hs as [Hinv Htext]. pose proof Htext as (_ & _ & Hedit).
  destruct (typeable_line _ Hedit) as [Hwf Hline].
  apply onLine_sound; [exact Hwf | exact Hline|].
  apply sound_setEditor; [apply typeable_empty | now split].
Qed.

Lemma insertString_sound piece s :
  JS.wellFormed piece = true -> noTerminator piece = true ->
  History.sound s -> History.sound (insertString piece s).
Proof.
  intros Hwf Hpiece Hs. unfold insertString, whileRunning.
  destruct (exitCode s); [exact Hs|].
  apply sound_setEditor; [|exact Hs].
  apply typeable_inserted; try assumption. apply Hs.
Qed.

Lemma write_sound data s :
  JS.wellFormed data = true -> History.sound s -> History.sound (write data s).
Proof.
  intros Hdata Hs. unfold write.
  pose proof (wellFormed_splitLines data Hdata) as Hwf.
  pose proof (splitLines_noTerminator data) as Hlines.
  destruct (JS.splitLines data) as [|first rest]; [exact Hs|].
  inversion Hwf as [|? ? Hfirst Hwf']; subst.
  inversion Hlines as [|? ? Hfirst' Hlines']; subst.
  assert (Hstart : History.sound (insertString first s))
    by now apply insertString_sound.
  clear Hwf Hlines Hs Hfirst Hfirst'.
  revert Hlines'. generalize dependent (insertString first s).
  induction Hwf' as [|piece rest Hpiece _ IH]; intros s0 Hs0 Hlines;
    [exact Hs0|].
  inversion Hlines as [|? ? Hpiece' Hlines']; subst.
  cbn [fold_left]. apply IH; [|exact Hlines'].
  apply insertString_sound; try assumption. now apply submit_sound.
Qed.

Lemma prompt_sound s : History.sound s -> History.sound (prompt s).
Proof.
  intros [Hinv Htext]. split.
  - now apply (invariant_same s).
  - apply (text_same s); try reflexivity; [right; reflexivity | exact Htext].
Qed.

Lemma onReloadInterpreter_sound i rerun s :
  History.sound s -> History.sound (onReloadInterpreter i rerun s).
Proof.
  intros [[_ Hpending] (Hhistory & Hlines & Hedit)]. unfold onReloadInterpreter.
  assert (Hstart : History.sound (setHistory [] (setInterpreter i s))).
  { split; [split; [constructor | exact Hpending]|].
    split; [constructor|]. split; assumption. }
  assert (Hreplayed :
            History.sound
              (if rerun
               then fold_left
                      (fun s command =>
                         whileRunning
                           (fun s => write (command ++ ENTER) (prompt s)) s)
                      (history s) (setHistory [] (setInterpreter i s))
               else setHistory [] (setInterpreter i s))).
  { destruct rerun; [|exact Hstart].
    generalize dependent (setHistory [] (setInterpreter i s)).
    induction Hhistory as [|command commands Hcommand _ IH]; intros s0 Hs0;
      [exact Hs0|].
    cbn [fold_left]. apply IH. unfold whileRunning.
    destruct (exitCode s0); [exact Hs0|].
    apply write_sound; [|now apply prompt_sound].
    apply wellFormed_app; [exact Hcommand | reflexivity]. }
  unfold whileRunning.
  destruct (exitCode _); [exact Hreplayed | now apply prompt_sound].
Qed.

Lemma settle_sound s : History.sound s -> History.sound (settle s).
Proof.
  intros [Hinv Htext]. split.
  - apply (invariant_same s);
      [apply settle_history | apply settle_multilineState | exact Hinv].
  - apply (text_same s);
      [apply settle_history | apply settle_multilineState
       | left; apply settle_editor | exact Htext].
Qed.

Lemma onReloadClient_sound activate i s :
  History.sound s -> History.sound (onReloadClient activate i s).
Proof.
  intros [Hinv Htext].
  destruct (onReloadClient_keeps activate i s) as (Hh & Hm & _).
  split.
  - now apply (invariant_same s).
  - apply (text_same s); try assumption. apply onReloadClient_editor.
Qed.

Lemma completeReload_sound world s :
  History.sound s -> History.sound (completeReload world s).
Proof.
  intros Hs. unfold completeReload.
  destruct (exitCode s); [exact Hs|].
  destruct (reloading s) as [|rerun rest]; [exact Hs|].
  assert (Hs1 : forall events,
            History.sound (log events (setReloading rest (settle s)))).
  { intros events. destruct (settle_sound s Hs) as [Hinv Htext].
    split; [now apply (invariant_same (settle s))|].
    now apply (text_same (settle s)); try reflexivity; [left|]. }
  destruct (initializeInterpreter world _ _) as [events [i|e|code]];
    try (destruct (Hs1 events) as [Hinv Htext];
         split; [now apply (invariant_same (log events (setReloading rest (settle s))))
                |now apply (text_same (log events (setReloading rest (settle s))));
                   try reflexivity; [left|]]).
  pose proof (onReloadInterpreter_sound i rerun _ (Hs1 events)) as Hs2.
  destruct (exitCode (onReloadInterpreter i rerun _)); [exact Hs2|].
  now apply settle_sound, onReloadClient_sound.
Qed.

(** [initializeInterpreter] returns an interpreter or ends the process. *)
Lemma initializeInterpreter_never_throws world path options e :
  snd (initializeInterpreter world path options) <> Throw e.
Proof.
  unfold initializeInterpreter.
  destruct (buildEnvironmentForProject world (project options))
    as [environment|e'|code]; cbn [lift bind tryCatch emit];
    try (cbn; discriminate).
  destruct (validateEnvironment environment (skipValidations options))
    as [[]|e'|code]; cbn [lift bind tryCatch emit];
    try (cbn; discriminate).
  destruct path as [path|]; [destruct (JS.truthy path)|];
    try (cbn; discriminate).
  destruct (getNodeOrUndefinedByFQN environment (getFQN (project options) path))
    as [entity|]; [destruct (is_Package entity)|]; cbn; discriminate.
Qed.


(** Every session that a run goes through satisfies the invariants. *)
Lemma reachable_sound s : reachable s -> History.sound s.
Proof.
  induction 1 as [world path opts events s Hstart | s e _ IH He
                  | s _ IH | s _ IH | s world _ IH].
  - unfold replFn in Hstart. cbn [emit bind] in Hstart.
    destruct (initializeInterpreter world path opts) as [written [i|e|code]];
      cbn [bind ret] in Hstart; try discriminate.
    unfold initializeClient in Hstart. cbn [Repl.options] in Hstart.
    destruct (skipDiagram opts); cbn [bind ret app] in Hstart;
      injection Hstart as _ <-;
      (split; [split; [constructor | apply pendingOk_empty]|]);
      (split; [constructor|]); (split; [constructor|]);
      exact (typeable_cursorHome _ typeable_empty).
  - unfold edit, whileRunning. destruct (exitCode s); [exact IH|].
    now apply sound_setEditor.
  - now apply submit_sound.
  - now apply settle_sound.
  - now apply completeReload_sound.
Qed.

Lemma reachable_invariant s : reachable s -> History.invariant s.
Proof. intros Hreach. apply (reachable_sound s Hreach). Qed.

End InvariantFacts.

(* ================================================================== *)
(** * What a replay and the diagram client keep *)
(* ================================================================== *)

Section KeepingFacts.
Context `{Wollok}.
Import Repl.

(** A line that is no command does not end the process. *)
Lemma onLine_keeps_running s raw :
  JS.startsWith (JS.trim raw) ":" = false ->
  exitCode (onLine raw s) = exitCode s.
Proof.
  intros Hcommand. destruct (exitCode s) as [code|] eqn:Hexit.
  { unfold onLine. now rewrite Hexit. }
  destruct (JS.truthy (JS.trim raw)) eqn:Htruthy.
  2:{ unfold onLine. rewrite Hexit, Htruthy, Hexit. exact Hexit. }
  destruct (negb (Multiline.finished (multilineState s))
            || JS.endsWith (JS.trim raw) "{") eqn:Hmode.
  - rewrite (onLine_block s raw Hexit Htruthy Hcommand Hmode).
    destruct (Multiline.finished
                (Multiline.handled (JS.trim raw) (multilineState s)));
      exact Hexit.
  - rewrite (onLine_direct s raw Hexit Htruthy Hcommand Hmode). exact Hexit.
Qed.

Lemma onLines_keep_running lines s :
  Forall History.cleanLine lines ->
  exitCode (fold_left (fun s line => onLine line s) lines s) = exitCode s.
Proof.
  intros Hclean. revert s.
  induction Hclean as [|line lines (Htrim & _ & Hcommand & _) _ IH]; intros s;
    [reflexivity|].
  cbn [fold_left]. rewrite IH. apply onLine_keeps_running. now rewrite Htrim.
Qed.

(** Text after a clean line of complete characters makes no command of
    it: the line still starts with its first character. *)
Lemma merged_line_is_no_command (l t : string) :
  JS.wellFormed l = true -> History.cleanLine l ->
  JS.startsWith (JS.trim (l ++ t)) ":" = false.
Proof.
  intros Hwf (Htrim & Htruthy & Hcommand & _).
  assert (Hclean : JS.startsWithWhiteSpace l = false).
  { rewrite <- Htrim. apply trimEnd_clean, trimStart_clean. }
  unfold JS.trim.
  rewrite (trimStart_of_clean _ (startsWithWhiteSpace_app l t Hwf Htruthy Hclean)).
  destruct l as [|a l1]; [discriminate|].
  cbn [append JS.trimEnd].
  destruct (JS.isWhiteSpace _); [reflexivity|].
  etransitivity; [|exact Hcommand].
  apply (startsWith_first_character a _ l1 ":"%char).
Qed.

(** A recorded unit written to the terminal does not end the process,
    whatever the user has typed after the cursor. *)
Lemma write_recorded_keeps_running unit s :
  History.recorded unit -> JS.wellFormed unit = true ->
  beforeCursor (editor s) = EmptyString ->
  exitCode (write (unit ++ ENTER) s) = exitCode s /\
  Tracking.idleLine (write (unit ++ ENTER) s).
Proof.
  intros (lines & -> & Hclean & Hshape) Hwf Hhome.
  assert (Hne : lines <> []).
  { destruct Hshape as [(line & -> & _) | (Hopen & _)]; [discriminate|].
    intros ->. discriminate Hopen. }
  assert (Hpieces : Forall (fun piece => JS.wellFormed piece = true)
                      (lines ++ [EmptyString])).
  { rewrite <- (splitLines_join lines Hne (cleanLine_noTerminator lines Hclean)).
    apply wellFormed_splitLines, wellFormed_app; [exact Hwf | reflexivity]. }
  unfold write.
  rewrite (splitLines_join lines Hne (cleanLine_noTerminator lines Hclean)).
  destruct lines as [|line lines]; [congruence|]. cbn [app].
  rewrite written_lines.
  inversion Hclean as [|? ? Hline Hrest]; subst.
  inversion Hpieces as [|? ? Hline' _]; subst.
  split; [|apply onLines_idle, submit_idle].
  rewrite (onLines_keep_running lines _ Hrest).
  unfold submit, insertString, whileRunning.
  destruct (exitCode s) as [code|] eqn:Hexit; [now rewrite Hexit|].
  cbn [exitCode setEditor]. rewrite Hexit. cbn [editor setEditor].
  rewrite onLine_keeps_running; [exact Hexit|].
  unfold editedLine, inserted. cbn [beforeCursor afterCursor].
  rewrite Hhome. cbn [append].
  now apply merged_line_is_no_command.
Qed.

(** The replay of a history of recorded units does not end the
    process. *)
Lemma onReloadInterpreter_keeps_running i rerun s :
  Forall History.recorded (history s) ->
  Forall (fun unit => JS.wellFormed unit = true) (history s) ->
  exitCode (onReloadInterpreter i rerun s) = exitCode s.
Proof.
  intros Hrec Hwf. unfold onReloadInterpreter.
  assert (Hreplay :
            exitCode
              (if rerun
               then fold_left
                      (fun s command =>
                         whileRunning
                           (fun s => write (command ++ ENTER) (prompt s)) s)
                      (history s) (setHistory [] (setInterpreter i s))
               else setHistory [] (setInterpreter i s))
            = exitCode s).
  { destruct rerun; [|reflexivity].
    change (exitCode s) with (exitCode (setHistory [] (setInterpreter i s))).
    generalize (setHistory [] (setInterpreter i s)).
    induction Hrec as [|command commands Hcommand _ IH]; intros s0;
      [reflexivity|].
    inversion Hwf as [|? ? Hcommand' Hwf']; subst.
    cbn [fold_left]. rewrite (IH Hwf'). unfold whileRunning.
    destruct (exitCode s0) eqn:Hexit; [exact Hexit|].
    destruct (write_recorded_keeps_running command (prompt s0) Hcommand
                Hcommand' eq_refl) as [Hkeep _].
    rewrite Hkeep. exact Hexit. }
  set (s2 := if rerun then _ else _) in *.
  unfold whileRunning. destruct (exitCode s2) eqn:Hexit2.
  - now rewrite Hexit2.
  - change (exitCode (prompt s2)) with (exitCode s2). now rewrite Hexit2.
Qed.

Lemma diagramKept_refl s : Tracking.diagramKept s s.
Proof. intros Hs. now split. Qed.

Lemma diagramKept_trans s s1 s2 :
  Tracking.diagramKept s s1 -> Tracking.diagramKept s1 s2 ->
  Tracking.diagramKept s s2.
Proof.
  intros H1 H2 Hs. destruct (H1 Hs) as [Hs1 Hon1].
  destruct (H2 Hs1) as [Hs2 Hon2]. split; [exact Hs2 | auto].
Qed.

(** What leaves the options and the client alone keeps the diagram. *)
Lemma diagramKept_same s s' :
  options s' = options s -> diagramEnabled s' = diagramEnabled s ->
  awaitedClients s' = awaitedClients s -> Tracking.diagramKept s s'.
Proof.
  intros Ho He Ha Hs. unfold Tracking.diagramConsistent, Tracking.diagramOn in *.
  rewrite Ho, He, Ha. split; [exact Hs | auto].
Qed.

Lemma nonEmpty_app {A : Type} (l : list A) (x : A) :
  JS.nonEmpty (l ++ [x]) = true.
Proof. now destruct l. Qed.

Lemma onReloadClient_kept activate i s :
  Tracking.diagramKept s (onReloadClient activate i s).
Proof.
  unfold onReloadClient, initializeClient.
  destruct (activate && negb (diagramEnabled s)) eqn:Hactivate;
    [|now apply diagramKept_same].
  apply andb_prop in Hactivate. destruct Hactivate as [-> Hoff].
  apply negb_true_iff in Hoff. intros [_ Hall].
  cbn [negb options setSkipDiagram withSkipDiagram skipDiagram].
  unfold Tracking.diagramConsistent, Tracking.diagramOn.
  cbn [options diagramEnabled awaitedClients setAwaitedClients log
       setSkipDiagram withSkipDiagram skipDiagram].
  rewrite nonEmpty_app, orb_true_r. split; [|congruence].
  split; [reflexivity|]. apply Forall_app. split; [exact Hall|].
  now constructor.
Qed.

Lemma commandHandlerParse_kept args s :
  Tracking.diagramKept s (commandHandlerParse args s).
Proof.
  unfold commandHandlerParse.
  destruct (findCommand (hd EmptyString args));
    try (now apply diagramKept_same).
  apply onReloadClient_kept.
Qed.

Lemma onLine_kept raw s : Tracking.diagramKept s (onLine raw s).
Proof.
  destruct (exitCode s) as [code|] eqn:Hexit.
  { unfold onLine. rewrite Hexit. apply diagramKept_refl. }
  destruct (JS.truthy (JS.trim raw)) eqn:Htruthy.
  2:{ unfold onLine. rewrite Hexit, Htruthy, Hexit. now apply diagramKept_same. }
  destruct (JS.startsWith (JS.trim raw) ":") eqn:Hcommand.
  { unfold onLine. rewrite Hexit, Htruthy, Hcommand.
    pose proof (commandHandlerParse_kept (JS.split " "%char (JS.trim raw)) s)
      as Hc.
    destruct (exitCode (commandHandlerParse _ s)); [exact Hc|].
    apply (diagramKept_trans _ _ _ Hc). now apply diagramKept_same. }
  destruct (negb (Multiline.finished (multilineState s))
            || JS.endsWith (JS.trim raw) "{") eqn:Hmode.
  - rewrite (onLine_block s raw Hexit Htruthy Hcommand Hmode).
    destruct (Multiline.finished
                (Multiline.handled (JS.trim raw) (multilineState s)));
      now apply diagramKept_same.
  - rewrite (onLine_direct s raw Hexit Htruthy Hcommand Hmode).
    now apply diagramKept_same.
Qed.

Lemma submit_kept s : Tracking.diagramKept s (submit s).
Proof.
  unfold submit, whileRunning. destruct (exitCode s);
    [apply diagramKept_refl|].
  refine (diagramKept_trans _ (setEditor emptyLine s) _ _ (onLine_kept _ _)).
  now apply diagramKept_same.
Qed.

Lemma insertString_kept piece s : Tracking.diagramKept s (insertString piece s).
Proof.
  unfold insertString, whileRunning. destruct (exitCode s);
    [apply diagramKept_refl | now apply diagramKept_same].
Qed.

Lemma write_kept data s : Tracking.diagramKept s (write data s).
Proof.
  unfold write. destruct (JS.splitLines data) as [|first rest];
    [apply diagramKept_refl|].
  apply (diagramKept_trans _ _ _ (insertString_kept first s)).
  generalize (insertString first s).
  induction rest as [|piece rest IH]; intros s0; [apply diagramKept_refl|].
  cbn [fold_left].
  refine (diagramKept_trans _ _ _ _ (IH _)).
  exact (diagramKept_trans _ _ _ (submit_kept s0) (insertString_kept piece _)).
Qed.

Lemma onReloadInterpreter_kept i rerun s :
  Tracking.diagramKept s (onReloadInterpreter i rerun s).
Proof.
  unfold onReloadInterpreter.
  assert (Hreplay : forall commands s0,
            Tracking.diagramKept s0
              (fold_left
                 (fun s command =>
                    whileRunning
                      (fun s => write (command ++ ENTER) (prompt s)) s)
                 commands s0)).
  { induction commands as [|command commands IH]; intros s0;
      [apply diagramKept_refl|].
    cbn [fold_left]. refine (diagramKept_trans _ _ _ _ (IH _)).
    unfold whileRunning. destruct (exitCode s0); [apply diagramKept_refl|].
    refine (diagramKept_trans _ (prompt s0) _ _ (write_kept _ _)).
    now apply diagramKept_same. }
  assert (Hs2 : Tracking.diagramKept s
                  (if rerun
                   then fold_left
                          (fun s command =>
                             whileRunning
                               (fun s => write (command ++ ENTER) (prompt s)) s)
                          (history s) (setHistory [] (setInterpreter i s))
                   else setHistory [] (setInterpreter i s))).
  { destruct rerun; [|now apply diagramKept_same].
    refine (diagramKept_trans _ (setHistory [] (setInterpreter i s)) _ _
              (Hreplay _ _)).
    now apply diagramKept_same. }
  unfold whileRunning. destruct (exitCode _); [exact Hs2|].
  apply (diagramKept_trans _ _ _ Hs2). now apply diagramKept_same.
Qed.

Lemma last_of_enabled (clients : list bool) (d : bool) :
  Forall (fun client => client = true) clients -> clients <> [] ->
  last clients d = true.
Proof.
  induction clients as [|client clients IH]; intros Hall Hne; [congruence|].
  inversion Hall as [|? ? -> Hall']; subst.
  destruct clients as [|client2 rest]; [reflexivity|].
  change (last (true :: client2 :: rest) d) with (last (client2 :: rest) d).
  apply IH; [exact Hall' | discriminate].
Qed.

(** When a turn ends the client is on exactly when the options do not
    skip the diagram. *)
Lemma settle_on s :
  exitCode s = None -> Tracking.diagramConsistent s ->
  awaitedClients (settle s) = [] /\
  diagramEnabled (settle s) = negb (skipDiagram (options s)).
Proof.
  intros Hexit [Hskip Hall]. destruct (settle_clients s Hexit) as [Hnone Hlast].
  split; [exact Hnone|]. rewrite Hlast, Hskip. unfold Tracking.diagramOn.
  destruct (awaitedClients s) as [|client clients] eqn:Hawaited.
  - cbn. now rewrite orb_false_r, negb_involutive.
  - rewrite (last_of_enabled _ _ Hall) by discriminate.
    cbn [JS.nonEmpty]. now rewrite orb_true_r.
Qed.

Lemma settle_kept s : Tracking.diagramKept s (settle s).
Proof.
  intros Hs. destruct (exitCode s) as [code|] eqn:Hexit.
  { unfold settle, whileRunning. rewrite Hexit. now split. }
  destruct (settle_on s Hexit Hs) as [Hnone Hon].
  unfold Tracking.diagramConsistent, Tracking.diagramOn.
  rewrite Hnone, Hon, settle_options. cbn [JS.nonEmpty].
  rewrite orb_false_r, negb_involutive.
  split; [split; [reflexivity | constructor]|].
  intros Henabled. destruct Hs as [Hskip _]. rewrite Hskip.
  unfold Tracking.diagramOn. now rewrite Henabled.
Qed.

Lemma completeReload_kept world s :
  Tracking.diagramKept s (completeReload world s).
Proof.
  unfold completeReload.
  destruct (exitCode s); [apply diagramKept_refl|].
  destruct (reloading s) as [|rerun rest]; [apply diagramKept_refl|].
  assert (Hs1 : forall events,
            Tracking.diagramKept s (log events (setReloading rest (settle s)))).
  { intros events. apply (diagramKept_trans _ _ _ (settle_kept s)).
    now apply diagramKept_same. }
  destruct (initializeInterpreter world _ _) as [events [i|e|code]];
    try (apply (diagramKept_trans _ _ _ (Hs1 events));
         now apply diagramKept_same).
  pose proof (diagramKept_trans _ _ _ (Hs1 events)
                (onReloadInterpreter_kept i rerun _)) as Hs2.
  destruct (exitCode (onReloadInterpreter i rerun _)); [exact Hs2|].
  apply (diagramKept_trans _ _ _ Hs2).
  exact (diagramKept_trans _ _ _ (onReloadClient_kept _ _ _) (settle_kept _)).
Qed.

(** Every session that a run goes through has its diagram consistent. *)
Lemma reachable_consistent s : reachable s -> Tracking.diagramConsistent s.
Proof.
  induction 1 as [world path opts events s Hstart | s e _ IH He
                  | s _ IH | s _ IH | s world _ IH].
  - unfold replFn in Hstart. cbn [emit bind] in Hstart.
    destruct (initializeInterpreter world path opts) as [written [i|e|code]];
      cbn [bind ret] in Hstart; try discriminate.
    unfold initializeClient in Hstart. cbn [Repl.options] in Hstart.
    destruct (skipDiagram opts) eqn:Hskip; cbn [bind ret app] in Hstart;
      injection Hstart as _ <-;
      (split; [cbn; now rewrite Hskip | constructor]).
  - assert (Hkept : Tracking.diagramKept s (edit e s)).
    { unfold edit, whileRunning.
      destruct (exitCode s);
        [apply diagramKept_refl | now apply diagramKept_same]. }
    exact (proj1 (Hkept IH)).
  - exact (proj1 (submit_kept s IH)).
  - exact (proj1 (settle_kept s IH)).
  - exact (proj1 (completeReload_kept world s IH)).
Qed.

(** A line typed on the empty line of the terminal and submitted. *)
Lemma reachable_onLine s line :
  reachable s -> Tracking.idleLine s ->
  JS.wellFormed line = true -> noTerminator line = true ->
  reachable (onLine line s).
Proof.
  intros Hreach Hidle Hwf Hline.
  destruct (exitCode s) as [code|] eqn:Hexit.
  { unfold onLine. now rewrite Hexit. }
  pose (e := {| beforeCursor := line; afterCursor := EmptyString |}).
  assert (He : typeable e).
  { split; [exact Hwf|]. split; [reflexivity|].
    unfold editedLine. cbn [e beforeCursor afterCursor].
    now rewrite append_nil_r. }
  assert (Heq : submit (edit e s) = onLine line s).
  { unfold submit, edit, whileRunning. rewrite Hexit.
    cbn [exitCode setEditor]. rewrite Hexit. cbn [editor setEditor].
    change (setEditor emptyLine (setEditor e s)) with (setEditor emptyLine s).
    unfold editedLine. cbn [e beforeCursor afterCursor].
    rewrite append_nil_r, <- (Hidle Hexit), setEditor_same. reflexivity. }
  rewrite <- Heq. apply reach_enter, reach_edit; assumption.
Qed.

(** Lines typed and submitted one after the other. *)
Lemma reachable_onLines lines s :
  reachable s -> Tracking.idleLine s ->
  Forall (fun line => JS.wellFormed line = true /\ noTerminator line = true)
    lines ->
  reachable (fold_left (fun s line => onLine line s) lines s).
Proof.
  intros Hreach Hidle Hlines. revert s Hreach Hidle.
  induction Hlines as [|line lines [Hwf Hline] _ IH]; intros s Hreach Hidle;
    [exact Hreach|].
  cbn [fold_left]. apply IH; [now apply reachable_onLine | now apply onLine_idle].
Qed.

End KeepingFacts.

(* ================================================================== *)
(** * Reload and rerun *)
(* ================================================================== *)

Section ReloadFacts.
Context `{Wollok}.
Import Repl.





End ReloadFacts.

(* ================================================================== *)
(** * More on the test-target resolver *)
(* ================================================================== *)

Section ResolverMore.
Context `{Wollok}.
Import TestCommand.

Lemma removeAll_idempotent c s : JS.removeAll c (JS.removeAll c s) = JS.removeAll c s.
Proof.
  induction s as [|a s IH]; [reflexivity|].
  simpl. destruct (Ascii.eqb a c) eqn:Ha; [exact IH|].
  simpl. now rewrite Ha, IH.
Qed.

Lemma removeAll_truthy c s : JS.truthy (JS.removeAll c s) = true -> JS.truthy s = true.
Proof. destruct s; [discriminate | reflexivity]. Qed.

Lemma filter_all {A : Type} (f : A -> bool) (l : list A) :
  (forall x, In x l -> f x = true) -> List.filter f l = l.
Proof.
  induction l as [|x l IH]; intros Hall; [reflexivity|].
  simpl. rewrite (Hall x (or_introl eq_refl)). f_equal.
  apply IH. intros y Hy. apply Hall. now right.
Qed.

(** The only error of [getBaseNode] is the search miss. *)
Lemma getBaseNode_outcomes environment filter options :
  (exists base, getBaseNode environment filter options = Normal base) \/
  (exists message,
     getBaseNode environment filter options = Throw (TestSearchMissError message)).
Proof.
  unfold getBaseNode.
  destruct (JS.truthy_opt filter); [left; eexists; reflexivity|].
  destruct (file options) as [f|]; [destruct (JS.truthy f)|].
  1: destruct (find (isPackageOfFile f) (descendants environment)) as [package|];
       [|right; eexists; reflexivity].
  all: destruct (describe options) as [d|]; [destruct (JS.truthy d)|];
       try (left; eexists; reflexivity).
  all: match goal with
       | |- context [find ?p ?l] => destruct (find p l)
       end; [left | right]; eexists; reflexivity.
Qed.

(** X1.  [getTarget] always returns a list: the miss of a file or of a
    describe is the one error of its body and it is caught, so nothing is
    rethrown.  It writes one message when the base scope is missed, and
    then returns no test; it writes nothing otherwise. *)
Theorem getTarget_always_returns environment filter options :
  exists written targets,
    getTarget environment filter options = (written, Normal targets) /\
    ((written = [] /\
      exists base, getBaseNode environment filter options = Normal base) \/
     (targets = [] /\
      exists message,
        written = [LoggerError message] /\
        getBaseNode environment filter options
        = Throw (TestSearchMissError message))).
Proof.
  unfold getTarget.
  destruct (getBaseNode_outcomes environment filter options)
    as [[base Hbase] | [message Hmiss]].
  - rewrite Hbase. eexists _, _. split; [reflexivity|].
    left. split; [reflexivity | now exists base].
  - rewrite Hmiss. eexists _, _. split; [reflexivity|].
    right. split; [reflexivity | now exists message].
Qed.

(** X2.  The base scope that is resolved: the environment with a
    free-text filter or with no selection; with a describe, a describe
    of that quoted name among the descendants of the scope that the
    file leaves; with a file alone, a package of that file among the
    descendants of the environment. *)
Theorem getBaseNode_resolves environment filter options base :
  getBaseNode environment filter options = Normal base ->
  (JS.truthy_opt filter = true -> base = environment) /\
  (JS.truthy_opt filter = false ->
   forall d, describe options = Some d -> JS.truthy d = true ->
     is_Describe base = true /\ name base = quoted d /\
     exists scope,
       MissingTarget.narrowedByFile environment options scope /\
       In base (descendants scope)) /\
  (JS.truthy_opt filter = false -> JS.truthy_opt (describe options) = false ->
   forall f, file options = Some f -> JS.truthy f = true ->
     is_Package base = true /\ fileName base = Some f /\
     In base (descendants environment)) /\
  (JS.truthy_opt filter = false -> JS.truthy_opt (describe options) = false ->
   JS.truthy_opt (file options) = false -> base = environment).
Proof.
  intros Hbase. unfold getBaseNode in Hbase.
  destruct (JS.truthy_opt filter) eqn:Hfilter.
  { injection Hbase as <-. repeat split; intros; (reflexivity || discriminate). }
  split; [discriminate|].
  assert (Hscope : exists scope,
            MissingTarget.narrowedByFile environment options scope /\
            (JS.truthy_opt (file options) = true ->
             forall f, file options = Some f ->
               is_Package scope = true /\ fileName scope = Some f /\
               In scope (descendants environment)) /\
            match describe options with
            | Some d =>
                if JS.truthy d then
                  match find (isDescribeNamed d) (descendants scope) with
                  | Some group => Normal group
                  | None => Throw (TestSearchMissError
                                     ("Describe '" ++ d ++ "' not found")%string)
                  end
                else Normal scope
            | None => Normal scope
            end = Normal base).
  { destruct (file options) as [f|] eqn:Hfile; [destruct (JS.truthy f) eqn:Hf|].
    - destruct (find (isPackageOfFile f) (descendants environment))
        as [package|] eqn:Hfind; [|discriminate].
      exists package. split; [right; exists f; now rewrite Hfile|].
      split; [|exact Hbase].
      intros _ f' Hf'. injection Hf' as <-.
      apply find_some in Hfind. destruct Hfind as [Hin Hpkg].
      unfold isPackageOfFile in Hpkg. apply andb_prop in Hpkg.
      destruct Hpkg as [Hpkg Hname]. split; [exact Hpkg|]. split; [|exact Hin].
      destruct (fileName package) as [f0|]; [|discriminate].
      apply String.eqb_eq in Hname. now subst.
    - exists environment.
      split; [left; split; [rewrite Hfile; exact Hf | reflexivity]|].
      split; [|exact Hbase]. simpl. rewrite Hf. discriminate.
    - exists environment.
      split; [left; split; [rewrite Hfile; reflexivity | reflexivity]|].
      split; [discriminate | exact Hbase]. }
  destruct Hscope as (scope & Hnarrow & Hpackage & Hdescribe).
  split; [|split].
  - intros _ d Hd Htruthy. rewrite Hd, Htruthy in Hdescribe.
    destruct (find (isDescribeNamed d) (descendants scope)) as [group|] eqn:Hfind;
      [|discriminate].
    injection Hdescribe as <-. apply find_some in Hfind.
    destruct Hfind as [Hin Hnamed]. unfold isDescribeNamed in Hnamed.
    apply andb_prop in Hnamed. destruct Hnamed as [Hdesc Hname].
    apply String.eqb_eq in Hname.
    split; [exact Hdesc|]. split; [exact Hname|]. now exists scope.
  - intros _ Hnodescribe f Hfile Hf.
    assert (Hscope : scope = base).
    { destruct (describe options) as [d|]; [|now injection Hdescribe].
      simpl in Hnodescribe. rewrite Hnodescribe in Hdescribe.
      now injection Hdescribe. }
    subst scope. apply (Hpackage (eq_trans (f_equal JS.truthy_opt Hfile) Hf) f Hfile).
  - intros _ Hnodescribe Hnofile.
    assert (Hscope : scope = base).
    { destruct (describe options) as [d|]; [|now injection Hdescribe].
      simpl in Hnodescribe. rewrite Hnodescribe in Hdescribe.
      now injection Hdescribe. }
    subst scope. destruct Hnarrow as [[_ Heq] | (f & Hfile & Hf & _)];
      [exact Heq|].
    rewrite Hfile in Hnofile. simpl in Hnofile. congruence.
Qed.

Lemma getTestFilter_test filter options node :
  getTestFilter filter options node = true ->
  is_Test node = true /\
  (JS.truthy_opt filter = false ->
   forall n, test options = Some n -> JS.truthy n = true ->
             name node = quoted n).
Proof.
  unfold getTestFilter. intros Hnode.
  destruct (test options) as [t|]; [|split; [exact Hnode | discriminate]].
  destruct (JS.truthy_opt filter) eqn:Hfilter; simpl in Hnode.
  - split; [exact Hnode | discriminate].
  - destruct (JS.truthy t) eqn:Ht; simpl in Hnode.
    + unfold isTestNamed in Hnode. apply andb_prop in Hnode.
      destruct Hnode as [Htest Hname]. apply String.eqb_eq in Hname.
      split; [exact Htest|]. intros _ n Hn _. now injection Hn as <-.
    + split; [exact Hnode|]. intros _ n Hn Htruthy.
      injection Hn as <-. congruence.
Qed.

(** X3.  Every target is a test among the descendants of the base scope,
    and, with a test name and no free-text filter, a test of that quoted
    name: the resolver returns no other node, with or without a test
    marked only. *)
Theorem targets_are_tests_of_the_base
  environment filter options base written targets t :
  getBaseNode environment filter options = Normal base ->
  getTarget environment filter options = (written, Normal targets) ->
  In t targets ->
  is_Test t = true /\ In t (descendants base) /\
  (JS.truthy_opt filter = false ->
   forall n, test options = Some n -> JS.truthy n = true -> name t = quoted n).
Proof.
  intros Hbase Htarget Hin.
  rewrite (getTarget_of_base _ _ _ _ Hbase) in Htarget.
  injection Htarget as _ <-.
  assert (Hcandidate : In t (possibleTargets base filter options)).
  { destruct (find isOnly (possibleTargets base filter options)) as [only|] eqn:Hfind.
    - destruct Hin as [<- | []]. now apply find_some in Hfind.
    - now apply filter_In in Hin. }
  unfold possibleTargets in Hcandidate. apply filter_In in Hcandidate.
  destruct Hcandidate as [Hdesc Hfilter].
  destruct (getTestFilter_test _ _ _ Hfilter) as [Htest Hname].
  repeat split; assumption.
Qed.

(** X4.  With a free-text filter the file, the describe and the test of
    the options are not looked at: any two options give the same
    targets. *)
Theorem free_text_filter_ignores_the_selection environment f options options' :
  JS.truthy f = true ->
  getTarget environment (Some f) options
  = getTarget environment (Some f) options'.
Proof.
  intros Hf. unfold getTarget, getBaseNode, possibleTargets, getTestFilter.
  simpl. rewrite Hf. simpl.
  now destruct (test options), (test options').
Qed.

(** X5.  Double quotes in the free-text filter do not count: a filter
    and the same filter without its quotes, when that is not empty,
    select the same targets. *)
Theorem quotes_of_the_filter_are_ignored environment f options :
  JS.truthy (JS.removeAll JS.quote f) = true ->
  getTarget environment (Some f) options
  = getTarget environment (Some (JS.removeAll JS.quote f)) options.
Proof.
  intros Hbare. pose proof (removeAll_truthy _ _ Hbare) as Hf.
  unfold getTarget, getBaseNode, possibleTargets, getTestFilter, filterTest.
  simpl. rewrite Hf, Hbare, removeAll_idempotent. reflexivity.
Qed.

(** X6.  A free-text filter made of double quotes only matches every
    test: the targets are all the tests of the environment, or the first
    of them that is marked only. *)
Theorem filter_of_quotes_selects_every_test environment f options :
  JS.truthy f = true -> JS.removeAll JS.quote f = EmptyString ->
  getTarget environment (Some f) options
  = ([], Normal
       match find isOnly (List.filter is_Test (descendants environment)) with
       | Some only => [only]
       | None => List.filter is_Test (descendants environment)
       end).
Proof.
  intros Hf Hbare.
  unfold getTarget, getBaseNode, possibleTargets, getTestFilter, filterTest.
  simpl. rewrite Hf, Hbare. simpl.
  assert (Hsame : (match test options with
                   | Some _ => is_Test
                   | None => is_Test
                   end) = is_Test) by (now destruct (test options)).
  rewrite Hsame.
  destruct (find isOnly (List.filter is_Test (descendants environment)));
    [reflexivity|].
  unfold ret. do 2 f_equal. apply filter_all. reflexivity.
Qed.

(** X7.  Without free-text filter (absent or empty) and without candidate
    marked only, every candidate is a target: the tests of the base
    scope, those of the given name when a test name is given, in the
    order of the descendants. *)
Theorem no_filter_keeps_every_candidate environment filter options base :
  JS.truthy_opt filter = false ->
  getBaseNode environment filter options = Normal base ->
  (forall t, In t (possibleTargets base filter options) -> isOnly t = false) ->
  getTarget environment filter options
  = ([], Normal (possibleTargets base filter options)).
Proof.
  intros Hfilter Hbase Hnone.
  rewrite (getTarget_of_base _ _ _ _ Hbase),
    (find_none_of_all_false _ _ Hnone).
  do 2 f_equal. apply filter_all. intros t _.
  destruct filter as [[|a f]|]; (reflexivity || discriminate).
Qed.

(** X8.  The description of the selection is empty exactly when nothing
    is selected: no free-text filter, no file, no describe, no test. *)
Theorem matchingTestDescription_empty_iff filter options :
  Description.matchingTestDescription filter options = EmptyString <->
  JS.truthy_opt filter = false /\ JS.truthy_opt (file options) = false /\
  JS.truthy_opt (describe options) = false /\
  JS.truthy_opt (test options) = false.
Proof.
  unfold Description.matchingTestDescription.
  destruct filter as [[|a f]|]; simpl;
    try (split; [discriminate | intros [Hcontra _]; discriminate]).
  all: destruct (JS.truthy_opt (file options)),
         (JS.truthy_opt (describe options)),
         (JS.truthy_opt (test options)); simpl;
       split; try discriminate; try reflexivity;
       try (intros (_ & H1 & H2 & H3); discriminate);
       try (intros _; repeat split; reflexivity).
Qed.

End ResolverMore.

(* ================================================================== *)
(** * More on the test run *)
(* ================================================================== *)

Section RunMore.
Context `{Wollok}.
Import TestCommand.

(** X9.  A run that is given a free-text filter together with a file, a
    describe or a test name builds nothing and runs nothing: the error
    goes to [handleError] and the process exits with 1. *)
Theorem run_rejects_filter_with_selection world filter options :
  JS.truthy_opt filter = true ->
  JS.truthy_opt (file options) || JS.truthy_opt (describe options)
  || JS.truthy_opt (test options) = true ->
  run world filter options
  = ([HandleError
        (Error "You should either use filter by full name or file/describe/test.")],
     ProcessExit 1).
Proof.
  intros Hfilter Hselection. unfold run, validateParameters.
  rewrite Hfilter, Hselection. reflexivity.
Qed.

(** X10.  When the environment cannot be built, or does not validate,
    the run stops there: after its two first messages the error goes to
    [handleError] and the process exits with 1; no test is selected or
    run. *)
Theorem run_exits_1_without_environment world filter options e :
  validateParameters filter options = Normal tt ->
  buildEnvironmentForProject world (project options) = Throw e \/
  (exists environment,
     buildEnvironmentForProject world (project options) = Normal environment /\
     validateEnvironment environment (skipValidations options) = Throw e) ->
  run world filter options
  = ([InfoRunningAll; InfoBuilding; HandleError e], ProcessExit 1).
Proof.
  intros Hparams [Hbuild | (environment & Hbuild & Hvalid)];
    unfold run; rewrite Hparams; cbn [lift bind emit]; rewrite Hbuild.
  - reflexivity.
  - cbn [bind]. rewrite Hvalid. reflexivity.
Qed.

(** X11.  No exception escapes the run: whatever its collaborators
    throw, it returns or it ends the process. *)
Theorem run_never_throws world filter options e :
  snd (run world filter options) <> Throw e.
Proof.
  unfold run.
  destruct (validateParameters filter options) as [[]|e0|c];
    cbn [lift bind emit tryCatch snd app]; try discriminate.
  destruct (buildEnvironmentForProject world (project options))
    as [environment|e0|c]; cbn [lift bind emit tryCatch snd app];
    try discriminate.
  destruct (validateEnvironment environment (skipValidations options))
    as [[]|e0|c]; cbn [lift bind emit tryCatch snd app]; try discriminate.
  unfold getTarget.
  destruct (getBaseNode_outcomes environment filter options)
    as [[base ->] | [message ->]];
    cbn [lift bind emit tryCatch snd app ret];
    match goal with
    | |- context [JS.nonEmpty ?l] => destruct (JS.nonEmpty l)
    end; cbn; discriminate.
Qed.

(** The loop of the run, started from any tally. *)
Lemma fold_visit_tally environment targets nodes t :
  let t' := fold_left (visit environment targets) nodes t in
  successes t'
  = successes t
    + length (List.filter
                (fun n => Counting.executed targets n
                          && Counting.passes environment n) nodes) /\
  failures t'
  = failures t
    ++ flat_map (fun n => if Counting.executed targets n
                          then Counting.failureOf environment n else [])
         nodes.
Proof.
  revert t. induction nodes as [|node nodes IH]; intros t.
  - cbn. split; [lia | now rewrite app_nil_r].
  - cbn [fold_left]. destruct (IH (visit environment targets t node)) as [Hs Hf].
    cbn zeta in *. rewrite Hs, Hf. clear Hs Hf IH.
    unfold visit, Counting.executed, Counting.passes,
      Counting.failureOf.
    cbn [List.filter flat_map].
    destruct (is_Test node); cbn [andb].
    + destruct (contains targets node); cbn [andb].
      * destruct (execTest environment node); cbn [successes failures length app].
        -- split; [lia | now rewrite <- app_assoc].
        -- split; [lia | reflexivity].
      * split; reflexivity.
    + destruct (is_Entity node); [destruct (existsb _ targets)|];
        split; reflexivity.
Qed.

Lemma runTargets_tally environment targets :
  successes (runTargets environment targets)
  = length (List.filter
              (fun n => Counting.executed targets n
                        && Counting.passes environment n)
              (forEachNode environment)) /\
  failures (runTargets environment targets)
  = flat_map (fun n => if Counting.executed targets n
                       then Counting.failureOf environment n else [])
      (forEachNode environment).
Proof.
  unfold runTargets.
  destruct (fold_visit_tally environment targets (forEachNode environment)
              {| logged := []; successes := 0; failures := [] |}) as [Hs Hf].
  cbn zeta in Hs, Hf. cbn [successes failures app] in Hs, Hf.
  now rewrite Hs, Hf.
Qed.

(** X12.  Every visited test among the targets is executed once, whether
    the ones before passed or failed: the passing ones are counted, the
    failing ones are recorded with their error in the order of the
    visit, and together they are as many as the visited targets. *)
Theorem every_target_is_counted_once environment targets :
  let t := runTargets environment targets in
  let visited := forEachNode environment in
  successes t
  = length (List.filter
              (fun n => Counting.executed targets n
                        && Counting.passes environment n) visited) /\
  failures t
  = flat_map (fun n => if Counting.executed targets n
                       then Counting.failureOf environment n else [])
      visited /\
  successes t + length (failures t)
  = length (List.filter (Counting.executed targets) visited).
Proof.
  intros t visited. subst t visited.
  destruct (runTargets_tally environment targets) as [Hs Hf].
  rewrite Hs, Hf. split; [reflexivity|]. split; [reflexivity|].
  clear Hs Hf.
  induction (forEachNode environment) as [|node nodes IH]; [reflexivity|].
  cbn [List.filter flat_map]. rewrite length_app.
  unfold Counting.passes, Counting.failureOf in *.
  destruct (Counting.executed targets node); cbn [andb].
  - destruct (execTest environment node); cbn [length]; lia.
  - exact IH.
Qed.

(** X13.  A run that reaches its tests ends with code 2 exactly when a
    visited target fails, and returns otherwise. *)
Theorem run_exits_2_iff_a_target_fails
  world filter options environment written targets :
  validateParameters filter options = Normal tt ->
  buildEnvironmentForProject world (project options) = Normal environment ->
  validateEnvironment environment (skipValidations options) = Normal tt ->
  getTarget environment filter options = (written, Normal targets) ->
  snd (run world filter options)
  = if forallb (fun n => negb (Counting.executed targets n)
                         || Counting.passes environment n)
         (forEachNode environment)
    then Normal tt else ProcessExit 2.
Proof.
  intros Hparams Hbuild Hvalid Htarget.
  unfold run. rewrite Hparams. cbn [lift bind emit].
  rewrite Hbuild. cbn [bind]. rewrite Hvalid. cbn [bind].
  rewrite Htarget. cbn [bind emit].
  destruct (runTargets_tally environment targets) as [_ Hf].
  rewrite Hf. clear Hf.
  induction (forEachNode environment) as [|node nodes IH]; [reflexivity|].
  cbn [flat_map forallb].
  unfold Counting.passes, Counting.failureOf in *.
  destruct (Counting.executed targets node); cbn [negb orb andb].
  - destruct (execTest environment node); cbn [app andb]; [reflexivity | exact IH].
  - exact IH.
Qed.

End RunMore.

Section TabulationFacts.
Context `{Wollok}.
Import TestCommand.

Lemma length_consHead a pieces :
  pieces <> [] -> length (JS.consHead a pieces) = length pieces.
Proof. destruct pieces; [congruence | reflexivity]. Qed.

Lemma split_not_empty sep s : JS.split sep s <> [].
Proof.
  destruct s as [|a s]; [discriminate|].
  simpl. destruct (Ascii.eqb a sep); [discriminate|].
  destruct (JS.split sep s); discriminate.
Qed.

(** A string splits into one piece more than it holds separators. *)
Lemma length_split sep s :
  length (JS.split sep s) = S (Counting.occurrences sep s).
Proof.
  induction s as [|a s IH]; [reflexivity|].
  simpl. destruct (Ascii.eqb a sep).
  - simpl. now rewrite IH.
  - rewrite length_consHead by apply split_not_empty. exact IH.
Qed.

Lemma length_append (a b : string) :
  String.length (a ++ b) = String.length a + String.length b.
Proof. induction a as [|x a IH]; simpl; [reflexivity | now rewrite IH]. Qed.

Lemma length_repeat s n : String.length (JS.repeat s n) = n * String.length s.
Proof.
  induction n as [|n IH]; [reflexivity|].
  simpl. now rewrite length_append, IH.
Qed.

(** X14.  The indentation of a node is two spaces for each dot of its
    fully-qualified name, the dots inside of quoted names included. *)
Theorem tabulation_counts_the_dots (node : Node) :
  String.length (tabulationForNode node)
  = 2 * Counting.occurrences "."%char (fullyQualifiedName node) /\
  forall n, String.get n (tabulationForNode node) = None \/
            String.get n (tabulationForNode node) = Some " "%char.
Proof.
  unfold tabulationForNode. rewrite length_split. split.
  - rewrite length_repeat. simpl. lia.
  - simpl. rewrite Nat.sub_0_r.
    induction (Counting.occurrences "." (fullyQualifiedName node))
      as [|k IH]; intros n.
    + left. now destruct n.
    + destruct n as [|[|n]]; [right; reflexivity | right; reflexivity|].
      apply (IH n).
Qed.

End TabulationFacts.

(* ================================================================== *)
(** * The client of the dynamic diagram *)
(* ================================================================== *)

Section DiagramFacts.
Context `{Wollok}.
Import Diagram.

Lemma reloads_cons i rest c :
  reloads (i :: rest) c
  = (fst (reloads rest (fst (onReload i c))),
     snd (onReload i c) ++ snd (reloads rest (fst (onReload i c)))).
Proof.
  cbn [reloads]. destruct (onReload i c) as [c1 sent]. cbn [fst snd].
  now destruct (reloads rest c1).
Qed.

(** X15.  A client that is initialized with the diagram skipped stays
    off whatever it is reloaded with: it sends nothing, and no socket
    that connects is sent anything. *)
Theorem skipped_diagram_sends_nothing
  (options : Repl.Options) (i : Interpreter) (interpreters : list Interpreter) :
  Repl.skipDiagram options = true ->
  let c := fst (reloads interpreters (initializeClient options i)) in
  enabled c = false /\
  snd (reloads interpreters (initializeClient options i)) = [] /\
  connect c = [].
Proof.
  intros Hskip. unfold initializeClient. rewrite Hskip.
  induction interpreters as [|i' rest IH]; [repeat split|].
  rewrite reloads_cons. exact IH.
Qed.

(** The one diagram listener of a client that is on. *)
Lemma reloads_keep_one_listener interpreters c i :
  enabled c = true ->
  listeners c = [LogConnection; ConnectionListener (currentConnectionListener c) i] ->
  let c' := fst (reloads interpreters c) in
  enabled c' = true /\ options c' = options c /\
  listeners c'
  = [LogConnection;
     ConnectionListener (currentConnectionListener c') (last interpreters i)] /\
  snd (reloads interpreters c) = map UpdateDiagram interpreters.
Proof.
  revert c i. induction interpreters as [|i' rest IH]; intros c i Hon Hls.
  - repeat split; assumption.
  - rewrite reloads_cons.
    assert (Hstep : fst (onReload i' c)
                    = {| enabled := true; options := options c;
                         listeners :=
                           [LogConnection;
                            ConnectionListener (S (currentConnectionListener c)) i'];
                         currentConnectionListener :=
                           S (currentConnectionListener c) |} /\
                    snd (onReload i' c) = [UpdateDiagram i']).
    { unfold onReload. rewrite Hon, Hls. cbn [fst snd]. split; [|reflexivity].
      f_equal. unfold off. cbn. rewrite Nat.eqb_refl. reflexivity. }
    destruct Hstep as [Hc Hsent]. rewrite Hsent, Hc.
    destruct (IH {| enabled := true; options := options c;
                    listeners :=
                      [LogConnection;
                       ConnectionListener (S (currentConnectionListener c)) i'];
                    currentConnectionListener :=
                      S (currentConnectionListener c) |} i' eq_refl eq_refl)
      as (Hon' & Hopt & Hls' & Hsent').
    cbn [fst snd]. repeat split; try assumption.
    + rewrite Hls'. do 3 f_equal. symmetry. apply last_cons.
    + cbn [map app]. now rewrite Hsent'.
Qed.

(** X16.  A client that is on keeps one diagram listener: however many
    times it has been reloaded, a socket that connects is sent the
    options once and one diagram, that of the interpreter given last
    (the one of the initialization when there was no reload); and every
    reload sends one diagram to the connected sockets, that of the
    interpreter it is given. *)
Theorem connecting_socket_gets_the_latest_diagram
  (options : Repl.Options) (i : Interpreter) (interpreters : list Interpreter) :
  Repl.skipDiagram options = false ->
  let c := fst (reloads interpreters (initializeClient options i)) in
  enabled c = true /\
  connect c = [InitDiagram options; UpdateDiagram (last interpreters i)] /\
  snd (reloads interpreters (initializeClient options i))
  = map UpdateDiagram interpreters.
Proof.
  intros Hskip c. subst c. unfold initializeClient. rewrite Hskip.
  destruct (reloads_keep_one_listener interpreters
              {| enabled := true; options := options;
                 listeners := [LogConnection; ConnectionListener 0 i];
                 currentConnectionListener := 0 |} i eq_refl eq_refl)
    as (Hon & Hopt & Hls & Hsent).
  split; [exact Hon|]. split; [|exact Hsent].
  unfold connect. rewrite Hls, Hopt. reflexivity.
Qed.

End DiagramFacts.

(* ================================================================== *)
(** * More on the accumulator and on the line listener *)
(* ================================================================== *)

Section AccumulatorMore.
Import Multiline.

(** X17.  While no unit is produced no line is lost: the pending lines
    are the former ones followed by the lines fed, in order, and a block
    stays open. *)
Theorem pending_lines_accumulate (lines : list string) (st : State) :
  snd (feedAll lines st) = nones lines ->
  history (fst (feedAll lines st)) = history st ++ lines /\
  (lines <> [] -> finished (fst (feedAll lines st)) = false).
Proof.
  revert st. induction lines as [|line lines IH]; intros st Hnones.
  - cbn. split; [now rewrite app_nil_r | congruence].
  - rewrite feedAll_cons in Hnones |- *. cbn [fst snd nones map] in *.
    injection Hnones as Hnone Hnones.
    destruct (IH _ Hnones) as [Hhistory Hopen].
    assert (Hfed : fst (feed line st) = handled line st).
    { rewrite feed_unfold in Hnone |- *.
      now destruct (finished (handled line st)). }
    split.
    + rewrite Hhistory, Hfed, handled_history, <- app_assoc. reflexivity.
    + intros _. destruct lines as [|line2 rest]; [|apply Hopen; discriminate].
      cbn [feedAll fst]. apply feed_none_iff in Hnone.
      destruct (finished (fst (feed line st))) eqn:Hfin; [|reflexivity].
      apply finished_depth in Hfin. lia.
Qed.

End AccumulatorMore.

Section ListenerMore.
Context `{Wollok}.
Import Repl.

(** X18.  A line made of white space only (the empty line too), of
    whichever of the characters that [trim] strips, is ignored, inside a
    block as well as outside: the session is as it was but for the call
    of [repl.prompt()], which writes the prompt again. *)
Theorem blank_line_only_prompts (s : Session) (spaces : list string) :
  exitCode s = None ->
  Forall (fun c => In c JS.whiteSpace) spaces ->
  onLine (JS.join EmptyString spaces) s = prompt s.
Proof.
  intros Hexit Hblank. unfold onLine.
  rewrite Hexit, (trim_blank spaces Hblank). cbn [JS.truthy].
  now rewrite Hexit.
Qed.

Lemma commandHandlerParse_quiet args s :
  history (commandHandlerParse args s) = history s /\
  multilineState (commandHandlerParse args s) = multilineState s /\
  interpreter (commandHandlerParse args s) = interpreter s /\
  exists new,
    output (commandHandlerParse args s) = output s ++ new /\
    evaluations new = [].
Proof.
  unfold commandHandlerParse.
  destruct (findCommand (hd EmptyString args)).
  - cbn. repeat (apply conj; [reflexivity|]). exists []. now rewrite app_nil_r.
  - cbn. repeat (apply conj; [reflexivity|]). eexists. split; reflexivity.
  - cbn. repeat (apply conj; [reflexivity|]). eexists. split; reflexivity.
  - destruct (onReloadClient_keeps true None s) as (Hh & Hm & Hi & _ & _ & Hout).
    repeat (apply conj; [assumption|]). exact Hout.
  - cbn. repeat (apply conj; [reflexivity|]). eexists. split; reflexivity.
  - cbn. repeat (apply conj; [reflexivity|]). eexists. split; reflexivity.
Qed.

(** X19.  A line that starts with a colon is never evaluated and never
    recorded, and it leaves the accumulator alone even when a block is
    open: the history, the interpreter and the pending lines are as
    they were. *)
Theorem command_line_is_not_evaluated (s : Session) (raw : string) :
  JS.startsWith (JS.trim raw) ":" = true ->
  history (onLine raw s) = history s /\
  multilineState (onLine raw s) = multilineState s /\
  interpreter (onLine raw s) = interpreter s /\
  exists new,
    output (onLine raw s) = output s ++ new /\ evaluations new = [].
Proof.
  intros Hcommand. unfold onLine.
  destruct (exitCode s) eqn:Hexit.
  { repeat (apply conj; [reflexivity|]). exists []. now rewrite app_nil_r. }
  rewrite (startsWith_truthy _ ":" eq_refl Hcommand), Hcommand.
  destruct (commandHandlerParse_quiet (JS.split " "%char (JS.trim raw)) s)
    as (Hh & Hm & Hi & new & Hout & Hev).
  destruct (exitCode (commandHandlerParse _ s)).
  - repeat (apply conj; [assumption|]). now exists new.
  - cbn. repeat (apply conj; [assumption|]).
    exists (new ++ [Prompt]). rewrite Hout, <- app_assoc.
    split; [reflexivity|]. now rewrite evaluations_app, Hev.
Qed.

(** X20.  A line that ends with an opening brace (and is not a command)
    completes nothing, outside or inside of a block: it becomes the last
    pending line, one more bracket is open, and nothing is evaluated or
    recorded. *)
Theorem opener_never_completes_a_unit (s : Session) (raw : string) :
  exitCode s = None ->
  JS.startsWith (JS.trim raw) ":" = false ->
  JS.endsWith (JS.trim raw) "{" = true ->
  let s' := onLine raw s in
  Multiline.history (multilineState s')
  = Multiline.history (multilineState s) ++ [JS.trim raw] /\
  Multiline.depth (multilineState s') = S (Multiline.depth (multilineState s)) /\
  history s' = history s /\ interpreter s' = interpreter s /\
  exists new, output s' = output s ++ new /\ evaluations new = [].
Proof.
  intros Hexit Hcommand Hopen s'. subst s'.
  assert (Htruthy : JS.truthy (JS.trim raw) = true)
    by (destruct (JS.trim raw); [discriminate | reflexivity]).
  assert (Hmode : negb (Multiline.finished (multilineState s))
                  || JS.endsWith (JS.trim raw) "{" = true)
    by (rewrite Hopen; apply orb_true_r).
  rewrite (onLine_block s raw Hexit Htruthy Hcommand Hmode).
  pose proof (handled_depth (JS.trim raw) (multilineState s)) as Hdepth.
  unfold Blocks.delta in Hdepth.
  change (Blocks.opens (JS.trim raw)) with (JS.endsWith (JS.trim raw) "{") in Hdepth.
  rewrite Hopen, (opens_not_closes _ Hopen) in Hdepth.
  assert (Hd : Multiline.depth (Multiline.handled (JS.trim raw) (multilineState s))
               = S (Multiline.depth (multilineState s))) by lia.
  destruct (Multiline.finished (Multiline.handled (JS.trim raw) (multilineState s)))
    eqn:Hfin.
  { apply finished_depth in Hfin. lia. }
  cbn. split; [reflexivity|]. split; [exact Hd|].
  repeat (apply conj; [reflexivity|]).
  eexists. rewrite <- app_assoc. split; reflexivity.
Qed.

Lemma extended_trans s a s1 b s2 :
  Tracking.extended s a s1 -> Tracking.extended s1 b s2 ->
  Tracking.extended s (a ++ b) s2.
Proof.
  intros (Hh & Hi & new & Hout & Hev) (Hh' & Hi' & new' & Hout' & Hev').
  unfold Tracking.extended.
  rewrite Hh', Hi', Hh, Hi, interpreterAfter_app, app_assoc.
  repeat (apply conj; [reflexivity|]).
  exists (new ++ new'). rewrite Hout', Hout, app_assoc. split; [reflexivity|].
  now rewrite evaluations_app, evaluatedFrom_app, Hev, Hev', Hi.
Qed.

Lemma advanced_extended s units s' :
  advanced s units s' -> Tracking.extended s units s'.
Proof.
  intros (_ & _ & _ & _ & _ & _ & Hh & Hi & new & Hout & Hev & _).
  repeat (apply conj; [assumption|]). now exists new.
Qed.

(** What one line does to the history, whatever the line. *)
Lemma onLine_extended s raw :
  exists units,
    Tracking.extended s units (onLine raw s) /\ length units <= 1.
Proof.
  destruct (exitCode s) as [code|] eqn:Hexit.
  { exists []. unfold onLine. rewrite Hexit. split; [|cbn; lia].
    unfold Tracking.extended. cbn. rewrite !app_nil_r.
    repeat (apply conj; [reflexivity|]). exists []. now rewrite app_nil_r. }
  destruct (JS.truthy (JS.trim raw)) eqn:Htruthy.
  2:{ exists []. unfold onLine. rewrite Hexit, Htruthy, Hexit.
      split; [|cbn; lia]. apply advanced_extended, advanced_prompt. }
  destruct (JS.startsWith (JS.trim raw) ":") eqn:Hcommand.
  { exists []. split; [|cbn; lia]. unfold onLine.
    rewrite Hexit, Htruthy, Hcommand.
    destruct (commandHandlerParse_quiet (JS.split " "%char (JS.trim raw)) s)
      as (Hh & _ & Hi & new & Hout & Hev).
    unfold Tracking.extended.
    destruct (exitCode (commandHandlerParse _ s));
      cbn [history interpreter output log prompt setEditor];
      rewrite Hh, Hi, app_nil_r; repeat (apply conj; [reflexivity|]).
    - now exists new.
    - exists (new ++ [Prompt]). rewrite Hout, <- app_assoc.
      split; [reflexivity|]. now rewrite evaluations_app, Hev. }
  destruct (negb (Multiline.finished (multilineState s))
            || JS.endsWith (JS.trim raw) "{") eqn:Hmode.
  - rewrite (onLine_block s raw Hexit Htruthy Hcommand Hmode).
    destruct (Multiline.finished
                (Multiline.handled (JS.trim raw) (multilineState s))).
    + eexists [_]. split; [|cbn; lia]. unfold Tracking.extended. cbn.
      repeat (apply conj; [reflexivity|]).
      eexists. rewrite <- !app_assoc. split; reflexivity.
    + exists []. split; [|cbn; lia]. unfold Tracking.extended. cbn.
      rewrite app_nil_r. repeat (apply conj; [reflexivity|]).
      eexists. rewrite <- !app_assoc. split; reflexivity.
  - rewrite (onLine_direct s raw Hexit Htruthy Hcommand Hmode).
    eexists [_]. split; [|cbn; lia]. unfold Tracking.extended. cbn.
    repeat (apply conj; [reflexivity|]).
    eexists. rewrite <- !app_assoc. split; reflexivity.
Qed.

(** X21.  Lines only add to the history: after any lines, commands
    included, the history is the former history followed by the units
    that were evaluated meanwhile, in the order of their evaluation; the
    interpreter has run exactly those units, each after the one before;
    and there is at most one unit per line. *)
Theorem lines_only_extend_the_history (lines : list string) (s : Session) :
  exists units,
    Tracking.extended s units (Tracking.onLines lines s) /\
    length units <= length lines.
Proof.
  revert s. induction lines as [|line lines IH]; intros s.
  - exists []. split; [|cbn; lia]. unfold Tracking.extended. cbn.
    rewrite !app_nil_r. repeat (apply conj; [reflexivity|]).
    exists []. now rewrite app_nil_r.
  - destruct (onLine_extended s line) as (first & Hfirst & Hlen).
    destruct (IH (onLine line s)) as (rest & Hrest & Hlen').
    exists (first ++ rest). split.
    + apply (extended_trans _ _ _ _ _ Hfirst Hrest).
    + rewrite length_app. cbn [length]. lia.
Qed.

Lemma removelast_map {A B : Type} (f : A -> B) (l : list A) :
  removelast (map f l) = map f (removelast l).
Proof.
  induction l as [|x l IH]; [reflexivity|].
  destruct l as [|y l]; [reflexivity|].
  change (removelast (map f (x :: y :: l)))
    with (f x :: removelast (map f (y :: l))).
  now rewrite IH.
Qed.

Lemma onLine_trimmed s raw : onLine raw s = onLine (JS.trim raw) s.
Proof. unfold onLine. now rewrite trim_idempotent. Qed.

(** X28.  A block typed at the idle prompt is evaluated as one unit:
    when the lines, trimmed, are not empty, are no commands and are
    balanced at the last line and not before, nothing is evaluated
    before the last line, which evaluates and records the trimmed lines
    joined by line feeds and leaves the accumulator empty. *)
Theorem typed_block_is_one_unit (s : Session) (raws : list string) :
  exitCode s = None -> multilineState s = Multiline.empty ->
  Forall (fun raw => JS.truthy (JS.trim raw) = true /\
                     JS.startsWith (JS.trim raw) ":" = false /\
                     noTerminator raw = true) raws ->
  Blocks.balancedAtEnd (map JS.trim raws) ->
  let s' := Tracking.onLines raws s in
  advanced s [JS.join (JS.chr JS.LF) (map JS.trim raws)] s' /\
  multilineState s' = Multiline.empty /\
  evaluations
    (skipn (length (output s))
       (output (Tracking.onLines (removelast raws) s))) = [].
Proof.
  intros Hexit Hidle Hraws Hbalanced s'.
  assert (Htrimmed : forall lines s0,
            Tracking.onLines lines s0
            = fold_left (fun s line => onLine line s) (map JS.trim lines) s0).
  { induction lines as [|line lines IH]; intros s0; [reflexivity|].
    cbn [Tracking.onLines fold_left map]. rewrite <- onLine_trimmed.
    apply IH. }
  assert (Hclean : Forall History.cleanLine (map JS.trim raws)).
  { apply Forall_map. revert Hraws. apply Forall_impl.
    intros raw (Htruthy & Hcommand & Hraw).
    split; [apply trim_idempotent|]. split; [exact Htruthy|].
    split; [exact Hcommand | now apply trim_noTerminator]. }
  subst s'. rewrite Htrimmed.
  destruct (balanced_lines_through_listener s _ Hexit Hidle Hclean Hbalanced)
    as [Hadv Hstate].
  split; [exact Hadv|]. split; [exact Hstate|].
  rewrite Htrimmed, <- removelast_map.
  destruct Hbalanced as (Hne & Hzero & Hpos).
  destruct (exists_last Hne) as (pre & last & Heq).
  rewrite Heq, removelast_last.
  rewrite Heq in Hclean, Hzero, Hpos.
  apply Forall_app in Hclean. destruct Hclean as [Hpre _].
  destruct pre as [|line pre].
  { cbn. now rewrite skipn_all. }
  assert (Hnones : snd (Multiline.feedAll (line :: pre) (multilineState s))
                   = Multiline.nones (line :: pre)).
  { rewrite Hidle.
    pose proof (feedAll_until_balanced ((line :: pre) ++ [last]) Multiline.empty
                  ltac:(discriminate) Hzero Hpos) as Hfeed.
    rewrite feedAll_app, feedAll_one, removelast_last in Hfeed.
    pose proof (f_equal snd Hfeed) as Houts. cbn [snd] in Houts.
    now apply app_inj_tail in Houts. }
  assert (Hmode : line :: pre <> [] ->
                  Multiline.finished (multilineState s) = false \/
                  Blocks.opens (hd EmptyString (line :: pre)) = true).
  { intros _. right. cbn [hd]. specialize (Hpos 1).
    cbn [app firstn Blocks.netDepth length] in Hpos.
    unfold Blocks.delta in Hpos. rewrite length_app in Hpos. cbn in Hpos.
    destruct (Blocks.opens line); [reflexivity|].
    destruct (Blocks.closes line); lia. }
  destruct (onLines_pending (line :: pre) s Hexit Hpre Hnones Hmode)
    as ((_ & _ & _ & _ & _ & _ & _ & _ & new & Hout & Hev & _) & _).
  cbn zeta in Hout. rewrite Hout.
  rewrite skipn_app, skipn_all, Nat.sub_diag. exact Hev.
Qed.

End ListenerMore.

(* ================================================================== *)
(** * More on the sessions that the REPL reaches *)
(* ================================================================== *)

Section SessionMore.
Context `{Wollok}.
Import Repl.

Lemma recorded_is_no_command unit :
  History.recorded unit ->
  JS.truthy unit = true /\ JS.startsWith unit ":" = false.
Proof.
  intros (lines & -> & Hclean & Hshape).
  destruct lines as [|line rest].
  { destruct Hshape as [(l & Hl & _) | (Hopen & _)]; discriminate. }
  inversion Hclean as [|? ? (_ & Htruthy & Hcommand & _) _]; subst.
  destruct line as [|a line]; [discriminate|].
  destruct rest as [|line2 rest]; [split; assumption|].
  change (JS.join (JS.chr JS.LF) (String a line :: line2 :: rest))
    with (String a (line ++ JS.chr JS.LF
                    ++ JS.join (JS.chr JS.LF) (line2 :: rest))%string).
  split; [reflexivity|].
  etransitivity; [|exact Hcommand].
  apply (startsWith_first_character a _ line ":"%char).
Qed.

(** X22.  No command and no empty text is in the history of a session:
    what is replayed by a rerun is never a line that starts with a
    colon, so a rerun cannot quit, reload or rerun again. *)
Theorem history_holds_no_command (s : Session) (unit : string) :
  reachable s -> In unit (history s) ->
  JS.truthy unit = true /\ JS.startsWith unit ":" = false.
Proof.
  intros Hreach Hin.
  destruct (reachable_invariant s Hreach) as [Hrec _].
  apply recorded_is_no_command.
  now apply (proj1 (Forall_forall _ _) Hrec).
Qed.

(** X23.  In every session the accumulator holds pending lines exactly
    when a bracket is open: no line stays behind after a unit is
    produced, and an open block has at least the line that opened it. *)
Theorem pending_iff_block_open (s : Session) :
  reachable s ->
  (Multiline.finished (multilineState s) = true
   <-> Multiline.history (multilineState s) = []).
Proof.
  intros Hreach.
  destruct (reachable_invariant s Hreach) as [_ Hpending].
  split.
  - intros Hfin. now rewrite (pendingOk_idle _ Hpending Hfin).
  - intros Hempty. destruct Hpending as (_ & Hfeed & _).
    rewrite Hempty in Hfeed. cbn in Hfeed. now injection Hfeed as <-.
Qed.

(** X24.  In every session the options skip the diagram exactly when
    the client is neither on nor awaited by a call of [onReloadClient]
    that has not resumed yet, and once the turn of the event loop ends
    no client is awaited and the client is on exactly when the options
    do not skip the diagram.  A client that is on is never turned off,
    by a line, by the end of a turn or by a reload. *)
Theorem diagram_is_on_iff_not_skipped (s : Session) :
  reachable s ->
  skipDiagram (options s)
  = negb (diagramEnabled s || JS.nonEmpty (awaitedClients s)) /\
  (exitCode s = None ->
   awaitedClients (settle s) = [] /\
   diagramEnabled (settle s) = negb (skipDiagram (options (settle s)))) /\
  (forall raw, diagramEnabled s = true -> diagramEnabled (onLine raw s) = true) /\
  (diagramEnabled s = true -> diagramEnabled (settle s) = true) /\
  (forall world, diagramEnabled s = true ->
                 diagramEnabled (completeReload world s) = true).
Proof.
  intros Hreach. pose proof (reachable_consistent s Hreach) as Hs.
  split; [exact (proj1 Hs)|]. split.
  { intros Hexit. rewrite settle_options. now apply settle_on. }
  split; [|split].
  - intros raw. exact (proj2 (onLine_kept raw s Hs)).
  - exact (proj2 (settle_kept s Hs)).
  - intros world. exact (proj2 (completeReload_kept world s Hs)).
Qed.

(** The diagram asked for by a reload is not skipped any more. *)
Lemma onReloadClient_unskipped i s :
  Tracking.diagramConsistent s ->
  skipDiagram (options (onReloadClient (skipDiagram (options s)) i s)) = false.
Proof.
  intros [Hskip _]. unfold onReloadClient, initializeClient.
  destruct (skipDiagram (options s)) eqn:Hskipped.
  - symmetry in Hskip. apply negb_true_iff in Hskip.
    unfold Tracking.diagramOn in Hskip. apply orb_false_elim in Hskip.
    destruct Hskip as [-> _]. reflexivity.
  - cbn [andb]. exact Hskipped.
Qed.

(** X25.  A reload that completes with a built environment leaves the
    diagram client on, whatever the options asked for: [reloadClient] is
    given [options.skipDiagram] where [onReloadClient] expects whether to
    activate the diagram, so a session that skipped the diagram starts
    its server at the first reload. *)
Theorem reload_leaves_the_diagram_on
  (s : Session) (world : World) (rerun : bool) (rest : list bool)
  (events : list Event) (i : Interpreter) :
  reachable s -> exitCode s = None -> reloading s = rerun :: rest ->
  initializeInterpreter world (autoImportPath s) (options s)
  = (events, Normal i) ->
  let s' := completeReload world s in
  exitCode s' = None /\ diagramEnabled s' = true /\
  skipDiagram (options s') = false.
Proof.
  intros Hreach Hexit Hreload Hinit s'. subst s'.
  destruct (reachable_sound s Hreach) as [[Hrec _] (Hwf & _)].
  pose proof (reachable_consistent s Hreach) as Hs.
  unfold completeReload. rewrite Hexit, Hreload.
  cbn [autoImportPath options setReloading].
  rewrite settle_autoImportPath, settle_options, Hinit.
  set (s1 := log events (setReloading rest (settle s))).
  set (s2 := onReloadInterpreter i rerun s1).
  assert (Hhistory : history s1 = history s) by apply settle_history.
  assert (Hexit2 : exitCode s2 = None).
  { subst s2. rewrite onReloadInterpreter_keeps_running;
      [subst s1; cbn [exitCode log setReloading];
       now rewrite settle_exitCode
      | now rewrite Hhistory | now rewrite Hhistory]. }
  assert (Hs1 : Tracking.diagramConsistent s1).
  { apply (diagramKept_same (settle s)); [reflexivity..|].
    exact (proj1 (settle_kept s Hs)). }
  assert (Hs2 : Tracking.diagramConsistent s2)
    by exact (proj1 (onReloadInterpreter_kept i rerun s1 Hs1)).
  rewrite Hexit2.
  set (s3 := onReloadClient (skipDiagram (options s2)) (Some (interpreter s2)) s2).
  assert (Hs3 : Tracking.diagramConsistent s3)
    by exact (proj1 (onReloadClient_kept _ _ s2 Hs2)).
  assert (Hskip3 : skipDiagram (options s3) = false)
    by exact (onReloadClient_unskipped _ s2 Hs2).
  assert (Hexit3 : exitCode s3 = None).
  { destruct (onReloadClient_keeps (skipDiagram (options s2))
                (Some (interpreter s2)) s2) as (_ & _ & _ & He & _).
    subst s3. now rewrite He. }
  destruct (settle_on s3 Hexit3 Hs3) as [_ Hon].
  rewrite settle_exitCode, settle_options, Hon, Hskip3.
  now repeat split.
Qed.


(** X26.  Whatever is thrown while the environment is built or validated
    is handed to [handleError], written to the file log, and ends the
    process with 12: the error never reaches the caller, at the start of
    the session or at a reload. *)
Theorem initializeInterpreter_reports_what_is_thrown
  (world : World) (path : option string) (options : Options) (e : JsError) :
  buildEnvironmentForProject world (project options) = Throw e \/
  (exists environment,
     buildEnvironmentForProject world (project options) = Normal environment /\
     validateEnvironment environment (skipValidations options) = Throw e) ->
  initializeInterpreter world path options
  = ([HandleError e; FileLogBuildFailed e], ProcessExit 12).
Proof.
  intros [Hbuild | (environment & Hbuild & Hvalid)];
    unfold initializeInterpreter; rewrite Hbuild.
  - reflexivity.
  - cbn [lift bind]. rewrite Hvalid. reflexivity.
Qed.

End SessionMore.

Section CompleterMore.
Context `{Wollok}.

Lemma startsWith_empty s : JS.startsWith s EmptyString = true.
Proof. now destruct s. Qed.

Lemma startsWith_itself s : JS.startsWith s s = true.
Proof.
  unfold JS.startsWith. induction s as [|a s IH]; [reflexivity|].
  cbn [prefix]. destruct (ascii_dec a a); [exact IH | congruence].
Qed.

(** X27.  What the completer offers is stable: a completion that it
    returns for some input is returned again when it is itself the
    input, first component of the answer being then the candidates that
    start with it.  On the empty input the completer offers every
    candidate, in the order of the candidate list. *)
Theorem offered_completions_are_stable (input c : string) :
  In c (fst (Autocomplete.autocomplete input)) ->
  In c (fst (Autocomplete.autocomplete c)) /\
  fst (Autocomplete.autocomplete c)
  = filter (fun c' => JS.startsWith c' c) Autocomplete.completions /\
  Autocomplete.autocomplete EmptyString
  = (Autocomplete.completions, EmptyString).
Proof.
  intros Hoffered.
  assert (Hcandidate : In c Autocomplete.completions).
  { unfold Autocomplete.autocomplete in Hoffered. cbn [fst] in Hoffered.
    destruct (JS.nonEmpty _) in Hoffered; [|exact Hoffered].
    now apply filter_In in Hoffered. }
  assert (Hhit : In c (filter (fun c' => JS.startsWith c' c)
                         Autocomplete.completions))
    by (apply filter_In; split; [exact Hcandidate | apply startsWith_itself]).
  unfold Autocomplete.autocomplete. cbn [fst].
  destruct (filter (fun c' => JS.startsWith c' c) Autocomplete.completions)
    as [|h hits] eqn:Hhits; [destruct Hhit|].
  cbn [JS.nonEmpty]. split; [exact Hhit|]. split; [reflexivity|].
  rewrite (filter_all (fun c => JS.startsWith c EmptyString)
             Autocomplete.completions)
    by (intros c' _; apply startsWith_empty).
  destruct (JS.nonEmpty Autocomplete.completions); reflexivity.
Qed.

End CompleterMore.

(* ================================================================== *)
(** * The properties on the sample project *)
(* ================================================================== *)

#[local] Existing Instance Sample.wollok.

(** The completer on a prefix of two candidates. *)
Lemma autocomplete_hits_or_all_completions_witness :
  Autocomplete.autocomplete "new "
  = (["new Date()"; "new Dictionary()"], "new ") /\
  fst (Autocomplete.autocomplete "zz") = Autocomplete.completions.
Proof.
  split; [reflexivity|].
  destruct (@autocomplete_hits_or_all_completions Sample.wollok "zz")
    as (_ & [[(c & Hc & Hstarts) _] | [_ Hall]] & _).
  - exfalso. vm_compute in Hc.
    repeat (destruct Hc as [<- | Hc]; [discriminate Hstarts|]). exact Hc.
  - exact Hall.
Defined.

(** A only, B and C match the filter: the resolver answers A. *)
Lemma only_test_overrides_every_filter_witness :
  TestCommand.testMatches "eats" Sample.TestA = false /\
  TestCommand.testMatches "eats" Sample.TestB = true /\
  TestCommand.testMatches "eats" Sample.TestC = true /\
  TestCommand.getTarget Sample.Pets (Some "eats") (Sample.noSelection "pets")
  = ([], Normal [Sample.TestA]).
Proof.
  repeat (split; [reflexivity|]).
  destruct (@only_test_overrides_every_filter Sample.wollok
              Sample.Pets (Some "eats") (Sample.noSelection "pets")
              Sample.Pets Sample.TestA eq_refl (or_introl eq_refl) eq_refl)
    as (first & Hfind & Htarget & _).
  vm_compute in Hfind. injection Hfind as <-. exact Htarget.
Defined.

(** Y and Z are marked only: the resolver answers Y. *)
Lemma first_only_test_wins_witness :
  TestCommand.getTarget Sample.Birds None (Sample.noSelection "birds")
  = ([], Normal [Sample.TestY]).
Proof.
  apply (@first_only_test_wins Sample.wollok
           Sample.Birds None (Sample.noSelection "birds") Sample.Birds
           [Sample.TestX] Sample.TestY [Sample.TestZ] Sample.TestZ).
  - reflexivity.
  - reflexivity.
  - repeat constructor.
  - reflexivity.
  - left. reflexivity.
  - reflexivity.
Defined.

(** The filter [Sum] keeps testSum and testSumNeg. *)
Lemma free_text_filter_keeps_matching_tests_witness :
  TestCommand.getTarget Sample.Calc (Some "Sum") (Sample.noSelection "calc")
  = ([], Normal [Sample.TestSum; Sample.TestSumNeg]).
Proof.
  destruct (@free_text_filter_keeps_matching_tests Sample.wollok
              Sample.Calc (Some "Sum") (Sample.noSelection "calc") Sample.Calc)
    as [Htarget _].
  - reflexivity.
  - intros t Hin. cbn in Hin.
    repeat (destruct Hin as [<- | Hin]; [reflexivity|]). destruct Hin.
  - rewrite Htarget. reflexivity.
Defined.

(** C7, as stated, fails: with the filter [sum] over testSum, testSub and
    testSumNeg the resolver returns no test, since no fully-qualified
    name contains [sum] in lower case. *)
Lemma lowercase_sum_matches_no_test :
  TestCommand.getTarget Sample.Calc (Some "sum") (Sample.noSelection "calc")
  = ([], Normal []) /\
  TestCommand.getTarget Sample.Calc (Some "sum") (Sample.noSelection "calc")
  <> ([], Normal [Sample.TestSum; Sample.TestSumNeg]).
Proof. split; [reflexivity | discriminate]. Qed.

(** No package of the sample has the file [f.wlk]. *)
Lemma selection_miss_is_reported_and_runs_nothing_witness :
  let options := Sample.testOptions "calc" (Some "f.wlk") None None in
  TestCommand.getTarget Sample.Calc None options
  = ([TestCommand.LoggerError "File 'f.wlk' not found"], Normal []) /\
  TestCommand.run true None options
  = ([TestCommand.InfoRunningAll; TestCommand.InfoBuilding;
      TestCommand.LoggerError "File 'f.wlk' not found";
      TestCommand.InfoRunning 0; TestCommand.ConsoleLog;
      TestCommand.FileLog 0 0; TestCommand.InfoSummary 0 None], Normal tt).
Proof.
  intros options.
  apply (@selection_miss_is_reported_and_runs_nothing Sample.wollok
           true Sample.Calc None options "File 'f.wlk' not found").
  - reflexivity.
  - apply (@MissingTarget.miss_file Sample.wollok Sample.Calc options "f.wlk").
    + reflexivity.
    + reflexivity.
    + intros p Hin Hpackage. cbn in Hin.
      repeat (destruct Hin as [<- | Hin]; [discriminate|]). destruct Hin.
  - reflexivity.
  - reflexivity.
Defined.

(** A block of three lines. *)
Lemma balanced_lines_emit_one_unit_witness :
  Multiline.feedAll ["foo {"; "bar()"; "}"] Multiline.empty
  = (Multiline.empty,
     [None; None; Some (JS.join (JS.chr JS.LF) ["foo {"; "bar()"; "}"])]).
Proof.
  apply (balanced_lines_emit_one_unit ["foo {"; "bar()"; "}"]).
  split; [discriminate|]. split; [reflexivity|].
  intros k Hk. destruct k as [|[|[|k]]]; try reflexivity; simpl in Hk; lia.
Defined.

(** Two blocks open, one closed, then three lines that close nothing. *)
Lemma open_block_emits_nothing_witness :
  let st1 := fst (Multiline.feedAll ["a {"; "b {"; "}"] Multiline.empty) in
  0 < Multiline.depth st1 /\
  snd (Multiline.feedAll ["x"; "y {"; "z"] st1) = [None; None; None].
Proof.
  destruct (open_block_emits_nothing Multiline.empty
              ["a {"; "b {"; "}"] ["x"; "y {"; "z"])
    as (Hdepth & Houts & _).
  - reflexivity.
  - repeat constructor.
  - split; [exact Hdepth | exact Houts].
Defined.

(** A unit whose evaluation fails is recorded all the same. *)
Lemma completed_unit_is_recorded_and_notified_witness :
  errored (snd (interprete (Repl.interpreter Sample.start) "boom()")) = true /\
  Repl.history (Repl.onLine " boom() " Sample.start) = ["boom()"].
Proof.
  split; [reflexivity|].
  destruct (@completed_unit_is_recorded_and_notified Sample.wollok
              Sample.start " boom() " "boom()" eq_refl eq_refl)
    as (Hhistory & _).
  exact Hhistory.
Defined.

(** The four ways out on the sample: the quit command, an auto-import
    that names a describe, sources that do not parse, and the failing
    test testSub. *)
Lemma exit_codes_are_distinct_witness :
  Repl.exitCode (Repl.onLine ":quit" Sample.start) = Some 0%Z /\
  snd (Repl.replFn true (Some "calc.arithmetic") Sample.replOptions)
  = ProcessExit 11 /\
  snd (Repl.replFn false None Sample.replOptions) = ProcessExit 12 /\
  Repl.exitCode (Repl.completeReload false (Sample.typed [":reload"])) = Some 12%Z /\
  snd (TestCommand.run true None (Sample.noSelection "calc")) = ProcessExit 2 /\
  NoDup [0%Z; 11%Z; 12%Z; 2%Z].
Proof.
  apply (@exit_codes_are_distinct Sample.wollok
           Sample.start ":quit"
           true "calc.arithmetic" Sample.replOptions Sample.Calc
           false (Sample.typed [":reload"]) false []
           (Error "the sources do not parse")
           true None (Sample.noSelection "calc") Sample.Calc []
           [Sample.TestSum; Sample.TestSub; Sample.TestSumNeg]
           Sample.TestSub (Error "assertion failed")).
  - reflexivity.
  - reflexivity.
  - reflexivity.
  - reflexivity.
  - reflexivity.
  - reflexivity.
  - intros entity Hentity. vm_compute in Hentity.
    injection Hentity as <-. reflexivity.
  - reflexivity.
  - reflexivity.
  - reflexivity.
  - reflexivity.
  - reflexivity.
  - reflexivity.
  - reflexivity.
  - do 4 right. left. reflexivity.
  - reflexivity.
  - reflexivity.
  - reflexivity.
Defined.

(** The sample session is one that the REPL starts with. *)
Lemma sample_start_reachable : Repl.reachable Sample.start.
Proof.
  apply (@Repl.reach_start Sample.wollok true None Sample.replOptions
           [Repl.LoggerInfo "Initializing Wollok REPL on calc"] Sample.start).
  reflexivity.
Qed.

(** The session after one line and one block of three lines. *)
Lemma sample_session_reachable :
  Repl.reachable (Sample.typed ["2 + 2"; "foo {"; "  bar()"; "}"]).
Proof.
  apply (@reachable_onLines Sample.wollok).
  - exact sample_start_reachable.
  - intros _. reflexivity.
  - repeat constructor.
Qed.



(* ================================================================== *)
(** * More properties on the sample project *)
(* ================================================================== *)

(** The file and the describe of the sample resolve to the describe. *)
Lemma getBaseNode_resolves_witness :
  TestCommand.getBaseNode Sample.Calc None
    (Sample.testOptions "calc" (Some "calc.wtest") (Some "arithmetic") None)
  = Normal Sample.Arithmetic /\
  is_Describe Sample.Arithmetic = true /\
  name Sample.Arithmetic = TestCommand.quoted "arithmetic".
Proof.
  split; [reflexivity|].
  destruct (@getBaseNode_resolves Sample.wollok Sample.Calc None
              (Sample.testOptions "calc" (Some "calc.wtest") (Some "arithmetic") None)
              Sample.Arithmetic eq_refl)
    as (_ & Hdescribe & _).
  destruct (Hdescribe eq_refl "arithmetic" eq_refl eq_refl) as (Hkind & Hname & _).
  split; assumption.
Defined.

(** The one target of the test name testSub. *)
Lemma targets_are_tests_of_the_base_witness :
  TestCommand.getTarget Sample.Calc None
    (Sample.testOptions "calc" None None (Some "testSub"))
  = ([], Normal [Sample.TestSub]) /\
  is_Test Sample.TestSub = true /\
  name Sample.TestSub = TestCommand.quoted "testSub".
Proof.
  split; [reflexivity|].
  destruct (@targets_are_tests_of_the_base Sample.wollok Sample.Calc None
              (Sample.testOptions "calc" None None (Some "testSub"))
              Sample.Calc [] [Sample.TestSub] Sample.TestSub
              eq_refl eq_refl (or_introl eq_refl))
    as (Htest & _ & Hname).
  split; [exact Htest | exact (Hname eq_refl "testSub" eq_refl eq_refl)].
Defined.

(** A file that no package has does not matter under a free-text filter. *)
Lemma free_text_filter_ignores_the_selection_witness :
  TestCommand.getTarget Sample.Calc (Some "Sum")
    (Sample.testOptions "calc" (Some "nothing.wtest") None None)
  = ([], Normal [Sample.TestSum; Sample.TestSumNeg]).
Proof.
  rewrite (@free_text_filter_ignores_the_selection Sample.wollok Sample.Calc "Sum"
             (Sample.testOptions "calc" (Some "nothing.wtest") None None)
             (Sample.noSelection "calc") eq_refl).
  reflexivity.
Defined.

(** The filter Sum, in double quotes or not. *)
Lemma quotes_of_the_filter_are_ignored_witness :
  TestCommand.getTarget Sample.Calc (Some (TestCommand.quoted "Sum"))
    (Sample.noSelection "calc")
  = TestCommand.getTarget Sample.Calc (Some "Sum") (Sample.noSelection "calc").
Proof.
  exact (@quotes_of_the_filter_are_ignored Sample.wollok Sample.Calc
           (TestCommand.quoted "Sum") (Sample.noSelection "calc") eq_refl).
Defined.

(** The filter that is one double quote. *)
Lemma filter_of_quotes_selects_every_test_witness :
  TestCommand.getTarget Sample.Calc (Some (JS.chr JS.quote))
    (Sample.noSelection "calc")
  = ([], Normal [Sample.TestSum; Sample.TestSub; Sample.TestSumNeg]).
Proof.
  rewrite (@filter_of_quotes_selects_every_test Sample.wollok Sample.Calc
             (JS.chr JS.quote) (Sample.noSelection "calc") eq_refl eq_refl).
  reflexivity.
Defined.

(** No selection at all: the three tests of the sample. *)
Lemma no_filter_keeps_every_candidate_witness :
  TestCommand.getTarget Sample.Calc None (Sample.noSelection "calc")
  = ([], Normal [Sample.TestSum; Sample.TestSub; Sample.TestSumNeg]).
Proof.
  rewrite (@no_filter_keeps_every_candidate Sample.wollok Sample.Calc None
             (Sample.noSelection "calc") Sample.Calc eq_refl eq_refl).
  - reflexivity.
  - intros t Hin. cbn in Hin.
    repeat (destruct Hin as [<- | Hin]; [reflexivity|]). destruct Hin.
Defined.

(** A filter and a file together. *)
Lemma run_rejects_filter_with_selection_witness :
  TestCommand.run true (Some "Sum")
    (Sample.testOptions "calc" (Some "calc.wtest") None None)
  = ([TestCommand.HandleError
        (Error "You should either use filter by full name or file/describe/test.")],
     ProcessExit 1).
Proof.
  exact (@run_rejects_filter_with_selection Sample.wollok true (Some "Sum")
           (Sample.testOptions "calc" (Some "calc.wtest") None None)
           eq_refl eq_refl).
Defined.

(** Sources that do not parse. *)
Lemma run_exits_1_without_environment_witness :
  TestCommand.run false None (Sample.noSelection "calc")
  = ([TestCommand.InfoRunningAll; TestCommand.InfoBuilding;
      TestCommand.HandleError (Error "the sources do not parse")],
     ProcessExit 1).
Proof.
  apply (@run_exits_1_without_environment Sample.wollok false None
           (Sample.noSelection "calc") (Error "the sources do not parse")).
  - reflexivity.
  - left. reflexivity.
Defined.

Lemma run_never_throws_witness :
  snd (TestCommand.run true None (Sample.noSelection "calc"))
  <> Throw (Error "assertion failed").
Proof.
  exact (@run_never_throws Sample.wollok true None (Sample.noSelection "calc")
           (Error "assertion failed")).
Defined.

(** testSub fails: the run of the sample ends with 2. *)
Lemma run_exits_2_iff_a_target_fails_witness :
  snd (TestCommand.run true None (Sample.noSelection "calc")) = ProcessExit 2 /\
  snd (TestCommand.run true (Some "Sum") (Sample.noSelection "calc")) = Normal tt.
Proof.
  split.
  - rewrite (@run_exits_2_iff_a_target_fails Sample.wollok true None
               (Sample.noSelection "calc") Sample.Calc []
               [Sample.TestSum; Sample.TestSub; Sample.TestSumNeg]
               eq_refl eq_refl eq_refl eq_refl).
    reflexivity.
  - rewrite (@run_exits_2_iff_a_target_fails Sample.wollok true (Some "Sum")
               (Sample.noSelection "calc") Sample.Calc []
               [Sample.TestSum; Sample.TestSumNeg]
               eq_refl eq_refl eq_refl eq_refl).
    reflexivity.
Defined.

(** The sample options skip the diagram. *)
Lemma skipped_diagram_sends_nothing_witness :
  let c := fst (Diagram.reloads [SampleClient.second]
                  (Diagram.initializeClient Sample.replOptions SampleClient.first)) in
  Diagram.enabled c = false /\
  snd (Diagram.reloads [SampleClient.second]
         (Diagram.initializeClient Sample.replOptions SampleClient.first)) = [] /\
  Diagram.connect c = [].
Proof.
  exact (@skipped_diagram_sends_nothing Sample.wollok Sample.replOptions
           SampleClient.first [SampleClient.second] eq_refl).
Defined.

(** Two reloads with the diagram on. *)
Lemma connecting_socket_gets_the_latest_diagram_witness :
  let c := fst (Diagram.reloads [SampleClient.second; SampleClient.first]
                  (Diagram.initializeClient SampleClient.withDiagram [])) in
  Diagram.connect c
  = [Diagram.InitDiagram SampleClient.withDiagram;
     Diagram.UpdateDiagram SampleClient.first].
Proof.
  destruct (@connecting_socket_gets_the_latest_diagram Sample.wollok
              SampleClient.withDiagram [] [SampleClient.second; SampleClient.first]
              eq_refl) as (_ & Hconnect & _).
  exact Hconnect.
Defined.

Lemma pending_lines_accumulate_witness :
  Multiline.history (fst (Multiline.feedAll ["a {"; "b"] Multiline.empty))
  = ["a {"; "b"].
Proof.
  destruct (pending_lines_accumulate ["a {"; "b"] Multiline.empty eq_refl)
    as [Hhistory _].
  exact Hhistory.
Defined.

(** A no-break space, a space and an em space in the middle of a
    block. *)
Lemma blank_line_only_prompts_witness :
  Repl.onLine (JS.utf8 [194; 160; 32; 226; 128; 131]) (Sample.typed ["foo {"])
  = Repl.prompt (Sample.typed ["foo {"]).
Proof.
  apply (@blank_line_only_prompts Sample.wollok (Sample.typed ["foo {"])
           [JS.utf8 [194; 160]; " "; JS.utf8 [226; 128; 131]] eq_refl).
  constructor; [|constructor; [|constructor; [|constructor]]];
    unfold JS.whiteSpace; cbn [In];
    repeat first [left; reflexivity | right].
Defined.

(** The help command in the middle of a block. *)
Lemma command_line_is_not_evaluated_witness :
  Repl.multilineState (Repl.onLine ":help" (Sample.typed ["foo {"]))
  = Repl.multilineState (Sample.typed ["foo {"]) /\
  Repl.history (Repl.onLine ":help" (Sample.typed ["foo {"])) = [].
Proof.
  destruct (@command_line_is_not_evaluated Sample.wollok
              (Sample.typed ["foo {"]) ":help" eq_refl)
    as (Hhistory & Hpending & _).
  split; [exact Hpending | exact Hhistory].
Defined.

Lemma opener_never_completes_a_unit_witness :
  Multiline.depth (Repl.multilineState (Repl.onLine " foo { " Sample.start)) = 1 /\
  Repl.history (Repl.onLine " foo { " Sample.start) = [].
Proof.
  destruct (@opener_never_completes_a_unit Sample.wollok Sample.start " foo { "
              eq_refl eq_refl eq_refl)
    as (_ & Hdepth & Hhistory & _).
  split; [exact Hdepth | exact Hhistory].
Defined.

Lemma history_holds_no_command_witness :
  JS.truthy "2 + 2" = true /\ JS.startsWith "2 + 2" ":" = false.
Proof.
  exact (@history_holds_no_command Sample.wollok
           (Sample.typed ["2 + 2"; "foo {"; "  bar()"; "}"]) "2 + 2"
           sample_session_reachable (or_introl eq_refl)).
Defined.

Lemma pending_iff_block_open_witness :
  Multiline.finished
    (Repl.multilineState (Sample.typed ["2 + 2"; "foo {"; "  bar()"; "}"])) = true
  <-> Multiline.history
        (Repl.multilineState (Sample.typed ["2 + 2"; "foo {"; "  bar()"; "}"])) = [].
Proof.
  exact (@pending_iff_block_open Sample.wollok
           (Sample.typed ["2 + 2"; "foo {"; "  bar()"; "}"])
           sample_session_reachable).
Defined.

Lemma diagram_is_on_iff_not_skipped_witness :
  let s := Sample.typed ["2 + 2"; "foo {"; "  bar()"; "}"] in
  Repl.skipDiagram (Repl.options s) = true /\
  Repl.diagramEnabled (Repl.settle s) = false.
Proof.
  intros s.
  destruct (@diagram_is_on_iff_not_skipped Sample.wollok s
              sample_session_reachable) as (Hskip & Hsettled & _).
  split; [exact Hskip|].
  destruct (Hsettled eq_refl) as [_ Hon]. exact Hon.
Defined.

(** The sample skips the diagram; its first reload turns it on. *)
Lemma reload_leaves_the_diagram_on_witness :
  let s := Repl.onLine ":reload" (Sample.typed ["2 + 2"; "foo {"; "  bar()"; "}"]) in
  Repl.skipDiagram (Repl.options s) = true /\
  Repl.diagramEnabled (Repl.completeReload true s) = true.
Proof.
  intros s. split; [reflexivity|].
  assert (Hreach : Repl.reachable s).
  { apply (@reachable_onLine Sample.wollok);
      [exact sample_session_reachable | intros _; reflexivity
       | reflexivity | reflexivity]. }
  destruct (@reload_leaves_the_diagram_on Sample.wollok s true false [] [] []
              Hreach eq_refl eq_refl eq_refl)
    as (_ & Hon & _).
  exact Hon.
Defined.


Lemma initializeInterpreter_reports_what_is_thrown_witness :
  Repl.initializeInterpreter false None Sample.replOptions
  = ([Repl.HandleError (Error "the sources do not parse");
      Repl.FileLogBuildFailed (Error "the sources do not parse")],
     ProcessExit 12).
Proof.
  apply (@initializeInterpreter_reports_what_is_thrown Sample.wollok false None
           Sample.replOptions (Error "the sources do not parse")).
  left. reflexivity.
Defined.

Lemma offered_completions_are_stable_witness :
  In "new Date()" (fst (Autocomplete.autocomplete "ne")) /\
  In "new Date()" (fst (Autocomplete.autocomplete "new Date()")).
Proof.
  assert (Hoffered : In "new Date()" (fst (Autocomplete.autocomplete "ne")))
    by (right; left; reflexivity).
  split; [exact Hoffered|].
  destruct (@offered_completions_are_stable Sample.wollok "ne" "new Date()" Hoffered)
    as [Hagain _].
  exact Hagain.
Defined.

(** A block of three lines typed with spaces around them. *)
Lemma typed_block_is_one_unit_witness :
  Repl.history (Tracking.onLines ["foo {"; "  bar()"; "} "] Sample.start)
  = [JS.join (JS.chr JS.LF) ["foo {"; "bar()"; "}"]].
Proof.
  destruct (@typed_block_is_one_unit Sample.wollok Sample.start
              ["foo {"; "  bar()"; "} "] eq_refl eq_refl)
    as ((_ & _ & _ & _ & _ & _ & Hhistory & _) & _).
  - repeat constructor.
  - split; [discriminate|]. split; [reflexivity|].
    intros k Hk. destruct k as [|[|[|k]]]; try reflexivity;
      cbn [map length] in Hk; lia.
  - exact Hhistory.
Defined.
